(** * Greenland tracker: classification, geo lookup, dwell tracking, alerts

    A shallow embedding of [greenland_chokepoints.py] and of the registry
    scans of [greenland_monitor.py], with the properties of the
    specification stated and proved over it.

    Conventions of the embedding.
    - Python [str] values are [string]; the text handled here (callsigns,
      transponder hex codes, ICAO identifiers) is 7-bit ASCII, so [upper],
      [lower] and [strip] are given on ASCII and leave other codes alone.
    - Python [float] values (coordinates, altitude, velocity, distances) are
      real numbers; comparisons between them are the decidable order of [R].
    - [None] is [option]'s [None]; a [dict] whose iteration order matters is
      an association list in insertion order.
    - A [datetime] is an integer count of microseconds since the epoch; a
      timestamp string ['%Y-%m-%d %H:%M:%S'] is the integer count of whole
      seconds it denotes. *)

From Stdlib Require Import ZArith List String Ascii Bool Lia Reals Lra Sorted.
Import ListNotations.

Local Open Scope string_scope.
Local Open Scope Z_scope.

(** ** Python strings *)

Module Py.

(** [c.isspace()] on ASCII: TAB..CR, FS..US and the blank. *)
Definition isspace (c : ascii) : bool :=
  let n := nat_of_ascii c in
  ((9 <=? n) && (n <=? 13) || (28 <=? n) && (n <=? 32))%nat.

Definition upper_char (c : ascii) : ascii :=
  let n := nat_of_ascii c in
  if ((97 <=? n) && (n <=? 122))%nat then ascii_of_nat (n - 32) else c.

Definition lower_char (c : ascii) : ascii :=
  let n := nat_of_ascii c in
  if ((65 <=? n) && (n <=? 90))%nat then ascii_of_nat (n + 32) else c.

Fixpoint map_string (f : ascii -> ascii) (s : string) : string :=
  match s with
  | EmptyString => EmptyString
  | String c s' => String (f c) (map_string f s')
  end.

Definition upper : string -> string := map_string upper_char.
Definition lower : string -> string := map_string lower_char.

Fixpoint lstrip (s : string) : string :=
  match s with
  | String c s' => if isspace c then lstrip s' else s
  | EmptyString => EmptyString
  end.

(** [rstrip], by recursion from the right end: a blank is dropped exactly
    when everything after it has been dropped. *)
Fixpoint rstrip (s : string) : string :=
  match s with
  | EmptyString => EmptyString
  | String c s' =>
      match rstrip s' with
      | EmptyString => if isspace c then EmptyString else String c EmptyString
      | t => String c t
      end
  end.

Definition strip (s : string) : string := rstrip (lstrip s).

(** [s.startswith(p)] *)
Definition startswith (s p : string) : bool := String.prefix p s.

(** [s.startswith((p1, ..., pn))] *)
Definition startswith_any (s : string) (ps : list string) : bool :=
  existsb (startswith s) ps.

(** [x or ''] for an optional string. *)
Definition or_empty (x : option string) : string :=
  match x with Some s => s | None => "" end.

(** Truthiness of a string: non-empty. *)
Definition truthy (s : string) : bool :=
  match s with EmptyString => false | _ => true end.

(** [a or b] on strings. *)
Definition str_or (a b : string) : string := if truthy a then a else b.

End Py.

(** ** Ordered dictionaries

    A Python [dict] keeps its keys in insertion order; assigning to a key
    that is present replaces the value in place, assigning to a new key
    appends. *)

Module Dict.
Section Ops.
Context {V : Type}.

Definition t : Type := list (string * V).

Fixpoint get (d : t) (k : string) : option V :=
  match d with
  | [] => None
  | (k', v) :: d' => if String.eqb k k' then Some v else get d' k
  end.

(** [k in d] *)
Definition mem (d : t) (k : string) : bool :=
  match get d k with Some _ => true | None => false end.

(** [d[k] = v] *)
Fixpoint set (d : t) (k : string) (v : V) : t :=
  match d with
  | [] => [(k, v)]
  | (k', v') :: d' =>
      if String.eqb k k' then (k, v) :: d' else (k', v') :: set d' k v
  end.

(** [{**a, **b}] *)
Definition merge (a b : t) : t :=
  fold_left (fun acc kv => set acc (fst kv) (snd kv)) b a.

Definition keys (d : t) : list string := map fst d.
Definition values (d : t) : list V := map snd d.

(** [{k: v for k, v in d.items() if p(v)}] *)
Definition filter_values (p : V -> bool) (d : t) : t :=
  filter (fun kv => p (snd kv)) d.

(** [{k: f(v) for k, v in d.items()}], also an in-place update of every
    value. *)
Definition map_values (f : V -> V) (d : t) : t :=
  map (fun kv => (fst kv, f (snd kv))) d.
End Ops.
Arguments t : clear implicits.
End Dict.

(** ** Great-circle distance (both scripts define the same function) *)

Module Geo.
Local Open Scope R_scope.

(** [math.radians] *)
Definition radians (x : R) : R := x * (PI / 180).

(** [math.atan2(y, x)] *)
Definition atan2 (y x : R) : R :=
  if Rlt_dec 0 x then atan (y / x)
  else if Rlt_dec x 0 then
    (if Rle_dec 0 y then atan (y / x) + PI else atan (y / x) - PI)
  else if Rlt_dec 0 y then PI / 2
  else if Rlt_dec y 0 then - (PI / 2)
  else 0.

Definition haversine_km (lat1 lon1 lat2 lon2 : R) : R :=
  let R := 6371 in
  let lat1_rad := radians lat1 in
  let lat2_rad := radians lat2 in
  let dlat := radians (lat2 - lat1) in
  let dlon := radians (lon2 - lon1) in
  let a := (sin (dlat / 2)) ^ 2
           + cos lat1_rad * cos lat2_rad * (sin (dlon / 2)) ^ 2 in
  R * 2 * atan2 (sqrt a) (sqrt (1 - a)).

(** Comparisons of floats as booleans. *)
Definition ltb (x y : R) : bool := if Rlt_dec x y then true else false.
Definition leb (x y : R) : bool := if Rle_dec x y then true else false.

(** A float that may be [float('inf')]. *)
Inductive ext : Type := Fin (x : R) | Inf.

Definition lt_ext (x : R) (m : ext) : bool :=
  match m with Fin y => ltb x y | Inf => true end.

(** [round(x, 1)]: the nearest tenth, an exact tie going to the even one. *)
Definition round_half_even (x : R) : Z :=
  let n := Int_part x in
  let f := frac_part x in
  if Rlt_dec f (1 / 2) then n
  else if Rlt_dec (1 / 2) f then (n + 1)%Z
  else if Z.even n then n else (n + 1)%Z.

Definition round1 (x : R) : R := IZR (round_half_even (x * 10)) / 10.
End Geo.

(** ** The OpenSky state vector

    A vector that reaches the processing code has at least the eight leading
    fields; [on_ground] (index 8) and [velocity] (index 9) may be missing or
    null, which the code reads alike as [None]. *)

Module State.
Record t : Type := mk {
  icao24 : string;              (* state[0] *)
  callsign : option string;     (* state[1] *)
  lon : option R;               (* state[5] *)
  lat : option R;               (* state[6] *)
  altitude : option R;          (* state[7] *)
  on_ground : option bool;      (* state[8] *)
  velocity : option R           (* state[9] *)
}.
End State.

(** ** [greenland_monitor.py]: the registry and its scans *)

Module Monitor.
Local Open Scope R_scope.

(** An entry of [GREENLAND_AIRPORTS] or [MINING_HELIPORTS]: the keys the
    two tables share. *)
Module Loc.
Record t : Type := mk { name : string; lat : R; lon : R; notes : string }.
End Loc.

Definition GREENLAND_AIRPORTS : Dict.t Loc.t := [
  ("BGGH", Loc.mk "Nuuk" 64.1909 (-51.6781) "New hub since Nov 2024");
  ("BGSF", Loc.mk "Kangerlussuaq" 67.0122 (-50.7116)
             "Former hub, drill core storage nearby");
  ("BGBW", Loc.mk "Narsarsuaq" 61.1605 (-45.4260)
             "South Greenland gateway - near Kvanefjeld/Tanbreez");
  ("BGTL", Loc.mk "Thule/Pituffik" 76.5312 (-68.7032) "US Space Force base");
  ("BGJN", Loc.mk "Ilulissat" 69.2432 (-51.0571) "Expanding to 2200m in 2026");
  ("BGKK", Loc.mk "Kulusuk" 65.5736 (-37.1236) "East coast access");
  ("BGAA", Loc.mk "Aasiaat" 68.7218 (-52.7847) "Disko Bay");
  ("BGCO", Loc.mk "Nerlerit Inaat" 70.7431 (-22.6506) "Northeast Greenland");
  ("BGMQ", Loc.mk "Maniitsoq" 65.4125 (-52.9394) "");
  ("BGPT", Loc.mk "Paamiut" 61.9922 (-49.6625) "");
  ("BGQQ", Loc.mk "Qaanaaq" 77.4886 (-69.3887) "Northernmost");
  ("BGUQ", Loc.mk "Qaarsut" 70.7342 (-52.6962) "Uummannaq area");
  ("BGSS", Loc.mk "Sisimiut" 66.9513 (-53.7293) "Second largest town");
  ("BGUK", Loc.mk "Upernavik" 72.7902 (-56.1306) "")
].

Definition MINING_HELIPORTS : Dict.t Loc.t := [
  ("BGJH", Loc.mk "Qaqortoq Heliport" 60.7158 (-46.0478)
             "Near Tanbreez, new airport coming 2026");
  ("BGNS", Loc.mk "Narsaq Heliport" 60.9167 (-46.0500)
             "Near Kvanefjeld REE deposit");
  ("BGNN", Loc.mk "Nanortalik Heliport" 60.1419 (-45.2328)
             "Near Nalunaq gold mine");
  ("BGNL", Loc.mk "Nalunaq Heliport" 60.2333 (-44.8000)
             "Amaroq gold mine site")
].

Module Project.
Record t : Type := mk {
  name : string; lat : R; lon : R;
  company : string; commodity : string; status : string
}.
End Project.

Definition MINING_PROJECTS : Dict.t Project.t := [
  ("tanbreez", Project.mk "Tanbreez/Kringlerne" 60.95 (-45.95)
     "Critical Metals Corp" "REE, Zr, Nb" "Feasibility study");
  ("kvanefjeld", Project.mk "Kvanefjeld" 60.98 (-45.90)
     "Energy Transition Minerals" "REE, U" "Blocked - uranium ban");
  ("nalunaq", Project.mk "Nalunaq Gold Mine" 60.23 (-44.80)
     "Amaroq Minerals" "Au" "Producing since late 2024");
  ("amitsoq", Project.mk "Amitsoq Graphite" 60.75 (-45.40)
     "GreenRoc Mining" "Graphite" "30-year license granted Dec 2025");
  ("white_mountain", Project.mk "White Mountain" 66.95 (-50.90)
     "Lumina Sustainable Materials" "Anorthosite" "Small-scale production");
  ("west_greenland_hub", Project.mk "West Greenland Hub" 64.20 (-51.50)
     "Amaroq Minerals" "Ge, Ga, Cu" "Exploration")
].

Definition SCHEDULED_OPERATORS : list (string * list string) := [
  ("AirGreenland", ["GRL"; "GL"]);
  ("Icelandair", ["ICE"; "FI"]);
  ("Atlantic_Airways", ["FLI"; "RC"])
].

(** The nested [for operator, codes ... for code in codes] loop with its
    early [return]: the first operator one of whose codes starts the
    callsign. *)
Fixpoint first_operator (cs : string) (ops : list (string * list string))
  : option string :=
  match ops with
  | [] => None
  | (operator, codes) :: ops' =>
      if Py.startswith_any cs codes then Some operator
      else first_operator cs ops'
  end.

Definition classify_aircraft (callsign icao24 : option string)
  : string * string :=
  let callsign := Py.upper (Py.strip (Py.or_empty callsign)) in
  let icao24 := Py.lower (Py.or_empty icao24) in
  match first_operator callsign SCHEDULED_OPERATORS with
  | Some operator => ("scheduled", operator)
  | None =>
    if Py.startswith_any callsign ["RCH"; "RRR"; "CNV"; "DUKE"; "REACH"] then
      ("military", "US Military")
    else if Py.startswith_any callsign ["DAF"; "DNK"] then
      ("military", "Danish Air Force")
    else if Py.startswith_any callsign ["CFC"; "CFF"; "CANFORCE"] then
      ("military", "Canadian Armed Forces")
    else if Py.startswith icao24 "a" then
      ("private_us", "US-registered (N-number)")
    else if Py.startswith icao24 "c0" || Py.startswith icao24 "c1"
            || Py.startswith icao24 "c2" || Py.startswith icao24 "c3" then
      ("private_ca", "Canadian-registered (C-number)")
    else if Py.startswith icao24 "4" then
      ("private_eu", "European-registered")
    else ("unknown", "")
  end%string.

(** The state of the scan of [find_nearest_airport]: [min_dist_km] and
    [nearest]. *)
Definition scan_state : Type := (Geo.ext * option (string * string * R))%type.

Definition scan_step (lat lon : R) (st : scan_state) (entry : string * Loc.t)
  : scan_state :=
  let '(min_dist_km, nearest) := st in
  let '(icao, info) := entry in
  let dist_km := Geo.haversine_km lat lon (Loc.lat info) (Loc.lon info) in
  if Geo.lt_ext dist_km min_dist_km
  then (Geo.Fin dist_km, Some (icao, Loc.name info, dist_km))
  else (min_dist_km, nearest).

Definition all_locations : Dict.t Loc.t :=
  Dict.merge GREENLAND_AIRPORTS MINING_HELIPORTS.

Definition find_nearest_airport (lat lon : R) : option (string * string * R) :=
  snd (fold_left (scan_step lat lon) all_locations (Geo.Inf, None)).

(** The loop of [find_nearest_mine] over a table of projects: it returns
    at the first project within the threshold. *)
Fixpoint find_mine_in (projects : Dict.t Project.t) (lat lon threshold_km : R)
  : option (string * string * string * R) :=
  match projects with
  | [] => None
  | (project_id, info) :: rest =>
      let dist_km :=
        Geo.haversine_km lat lon (Project.lat info) (Project.lon info) in
      if Geo.leb dist_km threshold_km
      then Some (project_id, Project.name info, Project.company info, dist_km)
      else find_mine_in rest lat lon threshold_km
  end.

Definition find_nearest_mine (lat lon : R) (threshold_km : R)
  : option (string * string * string * R) :=
  find_mine_in MINING_PROJECTS lat lon threshold_km.

(** The default of the [threshold_km] argument. *)
Definition default_threshold_km : R := 50.

Module Rec.
Record t : Type := mk {
  timestamp : Z;
  icao24 : string;
  callsign : string;
  lat : R;
  lon : R;
  altitude_m : option R;
  velocity_ms : option R;
  on_ground : option bool;
  classification : string;
  operator : string;
  nearest_airport : option string;
  nearest_airport_icao : option string;
  nearest_airport_km : option R;
  near_mine : option string;
  near_mine_company : option string;
  near_mine_km : option R
}.
End Rec.

(** The body of the loop of [process_traffic] for one state vector;
    [None] where the loop [continue]s. *)
Definition process_state (timestamp : Z) (state : State.t) : option Rec.t :=
  let callsign := Py.strip (Py.or_empty (State.callsign state)) in
  match State.lat state, State.lon state with
  | Some lat, Some lon =>
      let '(classification, operator) :=
        classify_aircraft (Some callsign) (Some (State.icao24 state)) in
      let nearest_apt := find_nearest_airport lat lon in
      let nearest_mine := find_nearest_mine lat lon default_threshold_km in
      Some {|
        Rec.timestamp := timestamp;
        Rec.icao24 := State.icao24 state;
        Rec.callsign := callsign;
        Rec.lat := lat;
        Rec.lon := lon;
        Rec.altitude_m := State.altitude state;
        Rec.velocity_ms := State.velocity state;
        Rec.on_ground := State.on_ground state;
        Rec.classification := classification;
        Rec.operator := operator;
        Rec.nearest_airport := option_map (fun n => snd (fst n)) nearest_apt;
        Rec.nearest_airport_icao :=
          option_map (fun n => fst (fst n)) nearest_apt;
        Rec.nearest_airport_km :=
          option_map (fun n => Geo.round1 (snd n)) nearest_apt;
        Rec.near_mine := option_map (fun m => snd (fst (fst m))) nearest_mine;
        Rec.near_mine_company := option_map (fun m => snd (fst m)) nearest_mine;
        Rec.near_mine_km := option_map (fun m => Geo.round1 (snd m)) nearest_mine
      |}
  | _, _ => None
  end.

End Monitor.

(** ** Exceptions, and f-strings that interpolate floats

    The text of an alert is kept as the pieces of its f-string: the rendering
    of a float as decimal text is not modelled. *)

Inductive exn : Type :=
| KeyError (key : string)
| TypeError.

Definition result (A : Type) : Type := (exn + A)%type.

Inductive piece : Type :=
| Text (s : string)
| Float (x : R)                 (* {x} *)
| OptFloat (x : option R)       (* {x} where x may be None *)
| Float1f (x : R).              (* {x:.1f} *)

Definition fstring : Type := list piece.

(** ** [greenland_chokepoints.py] *)

Module Chokepoints.

Module Airport.
Record t : Type := mk {
  name : string;
  iata : string;
  lat : R;
  lon : R;
  runway_m : Z;
  signal : string;
  signal_emoji : string;
  notes : string;
  nearby_projects : list string;
  monitoring_radius_km : R
}.
End Airport.

Definition CHOKE_POINTS : Dict.t Airport.t := [
  ("BGBW", Airport.mk "Narsarsuaq" "UAK" 61.1605%R (-45.4260)%R 1830 "RED" "🚨"
     "THE Mining Hub - Tanbreez, Kvanefjeld, Nalunaq, Amitsoq all nearby"
     ["Tanbreez"; "Kvanefjeld"; "Nalunaq"; "Amitsoq"] 50%R);
  ("BGGH", Airport.mk "Nuuk" "GOH" 64.1909%R (-51.6781)%R 2200 "YELLOW" "🟡"
     "Political Hub - diplomats, government, mining HQ meetings"
     ["West Greenland Hub"] 40%R);
  ("BGSF", Airport.mk "Kangerlussuaq" "SFJ" 67.0122%R (-50.7116)%R 2810 "LOW" "⚪"
     "Old Hub - military, science, diversions. Less mining signal."
     ["White Mountain"] 40%R)
].

Definition SCHEDULED_CALLSIGN_PREFIXES : list string :=
  ["GRL"; "ICE"; "FLI"; "SAS"; "DAT"].

Definition DATA_DIR : string := "data".
Definition ARRIVALS_FILE : string := "data/choke_point_arrivals.csv".
Definition ALERTS_FILE : string := "data/priority_alerts.json".
Definition DWELL_FILE : string := "data/aircraft_dwell.json".
Definition MAP_FILE : string := "docs/greenland_chokepoints.html".

(** *** Classifier *)

Definition Classification : Type := (Z * string * string)%type.

(** The [for prefix in SCHEDULED_CALLSIGN_PREFIXES] loop with its early
    [return]: the first prefix of the list that starts the callsign. *)
Fixpoint first_prefix (cs : string) (ps : list string) : option string :=
  match ps with
  | [] => None
  | p :: ps' => if Py.startswith cs p then Some p else first_prefix cs ps'
  end.

Definition classify_aircraft (callsign icao24 : option string)
  : Classification :=
  let callsign := Py.upper (Py.strip (Py.or_empty callsign)) in
  let icao24 := Py.lower (Py.or_empty icao24) in
  match first_prefix callsign SCHEDULED_CALLSIGN_PREFIXES with
  | Some prefix => (5, "scheduled", "Scheduled: " ++ prefix)
  | None =>
    if Py.startswith_any callsign ["RCH"; "RRR"; "REACH"; "CNV"; "DUKE"] then
      (4, "military_us", "US Military")
    else if Py.startswith_any callsign ["DAF"; "DNK"; "DANSUP"] then
      (4, "military_dk", "Danish Military")
    else if Py.startswith_any callsign ["CFC"; "CFF"; "CANFORCE"] then
      (4, "military_ca", "Canadian Military")
    else if Py.startswith icao24 "a" then
      (1, "private_us", "US N-number - PRIORITY TARGET")
    else if Py.startswith_any icao24 ["c0"; "c1"; "c2"; "c3"] then
      (1, "private_ca", "Canadian C-number - PRIORITY TARGET")
    else if Py.startswith icao24 "4" then
      (2, "private_eu", "European registration")
    else if Py.startswith icao24 "tf" then
      (2, "private_is", "Icelandic registration")
    else
      (3, "unknown", "Unknown registration")
  end.

(** *** The record of one observation *)

Module Rec.
Record t : Type := mk {
  timestamp : Z;
  airport_icao : string;
  airport_name : string;
  airport_signal : string;
  icao24 : string;
  callsign : string;
  lat : R;
  lon : R;
  altitude_m : option R;
  velocity_ms : option R;
  on_ground : option bool;
  distance_km : R;
  likely_arrival : bool;
  priority : Z;
  classification : string;
  classification_notes : string
}.
End Rec.

(** Truthiness of the tri-state flag: [None] and [False] are falsy. *)
Definition truthy_flag (b : option bool) : bool :=
  match b with Some true => true | _ => false end.

(** Lines 256-258 of [process_aircraft]:
    [(on_ground or (is_low and is_slow)) and distance_km < 20]. *)
Definition likely_arrival (on_ground : option bool) (altitude velocity : option R)
           (distance_km : R) : bool :=
  let is_low :=
    match altitude with Some a => Geo.ltb a 3000 | None => false end in
  let is_slow :=
    match velocity with Some v => Geo.ltb v 100 | None => false end in
  (truthy_flag on_ground || (is_low && is_slow)) && Geo.ltb distance_km 20.

(** [process_aircraft], given the reading of the clock that becomes the
    record's timestamp. The subscript [CHOKE_POINTS[airport_icao]] raises
    for an unknown airport, the distance computation for a missing
    coordinate. *)
Definition process_aircraft (now : Z) (state : State.t) (airport_icao : string)
  : result Rec.t :=
  let icao24 := State.icao24 state in
  let callsign := Py.strip (Py.or_empty (State.callsign state)) in
  let altitude := State.altitude state in
  let on_ground := State.on_ground state in
  let velocity := State.velocity state in
  match Dict.get CHOKE_POINTS airport_icao with
  | None => inl (KeyError airport_icao)
  | Some airport =>
    match State.lat state, State.lon state with
    | Some lat, Some lon =>
      let distance_km :=
        Geo.haversine_km (Airport.lat airport) (Airport.lon airport) lat lon in
      let '(priority, classification, notes) :=
        classify_aircraft (Some callsign) (Some icao24) in
      inr {|
        Rec.timestamp := now / 1000000;
        Rec.airport_icao := airport_icao;
        Rec.airport_name := Airport.name airport;
        Rec.airport_signal := Airport.signal airport;
        Rec.icao24 := icao24;
        Rec.callsign := callsign;
        Rec.lat := lat;
        Rec.lon := lon;
        Rec.altitude_m := altitude;
        Rec.velocity_ms := velocity;
        Rec.on_ground := on_ground;
        Rec.distance_km := Geo.round1 distance_km;
        Rec.likely_arrival :=
          likely_arrival on_ground altitude velocity distance_km;
        Rec.priority := priority;
        Rec.classification := classification;
        Rec.classification_notes := notes
      |}
    | _, _ => inl TypeError
    end
  end.

(** *** Dwell tracking *)

Module Dwell.
Record t : Type := mk {
  icao24 : string;
  callsign : string;
  airport : string;
  airport_icao : string;
  first_seen : Z;
  last_seen : Z;
  classification : string;
  dwell_hours : option R      (* absent until the first pass computes it *)
}.

Definition set_last_seen (ts : Z) (d : t) : t :=
  mk (icao24 d) (callsign d) (airport d) (airport_icao d)
     (first_seen d) ts (classification d) (dwell_hours d).

Definition set_callsign (cs : string) (d : t) : t :=
  mk (icao24 d) cs (airport d) (airport_icao d)
     (first_seen d) (last_seen d) (classification d) (dwell_hours d).

Definition set_dwell_hours (h : R) (d : t) : t :=
  mk (icao24 d) (callsign d) (airport d) (airport_icao d)
     (first_seen d) (last_seen d) (classification d) (Some h).
End Dwell.

(** An alert is a [dict] from field names to values of several kinds. *)
Inductive value : Type :=
| VStr (s : string)
| VText (f : fstring)
| VTime (t : Z)
| VRec (r : Rec.t)
| VDwell (d : Dwell.t).

Definition Alert : Type := Dict.t value.

(** [f"{record['icao24']}_{record['airport_icao']}"] *)
Definition dwell_key (record : Rec.t) : string :=
  Rec.icao24 record ++ "_" ++ Rec.airport_icao record.

(** The body of the first loop of [update_dwell_tracking]. *)
Definition observe (dwell_data : Dict.t Dwell.t) (record : Rec.t)
  : Dict.t Dwell.t :=
  if negb (truthy_flag (Rec.on_ground record)) then dwell_data
  else if Rec.priority record >? 2 then dwell_data
  else
    let key := dwell_key record in
    match Dict.get dwell_data key with
    | None =>
        Dict.set dwell_data key {|
          Dwell.icao24 := Rec.icao24 record;
          Dwell.callsign := Rec.callsign record;
          Dwell.airport := Rec.airport_name record;
          Dwell.airport_icao := Rec.airport_icao record;
          Dwell.first_seen := Rec.timestamp record;
          Dwell.last_seen := Rec.timestamp record;
          Dwell.classification := Rec.classification record;
          Dwell.dwell_hours := None
        |}
    | Some data =>
        let data := Dwell.set_last_seen (Rec.timestamp record) data in
        let data :=
          if Py.truthy (Rec.callsign record)
          then Dwell.set_callsign (Rec.callsign record) data
          else data in
        Dict.set dwell_data key data
    end.

(** [(last - first).total_seconds() / 3600] *)
Definition dwell_hours_of (data : Dwell.t) : R :=
  (IZR (Dwell.last_seen data - Dwell.first_seen data) / 3600)%R.

Definition extended_dwell_alert (dwell_hours : R) (data : Dwell.t) : Alert := [
  ("type", VStr "EXTENDED_DWELL");
  ("priority", VStr "HIGH");
  ("message", VText [
     Text "🚨 "; Text (Py.str_or (Dwell.callsign data) (Dwell.icao24 data));
     Text " on ground at Narsarsuaq for "; Float1f dwell_hours;
     Text " hours"]);
  ("data", VDwell data)
].

(** The second loop of [update_dwell_tracking]: every record gets its
    [dwell_hours]; the long stays at BGBW are flagged, in the order of the
    dictionary. *)
Fixpoint flag_long_stays (dwell_data : Dict.t Dwell.t)
  : Dict.t Dwell.t * list Alert :=
  match dwell_data with
  | [] => ([], [])
  | (key, data) :: rest =>
      let dwell_hours := dwell_hours_of data in
      let data := Dwell.set_dwell_hours (Geo.round1 dwell_hours) data in
      let '(rest', alerts) := flag_long_stays rest in
      if Geo.leb 4 dwell_hours && (Dwell.airport_icao data =? "BGBW")%string
      then ((key, data) :: rest', extended_dwell_alert dwell_hours data :: alerts)
      else ((key, data) :: rest', alerts)
  end.

(** [48 hours], in microseconds. *)
Definition RETENTION_US : Z := 48 * 3600 * 1000000.

(** [strptime(v['last_seen']) > cutoff] *)
Definition fresh (current_time : Z) (v : Dwell.t) : bool :=
  let cutoff := current_time - RETENTION_US in
  Dwell.last_seen v * 1000000 >? cutoff.

(** [update_dwell_tracking] on the content of the dwell file ([None] when
    the file does not exist) and the reading [current_time] of the clock:
    the content written back, and the alerts returned. *)
Definition update_dwell_tracking (current_time : Z) (records : list Rec.t)
           (file : option (Dict.t Dwell.t)) : Dict.t Dwell.t * list Alert :=
  let dwell_data := match file with Some d => d | None => [] end in
  let dwell_data := fold_left observe records dwell_data in
  let '(dwell_data, alerts) := flag_long_stays dwell_data in
  let dwell_data := Dict.filter_values (fresh current_time) dwell_data in
  (dwell_data, alerts).

(** *** Priority alerts *)

Definition generate_priority_alert (record : Rec.t) : result (option Alert) :=
  match Dict.get CHOKE_POINTS (Rec.airport_icao record) with
  | None => inl (KeyError (Rec.airport_icao record))
  | Some airport =>
    let who := Py.str_or (Rec.callsign record) (Rec.icao24 record) in
    if (Rec.priority record =? 1) && (Airport.signal airport =? "RED")%string
    then inr (Some [
      ("timestamp", VTime (Rec.timestamp record));
      ("level", VStr "CRITICAL");
      ("emoji", VStr "🚨🚨🚨");
      ("message", VStr ("US/CA BIZJET AT NARSARSUAQ: " ++ who));
      ("details", VText [
         Text (Rec.classification_notes record); Text " | ";
         Float (Rec.distance_km record); Text "km from airport | Alt: ";
         OptFloat (Rec.altitude_m record); Text "m"]);
      ("action", VStr "Cross-reference with greenmin.gl claim activity. Check hex at hexdb.io.");
      ("record", VRec record)])
    else if Rec.priority record =? 1
    then inr (Some [
      ("timestamp", VTime (Rec.timestamp record));
      ("level", VStr "HIGH");
      ("emoji", VStr "🟡");
      ("message", VStr ("US/CA aircraft at " ++ Airport.name airport ++ ": " ++ who));
      ("details", VStr (Rec.classification_notes record));
      ("record", VRec record)])
    else if (Rec.priority record =? 2) && (Airport.signal airport =? "RED")%string
    then inr (Some [
      ("timestamp", VTime (Rec.timestamp record));
      ("level", VStr "MEDIUM");
      ("emoji", VStr "📍");
      ("message", VStr ("European aircraft at Narsarsuaq: " ++ who));
      ("details", VStr (Rec.classification_notes record));
      ("record", VRec record)])
    else inr None
  end.

(** *** The invocation: files, clock and [main]

    The state an invocation runs in: the three data files ([None] while a
    file does not exist), the readings that successive calls of
    [datetime.utcnow()] will return (in microseconds), and the trace of the
    file operations performed so far. The rendered map is not modelled
    beyond the operations that produce it. *)

Local Open Scope list_scope.

Inductive io : Type :=
| Exists (path : string)
| Read (path : string)
| Write (path : string)
| Append (path : string).

Definition io_path (e : io) : string :=
  match e with Exists p | Read p | Write p | Append p => p end.

Module World.
Record t : Type := mk {
  arrivals : option (list Rec.t);
  alerts : option (list Alert);
  dwell : option (Dict.t Dwell.t);
  clock : nat -> Z;
  trace : list io
}.
End World.

(** Computations that read and write the world and may raise. *)
Definition M (A : Type) : Type := World.t -> World.t * result A.

Definition ret {A} (a : A) : M A := fun w => (w, inr a).

Definition raise {A} (e : exn) : M A := fun w => (w, inl e).

Definition bind {A B} (m : M A) (f : A -> M B) : M B :=
  fun w =>
    match m w with
    | (w', inr a) => f a w'
    | (w', inl e) => (w', inl e)
    end.

Notation "x <- m ;; k" := (bind m (fun x => k))
  (at level 61, m at next level, right associativity).
Notation "m ;;; k" := (bind m (fun _ => k))
  (at level 61, right associativity).

Definition lift {A} (r : result A) : M A := fun w => (w, r).

Definition emit (e : io) : M unit :=
  fun w => (World.mk (World.arrivals w) (World.alerts w) (World.dwell w)
                     (World.clock w) (World.trace w ++ [e]), inr tt).

(** [datetime.utcnow()] *)
Definition utcnow : M Z :=
  fun w => (World.mk (World.arrivals w) (World.alerts w) (World.dwell w)
                     (fun n => World.clock w (S n)) (World.trace w),
            inr (World.clock w 0%nat)).

Definition is_some {A} (o : option A) : bool :=
  match o with Some _ => true | None => false end.

Definition exists_arrivals : M bool :=
  emit (Exists ARRIVALS_FILE) ;;; fun w => (w, inr (is_some (World.arrivals w))).
Definition exists_alerts : M bool :=
  emit (Exists ALERTS_FILE) ;;; fun w => (w, inr (is_some (World.alerts w))).
Definition exists_dwell : M bool :=
  emit (Exists DWELL_FILE) ;;; fun w => (w, inr (is_some (World.dwell w))).

Definition or_nil {A} (o : option (list A)) : list A :=
  match o with Some l => l | None => [] end.

Definition read_alerts : M (list Alert) :=
  emit (Read ALERTS_FILE) ;;; fun w => (w, inr (or_nil (World.alerts w))).
Definition read_dwell : M (Dict.t Dwell.t) :=
  emit (Read DWELL_FILE) ;;; fun w => (w, inr (or_nil (World.dwell w))).

Definition write_alerts (l : list Alert) : M unit :=
  emit (Write ALERTS_FILE) ;;;
  fun w => (World.mk (World.arrivals w) (Some l) (World.dwell w)
                     (World.clock w) (World.trace w), inr tt).
Definition write_dwell (d : Dict.t Dwell.t) : M unit :=
  emit (Write DWELL_FILE) ;;;
  fun w => (World.mk (World.arrivals w) (World.alerts w) (Some d)
                     (World.clock w) (World.trace w), inr tt).
Definition append_arrivals (rs : list Rec.t) : M unit :=
  emit (Append ARRIVALS_FILE) ;;;
  fun w => (World.mk (Some (or_nil (World.arrivals w) ++ rs)) (World.alerts w)
                     (World.dwell w) (World.clock w) (World.trace w), inr tt).

(** The part of [fetch_airport_traffic] that follows the request, whose
    outcome is [response]: [None] for a failed request or a payload that
    cannot be iterated, the raw state vectors otherwise. *)
Definition fetch_airport_traffic (response : option (list State.t))
           (airport_icao : string) (radius_km : R) : option (list State.t) :=
  match Dict.get CHOKE_POINTS airport_icao with
  | None => Some []
  | Some airport =>
      match response with
      | None => None
      | Some states =>
          Some (filter (fun state =>
            match State.lon state, State.lat state with
            | Some lon, Some lat =>
                Geo.leb (Geo.haversine_km (Airport.lat airport)
                           (Airport.lon airport) lat lon) radius_km
            | _, _ => false
            end) states)
      end
  end.

(** [save_records] *)
Definition save_records (records : list Rec.t) : M unit :=
  match records with
  | [] => ret tt
  | _ => _ <- exists_arrivals ;; append_arrivals records
  end.

(** [update_dwell_tracking] with its file accesses. *)
Definition update_dwell_tracking_io (records : list Rec.t) : M (list Alert) :=
  present <- exists_dwell ;;
  file <- (if present then d <- read_dwell ;; ret (Some d) else ret None) ;;
  current_time <- utcnow ;;
  let '(dwell_data, alerts) := update_dwell_tracking current_time records file in
  write_dwell dwell_data ;;;
  ret alerts.

(** The inner loop of [main] over the state vectors of one airport. The
    clock is read for the timestamp of the record [process_aircraft] builds;
    the vectors that reach this loop passed the filter above, so none of the
    two calls raises here (see [runs_process_states]). *)
Fixpoint process_states (icao : string) (states : list State.t)
         (acc : list Rec.t * list Alert) : M (list Rec.t * list Alert) :=
  match states with
  | [] => ret acc
  | state :: rest =>
      now <- utcnow ;;
      record <- lift (process_aircraft now state icao) ;;
      alert <- lift (generate_priority_alert record) ;;
      let '(all_records, all_alerts) := acc in
      let all_alerts :=
        match alert with
        | Some a => all_alerts ++ [a]
        | None => all_alerts
        end in
      process_states icao rest (all_records ++ [record], all_alerts)
  end.

(** The outer loop of [main] over the airports polled. *)
Fixpoint poll (responses : string -> option (list State.t))
         (icaos : list string) (acc : list Rec.t * list Alert)
  : M (list Rec.t * list Alert) :=
  match icaos with
  | [] => ret acc
  | icao :: rest =>
      match Dict.get CHOKE_POINTS icao with
      | None => raise (KeyError icao)
      | Some airport =>
          match fetch_airport_traffic (responses icao) icao
                  (Airport.monitoring_radius_km airport) with
          | None => poll responses rest acc
          | Some [] => poll responses rest acc
          | Some states =>
              acc' <- process_states icao states acc ;;
              poll responses rest acc'
          end
      end
  end.

(** [main] up to [all_alerts.extend(dwell_alerts)]: the alerts the
    invocation generates. *)
Definition collect_alerts (responses : string -> option (list State.t))
  : M (list Alert) :=
  _ <- utcnow ;;
  acc <- poll responses ["BGBW"; "BGGH"; "BGSF"] ([], []) ;;
  let '(all_records, all_alerts) := acc in
  save_records all_records ;;;
  dwell_alerts <- update_dwell_tracking_io all_records ;;
  ret (all_alerts ++ dwell_alerts).

(** [{k: v for k, v in alert.items() if k != 'record'}] *)
Definition alert_clean (alert : Alert) : Alert :=
  filter (fun kv => negb (fst kv =? "record")%string) alert.

(** [l[-n:]] for a positive [n]. *)
Definition last_n {A} (n : nat) (l : list A) : list A :=
  skipn (List.length l - n) l.

(** The subscripts of the summary line printed for each alert. *)
Fixpoint print_alerts (alerts : list Alert) : result unit :=
  match alerts with
  | [] => inr tt
  | alert :: rest =>
      match Dict.get alert "emoji", Dict.get alert "level",
            Dict.get alert "message" with
      | None, _, _ => inl (KeyError "emoji")
      | Some _, None, _ => inl (KeyError "level")
      | Some _, Some _, None => inl (KeyError "message")
      | Some _, Some _, Some _ => print_alerts rest
      end
  end.

(** The [if all_alerts:] block of [main]. *)
Definition save_alerts (all_alerts : list Alert) : M unit :=
  match all_alerts with
  | [] => ret tt
  | _ =>
      present <- exists_alerts ;;
      existing_alerts <- (if present then read_alerts else ret []) ;;
      let existing_alerts := existing_alerts ++ map alert_clean all_alerts in
      let existing_alerts := last_n 100 existing_alerts in
      write_alerts existing_alerts ;;;
      lift (print_alerts all_alerts)
  end.

(** The file accesses and clock readings of [generate_map]. *)
Definition generate_map : M unit :=
  has_arrivals <- exists_arrivals ;;
  (if has_arrivals
   then emit (Read ARRIVALS_FILE) ;;; _ <- utcnow ;; ret tt
   else ret tt) ;;;
  has_dwell <- exists_dwell ;;
  (if has_dwell then _ <- read_dwell ;; ret tt else ret tt) ;;;
  _ <- utcnow ;;
  emit (Write MAP_FILE).

Definition main (responses : string -> option (list State.t)) : M unit :=
  all_alerts <- collect_alerts responses ;;
  save_alerts all_alerts ;;;
  generate_map.

(** One run of the script: the world it leaves behind, whether or not it
    ended with an exception. *)
Definition invoke (responses : string -> option (list State.t))
           (w : World.t) : World.t :=
  fst (main responses w).

(** Successive runs. *)
Definition invocations (inputs : list (string -> option (list State.t)))
           (w : World.t) : World.t :=
  fold_left (fun w responses => invoke responses w) inputs w.

(** The persisted alert list; an absent file holds no alert. *)
Definition alert_store (w : World.t) : list Alert := or_nil (World.alerts w).
End Chokepoints.

(** * Vocabulary of the properties *)

Module Spec.
Import Chokepoints.

(** [s] starts with one of the prefixes [ps]. *)
Definition starts_with_one_of (s : string) (ps : list string) : Prop :=
  exists p rest, In p ps /\ s = (p ++ rest)%string.

Definition MILITARY_PREFIXES : list string :=
  ["RCH"; "RRR"; "REACH"; "CNV"; "DUKE"; "DAF"; "DNK"; "DANSUP";
   "CFC"; "CFF"; "CANFORCE"].

(** The registration blocks of priority 1: the US block and the Canadian
    sub-blocks. *)
Definition PRIMARY_HEX_PREFIXES : list string := ["a"; "c0"; "c1"; "c2"; "c3"].

(** The registration prefixes of priority 2. *)
Definition SECONDARY_HEX_PREFIXES : list string := ["4"; "tf"].

Definition priority_of (c : Classification) : Z := fst (fst c).
Definition label_of (c : Classification) : string := snd (fst c).

(** The callsign and the hex code as the classifier normalises them. *)
Definition norm_callsign (callsign : option string) : string :=
  Py.upper (Py.strip (Py.or_empty callsign)).
Definition norm_hex (icao24 : option string) : string :=
  Py.lower (Py.or_empty icao24).

(** Distance from a query position to an entry of the monitor's registry. *)
Definition loc_dist (lat lon : R) (info : Monitor.Loc.t) : R :=
  Geo.haversine_km lat lon (Monitor.Loc.lat info) (Monitor.Loc.lon info).

(** Distance from a query position to a mining project. *)
Definition project_dist (lat lon : R) (info : Monitor.Project.t) : R :=
  Geo.haversine_km lat lon (Monitor.Project.lat info) (Monitor.Project.lon info).

(** An observation the dwell tracker takes into account: on the ground, of
    priority 1 or 2. *)
Definition qualifying (r : Rec.t) : Prop :=
  Rec.on_ground r = Some true /\ Rec.priority r <= 2.

(** The key a dwell record is filed under. *)
Definition key_of (v : Dwell.t) : string :=
  (Dwell.icao24 v ++ "_" ++ Dwell.airport_icao v)%string.

(** A dwell dictionary as Python holds it and as the tracker builds it: no
    key twice, every record under the key of its own fields. *)
Definition well_keyed (d : Dict.t Dwell.t) : Prop :=
  NoDup (Dict.keys d) /\ forall k v, In (k, v) d -> k = key_of v.

(** Dwell duration in seconds. *)
Definition dwell_seconds (v : Dwell.t) : Z :=
  Dwell.last_seen v - Dwell.first_seen v.

(** The record as the second loop leaves it, with its [dwell_hours]. *)
Definition with_hours (v : Dwell.t) : Dwell.t :=
  Dwell.set_dwell_hours (Geo.round1 (dwell_hours_of v)) v.

(** The dictionary after the observations of an invocation have been
    processed: what the alerts of that invocation are computed from. *)
Definition tracked (records : list Rec.t) (file : option (Dict.t Dwell.t))
  : Dict.t Dwell.t :=
  fold_left observe records (or_nil file).

(** The extended-dwell alert [a] is about the record filed under [key]. *)
Definition alert_about (key : string) (a : Alert) : bool :=
  match Dict.get a "data" with
  | Some (VDwell d) => (key_of d =? key)%string
  | _ => false
  end.

(** A stay the second loop flags: four hours or more, at BGBW. *)
Definition long_stay (v : Dwell.t) : bool :=
  (4 * 3600 <=? dwell_seconds v) && (Dwell.airport_icao v =? "BGBW")%string.

(** The record the first loop files for a key it has not seen. *)
Definition created (r : Rec.t) : Dwell.t :=
  Dwell.mk (Rec.icao24 r) (Rec.callsign r) (Rec.airport_name r)
           (Rec.airport_icao r) (Rec.timestamp r) (Rec.timestamp r)
           (Rec.classification r) None.

(** Every record has first-seen no later than last-seen. *)
Definition ordered (d : Dict.t Dwell.t) : Prop :=
  forall k v, In (k, v) d -> Dwell.first_seen v <= Dwell.last_seen v.

(** Every record is ordered and was last seen no later than each of the
    timestamps still to come. *)
Definition ordered_before (future : list Z) (d : Dict.t Dwell.t) : Prop :=
  forall k v, In (k, v) d ->
    Dwell.first_seen v <= Dwell.last_seen v /\
    Forall (fun t => Dwell.last_seen v <= t) future.

(** A file operation that does not concern the alert file. *)
Definition quiet (e : io) : Prop := io_path e <> ALERTS_FILE.

(** From [w] to [w']: the alert file has the same content, and the file
    operations performed in between do not concern it. *)
Definition frame (w w' : World.t) : Prop :=
  World.alerts w' = World.alerts w /\
  exists evs, World.trace w' = (World.trace w ++ evs)%list /\ Forall quiet evs.

(** The computation [m] returns normally from every world, with a value
    satisfying [P], and leaves the alert file alone. *)
Definition runs {A : Type} (m : M A) (P : A -> Prop) : Prop :=
  forall w, exists a w', m w = (w', inr a) /\ frame w w' /\ P a.

(** The state vector has a position. *)
Definition has_position (state : State.t) : Prop :=
  State.lat state <> None /\ State.lon state <> None.

(** Successive invocations of the tracker, each with the reading of the
    clock and the batch of observations it is given. *)
Definition run_dwell (invs : list (Z * list Rec.t))
           (file : option (Dict.t Dwell.t)) : option (Dict.t Dwell.t) :=
  fold_left
    (fun f inv => Some (fst (update_dwell_tracking (fst inv) (snd inv) f)))
    invs file.

(** The observation timestamps of successive invocations, in order. *)
Definition timestamps (invs : list (Z * list Rec.t)) : list Z :=
  List.concat (map (fun inv => map Rec.timestamp (snd inv)) invs).
End Spec.

(** ** [analyze.py]: the functions that do not depend on grouping

    A data frame is the list of its rows; the rows are the records
    [process_traffic] writes, read back from the CSV file. *)

Module Analyze.

(** [x in [...]], and [Series.isin] on one value. *)
Definition isin (x : string) (l : list string) : bool :=
  existsb (String.eqb x) l.

(** [isin] on a column that may hold a missing value. *)
Definition isin_opt (x : option string) (l : list string) : bool :=
  match x with Some s => isin s l | None => false end.

Definition unusual_airports : list string :=
  ["BGCO"; "BGQQ"; "BGUQ"; "BGUK"; "BGMQ"; "BGPT"].

Definition find_unusual_airports (df : list Monitor.Rec.t) : list Monitor.Rec.t :=
  let private_traffic :=
    filter (fun row => isin (Monitor.Rec.classification row)
                         ["private_us"; "private_eu"; "unknown"]) df in
  let unusual :=
    filter (fun row => isin_opt (Monitor.Rec.nearest_airport_icao row)
                         unusual_airports) private_traffic in
  unusual.

Definition identify_hex_registration (icao24 : option string) : option string :=
  match icao24 with
  | None => None
  | Some icao24 =>
      if negb (Py.truthy icao24) || negb (Py.startswith icao24 "a")
      then None
      else Some ("US-registered (lookup " ++ icao24 ++ " at hexdb.io)")
  end.
End Analyze.

(** * Vocabulary of the further properties *)

Module More.
Import Chokepoints.

(** The haversine term [a] of [haversine_km]. *)
Definition haversine_a (lat1 lon1 lat2 lon2 : R) : R :=
  ((sin (Geo.radians (lat2 - lat1) / 2)) ^ 2
   + cos (Geo.radians lat1) * cos (Geo.radians lat2)
     * (sin (Geo.radians (lon2 - lon1) / 2)) ^ 2)%R.

(** [s.isascii()]: every character of the string is a 7-bit code. On such
    strings [upper], [lower] and [strip] of the embedding are Python's. *)
Fixpoint isascii (s : string) : bool :=
  match s with
  | EmptyString => true
  | String c s' => (nat_of_ascii c <? 128)%nat && isascii s'
  end.

(** The airports [main] polls. *)
Definition POLLED : list string := ["BGBW"; "BGGH"; "BGSF"].

(** The state vector has a position within [radius_km] of the airport. *)
Definition within (airport : Airport.t) (radius_km : R) (state : State.t) : Prop :=
  exists lat lon,
    State.lat state = Some lat /\ State.lon state = Some lon /\
    (Geo.haversine_km (Airport.lat airport) (Airport.lon airport) lat lon
     <= radius_km)%R.

(** An alert the summary of [main] can print: it has the three fields the
    line subscripts. *)
Definition printable (a : Alert) : Prop :=
  Dict.get a "emoji" <> None /\ Dict.get a "level" <> None /\
  Dict.get a "message" <> None.

(** The computation returns normally from every world; [Q] relates the
    world before, the value and the world after. *)
Definition returns {A : Type} (m : M A)
           (Q : World.t -> A -> World.t -> Prop) : Prop :=
  forall w, exists a w', m w = (w', inr a) /\ Q w a w'.

(** The three data files have the same content in both worlds. *)
Definition same_files (w w' : World.t) : Prop :=
  World.arrivals w' = World.arrivals w /\
  World.alerts w' = World.alerts w /\
  World.dwell w' = World.dwell w.

(** From [w] to [w']: the file operations performed in between concern
    the arrivals file and the dwell file only. *)
Definition data_ops_only (w w' : World.t) : Prop :=
  exists evs,
    World.trace w' = (World.trace w ++ evs)%list /\
    Forall (fun e => io_path e = ARRIVALS_FILE \/ io_path e = DWELL_FILE) evs.

(** An alert as the dwell tracker makes them. *)
Definition is_dwell_alert (a : Alert) : Prop :=
  exists dwell_hours data, a = extended_dwell_alert dwell_hours data.

(** The world after one reading of the clock. *)
Definition tick (w : World.t) : World.t :=
  World.mk (World.arrivals w) (World.alerts w) (World.dwell w)
           (fun n => World.clock w (S n)) (World.trace w).

(** The clock of [w'] is the clock of [w], some readings later. *)
Definition later (w w' : World.t) : Prop :=
  exists n, forall i, World.clock w' i = World.clock w (n + i)%nat.

(** The record carries a reading of the clock of [w], cut to whole seconds. *)
Definition stamped (w : World.t) (r : Rec.t) : Prop :=
  exists n, Rec.timestamp r = World.clock w n / 1000000.

(** The last file operation of a trace. *)
Definition last_op (trace : list io) : option io :=
  match rev trace with e :: _ => Some e | [] => None end.

(** The arrivals file; an absent file holds no row. *)
Definition arrivals_rows (w : World.t) : list Rec.t := or_nil (World.arrivals w).

(** The dwell file; an absent file holds no record. *)
Definition dwell_store (w : World.t) : Dict.t Dwell.t := or_nil (World.dwell w).

(** The operator codes of [SCHEDULED_OPERATORS] in the order the monitor's
    classifier tests them, and the military prefixes it tests next. *)
Definition MONITOR_SCHEDULED_CODES : list string :=
  ["GRL"; "GL"; "ICE"; "FI"; "FLI"; "RC"].
Definition MONITOR_MILITARY_PREFIXES : list string :=
  ["RCH"; "RRR"; "CNV"; "DUKE"; "REACH"; "DAF"; "DNK"; "CFC"; "CFF"; "CANFORCE"].

(** The (priority, label) pairs of the choke-point classifier. *)
Definition CLASSES : list (Z * string) :=
  [(5, "scheduled"); (4, "military_us"); (4, "military_dk"); (4, "military_ca");
   (1, "private_us"); (1, "private_ca"); (2, "private_eu"); (2, "private_is");
   (3, "unknown")].

(** The labels of priority 1 and 2. *)
Definition PRIVATE_LABELS : list string :=
  ["private_us"; "private_ca"; "private_eu"; "private_is"].




(** Two dwell records that differ at most in their [dwell_hours]. *)
Definition same_stay (v v' : Dwell.t) : Prop :=
  Dwell.icao24 v' = Dwell.icao24 v /\
  Dwell.callsign v' = Dwell.callsign v /\
  Dwell.airport v' = Dwell.airport v /\
  Dwell.airport_icao v' = Dwell.airport_icao v /\
  Dwell.first_seen v' = Dwell.first_seen v /\
  Dwell.last_seen v' = Dwell.last_seen v /\
  Dwell.classification v' = Dwell.classification v.

(** The filtering loop of [fetch_airport_traffic], with the distance
    computation as a partial function: [distance] is [None] where
    [haversine_km] raises (in floating point the haversine term of nearly
    antipodal points can exceed 1, and [math.sqrt(1-a)] then raises
    [ValueError]). The loop runs inside [try: ... except Exception: return
    None], so a vector on which the distance raises loses the whole
    response. A vector without longitude or latitude is skipped before the
    distance is computed. *)
Fixpoint filter_to_radius (distance : R -> R -> R -> R -> option R)
         (airport : Airport.t) (radius_km : R) (states : list State.t)
  : option (list State.t) :=
  match states with
  | [] => Some []
  | state :: rest =>
      match State.lon state, State.lat state with
      | Some lon, Some lat =>
          match distance (Airport.lat airport) (Airport.lon airport) lat lon with
          | None => None
          | Some dist =>
              match filter_to_radius distance airport radius_km rest with
              | None => None
              | Some filtered =>
                  Some (if Geo.leb dist radius_km then state :: filtered
                        else filtered)
              end
          end
      | _, _ => filter_to_radius distance airport radius_km rest
      end
  end.

(** [fetch_airport_traffic] over that loop; [Chokepoints.fetch_airport_traffic]
    is the case of a distance that never raises. *)
Definition fetch_airport_traffic_try (distance : R -> R -> R -> R -> option R)
           (response : option (list State.t)) (airport_icao : string)
           (radius_km : R) : option (list State.t) :=
  match Dict.get CHOKE_POINTS airport_icao with
  | None => Some []
  | Some airport =>
      match response with
      | None => None
      | Some states => filter_to_radius distance airport radius_km states
      end
  end.

(** The test the loop makes on a vector where the distance does not raise. *)
Definition keptb (distance : R -> R -> R -> R -> option R)
           (airport : Airport.t) (radius_km : R) (state : State.t) : bool :=
  match State.lon state, State.lat state with
  | Some lon, Some lat =>
      match distance (Airport.lat airport) (Airport.lon airport) lat lon with
      | Some dist => Geo.leb dist radius_km
      | None => false
      end
  | _, _ => false
  end.

(** The distance computation raises on the position of the vector. *)
Definition raises (distance : R -> R -> R -> R -> option R)
           (airport : Airport.t) (state : State.t) : Prop :=
  exists lat lon,
    State.lat state = Some lat /\ State.lon state = Some lon /\
    distance (Airport.lat airport) (Airport.lon airport) lat lon = None.

(** The vector has a position whose computed distance is within the radius. *)
Definition within_by (distance : R -> R -> R -> R -> option R)
           (airport : Airport.t) (radius_km : R) (state : State.t) : Prop :=
  exists lat lon dist,
    State.lat state = Some lat /\ State.lon state = Some lon /\
    distance (Airport.lat airport) (Airport.lon airport) lat lon = Some dist /\
    (dist <= radius_km)%R.
End More.

(** * Properties *)

Import Chokepoints.

(** ** Strings *)

Lemma prefix_iff_append (p s : string) :
  String.prefix p s = true <-> exists rest, s = (p ++ rest)%string.
Proof.
  revert s; induction p as [|c p IH]; intros s.
  - split; [intros _; now exists s | intros _; destruct s; reflexivity].
  - destruct s as [|c' s']; simpl.
    + split; [discriminate | intros [rest H]; discriminate].
    + destruct (Ascii.ascii_dec c c') as [->|Hne].
      * rewrite IH. split; intros [rest H]; exists rest.
        -- now rewrite H.
        -- now inversion H.
      * split; [discriminate | intros [rest H]; inversion H; congruence].
Qed.

Example strip_inner_blank : Py.strip "  ab c   " = "ab c".
Proof. reflexivity. Qed.

Example strip_all_blank : Py.strip "    " = "".
Proof. reflexivity. Qed.

Example upper_mixed : Py.upper "n123ab-x" = "N123AB-X".
Proof. reflexivity. Qed.

Example classify_n123ab :
  classify_aircraft (Some "N123AB") (Some "a12345")
  = (1, "private_us", "US N-number - PRIORITY TARGET").
Proof. reflexivity. Qed.

Example classify_reach_canadian :
  classify_aircraft (Some "reach41") (Some "C01234")
  = (4, "military_us", "US Military").
Proof. reflexivity. Qed.

Example classify_nothing : classify_aircraft None None
  = (3, "unknown", "Unknown registration").
Proof. reflexivity. Qed.

Lemma startswith_any_iff (s : string) (ps : list string) :
  Py.startswith_any s ps = true <-> Spec.starts_with_one_of s ps.
Proof.
  unfold Py.startswith_any, Spec.starts_with_one_of, Py.startswith.
  rewrite existsb_exists. split.
  - intros [p [Hin Hp]]. apply prefix_iff_append in Hp as [rest ->]. eauto.
  - intros [p [rest [Hin ->]]]. exists p. split; [assumption|].
    apply prefix_iff_append. eauto.
Qed.

Lemma startswith_any_false (s : string) (ps : list string) :
  Py.startswith_any s ps = false <-> ~ Spec.starts_with_one_of s ps.
Proof.
  rewrite <- startswith_any_iff. destruct (Py.startswith_any s ps); intuition congruence.
Qed.

Lemma first_prefix_some (s : string) (ps : list string) (p : string) :
  first_prefix s ps = Some p -> In p ps /\ Py.startswith s p = true.
Proof.
  induction ps as [|q ps IH]; simpl; [discriminate|].
  destruct (Py.startswith s q) eqn:E.
  - intros [= <-]. auto.
  - intros H. destruct (IH H). auto.
Qed.

Lemma first_prefix_none (s : string) (ps : list string) :
  first_prefix s ps = None <-> Py.startswith_any s ps = false.
Proof.
  induction ps as [|q ps IH]; simpl; [tauto|].
  destruct (Py.startswith s q); simpl; [split; discriminate | exact IH].
Qed.

Lemma startswith_any_app (s : string) (ps qs : list string) :
  Py.startswith_any s (ps ++ qs)%list = Py.startswith_any s ps || Py.startswith_any s qs.
Proof. apply existsb_app. Qed.

(** ** C4: the classifier *)

(** C4. [classify_aircraft] decides by the first rule that matches, in the
    order scheduled prefix, military prefix, US or Canadian hex block,
    secondary hex block, unknown: a scheduled prefix gives priority 5 and
    label "scheduled" whatever the rest; failing that a military prefix gives
    priority 4; failing that a hex starting with a, c0, c1, c2 or c3 gives
    priority 1; failing that a secondary prefix gives priority 2; failing all
    of them the result is priority 3 with label "unknown". *)
Theorem classify_first_match_wins (callsign icao24 : option string) :
  let cs := Spec.norm_callsign callsign in
  let hex := Spec.norm_hex icao24 in
  let scheduled := Spec.starts_with_one_of cs SCHEDULED_CALLSIGN_PREFIXES in
  let military := Spec.starts_with_one_of cs Spec.MILITARY_PREFIXES in
  let primary := Spec.starts_with_one_of hex Spec.PRIMARY_HEX_PREFIXES in
  let secondary := Spec.starts_with_one_of hex Spec.SECONDARY_HEX_PREFIXES in
  let c := classify_aircraft callsign icao24 in
  (scheduled -> Spec.priority_of c = 5 /\ Spec.label_of c = "scheduled") /\
  (~ scheduled -> military -> Spec.priority_of c = 4) /\
  (~ scheduled -> ~ military -> primary -> Spec.priority_of c = 1) /\
  (~ scheduled -> ~ military -> ~ primary -> secondary ->
   Spec.priority_of c = 2) /\
  (~ scheduled -> ~ military -> ~ primary -> ~ secondary ->
   Spec.priority_of c = 3 /\ Spec.label_of c = "unknown").
Proof.
  intros cs hex scheduled military primary secondary c.
  subst c scheduled military primary secondary. unfold classify_aircraft.
  fold (Spec.norm_callsign callsign) (Spec.norm_hex icao24). fold cs hex.
  rewrite <- !startswith_any_iff.
  change Spec.MILITARY_PREFIXES with
    (["RCH"; "RRR"; "REACH"; "CNV"; "DUKE"] ++ ["DAF"; "DNK"; "DANSUP"]
       ++ ["CFC"; "CFF"; "CANFORCE"])%list.
  change Spec.PRIMARY_HEX_PREFIXES with (["a"] ++ ["c0"; "c1"; "c2"; "c3"])%list.
  change Spec.SECONDARY_HEX_PREFIXES with (["4"] ++ ["tf"])%list.
  rewrite !startswith_any_app.
  replace (Py.startswith_any hex ["a"]) with (Py.startswith hex "a")
    by (unfold Py.startswith_any; simpl; now rewrite orb_false_r).
  replace (Py.startswith_any hex ["4"]) with (Py.startswith hex "4")
    by (unfold Py.startswith_any; simpl; now rewrite orb_false_r).
  replace (Py.startswith_any hex ["tf"]) with (Py.startswith hex "tf")
    by (unfold Py.startswith_any; simpl; now rewrite orb_false_r).
  destruct (first_prefix cs SCHEDULED_CALLSIGN_PREFIXES) as [p|] eqn:Hs.
  - assert (Py.startswith_any cs SCHEDULED_CALLSIGN_PREFIXES = true) as ->.
    { destruct (Py.startswith_any cs SCHEDULED_CALLSIGN_PREFIXES) eqn:E; [reflexivity|].
      apply first_prefix_none in E. congruence. }
    repeat split; intros; try reflexivity; exfalso; auto.
  - apply first_prefix_none in Hs. rewrite Hs.
    destruct (Py.startswith_any cs ["RCH"; "RRR"; "REACH"; "CNV"; "DUKE"]);
    destruct (Py.startswith_any cs ["DAF"; "DNK"; "DANSUP"]);
    destruct (Py.startswith_any cs ["CFC"; "CFF"; "CANFORCE"]);
    destruct (Py.startswith hex "a");
    destruct (Py.startswith_any hex ["c0"; "c1"; "c2"; "c3"]);
    destruct (Py.startswith hex "4");
    destruct (Py.startswith hex "tf"); simpl;
    repeat split; intros; try reflexivity; try discriminate;
    exfalso; auto.
Qed.

Lemma classify_first_match_wins_witness :
  Spec.starts_with_one_of (Spec.norm_callsign (Some " grl123 "))
    SCHEDULED_CALLSIGN_PREFIXES /\
  Spec.starts_with_one_of (Spec.norm_hex (Some "A12345"))
    Spec.PRIMARY_HEX_PREFIXES /\
  Spec.priority_of (classify_aircraft (Some " grl123 ") (Some "A12345")) = 5 /\
  Spec.label_of (classify_aircraft (Some " grl123 ") (Some "A12345")) = "scheduled".
Proof.
  assert (H : Spec.starts_with_one_of (Spec.norm_callsign (Some " grl123 "))
                SCHEDULED_CALLSIGN_PREFIXES).
  { exists "GRL", "123". split; [simpl; auto | reflexivity]. }
  split; [exact H|]. split.
  - exists "a", "12345". split; [simpl; auto | reflexivity].
  - exact (proj1 (classify_first_match_wins (Some " grl123 ") (Some "A12345")) H).
Defined.

(** ** C6: priority alerts *)

Lemma choke_point_red (icao : string) (airport : Airport.t) :
  Dict.get CHOKE_POINTS icao = Some airport ->
  (Airport.signal airport = "RED" <-> icao = "BGBW").
Proof.
  unfold CHOKE_POINTS; simpl.
  destruct (String.eqb_spec icao "BGBW") as [->|N1].
  { intros [= <-]; simpl; tauto. }
  destruct (String.eqb_spec icao "BGGH") as [->|N2].
  { intros [= <-]; simpl; split; [discriminate | congruence]. }
  destruct (String.eqb_spec icao "BGSF") as [->|N3].
  { intros [= <-]; simpl; split; [discriminate | congruence]. }
  discriminate.
Qed.

(** C6. For an observation at a monitored airport, [generate_priority_alert]
    returns at most one alert: a CRITICAL one for priority 1 at the RED hub
    (Narsarsuaq, BGBW), a HIGH one for priority 1 at another airport, a
    MEDIUM one for priority 2 at the hub, and none in every other case, in
    particular for priority 3. *)
Theorem priority_alert_rules (record : Rec.t) (airport : Airport.t) :
  Dict.get CHOKE_POINTS (Rec.airport_icao record) = Some airport ->
  let p := Rec.priority record in
  let hub := Airport.signal airport = "RED" in
  (hub <-> Rec.airport_icao record = "BGBW") /\
  (p = 1 -> hub ->
   exists a, generate_priority_alert record = inr (Some a) /\
             Dict.get a "level" = Some (VStr "CRITICAL")) /\
  (p = 1 -> ~ hub ->
   exists a, generate_priority_alert record = inr (Some a) /\
             Dict.get a "level" = Some (VStr "HIGH")) /\
  (p = 2 -> hub ->
   exists a, generate_priority_alert record = inr (Some a) /\
             Dict.get a "level" = Some (VStr "MEDIUM")) /\
  (p <> 1 -> ~ (p = 2 /\ hub) -> generate_priority_alert record = inr None) /\
  (p = 3 -> generate_priority_alert record = inr None).
Proof.
  intros Hget p hub. subst p hub. split; [now apply choke_point_red|].
  unfold generate_priority_alert. rewrite Hget.
  destruct (Z.eqb_spec (Rec.priority record) 1) as [E1|N1];
  destruct (Z.eqb_spec (Rec.priority record) 2) as [E2|N2];
  destruct (String.eqb_spec (Airport.signal airport) "RED") as [Er|Nr];
  simpl; repeat split; intros; try lia; try contradiction; try tauto;
  try (eexists; split; [reflexivity | reflexivity]); try reflexivity.
Qed.

Lemma priority_alert_rules_witness :
  let record := Rec.mk 1700000000 "BGBW" "Narsarsuaq" "RED" "a12345" "N123AB"
                  61.20%R (-45.40)%R (Some 500%R) (Some 10%R) (Some true)
                  4.6%R true 1 "private_us" "US N-number - PRIORITY TARGET" in
  exists airport a,
    Dict.get CHOKE_POINTS (Rec.airport_icao record) = Some airport /\
    generate_priority_alert record = inr (Some a) /\
    Dict.get a "level" = Some (VStr "CRITICAL").
Proof.
  intros record.
  destruct (Dict.get CHOKE_POINTS (Rec.airport_icao record)) as [airport|] eqn:H;
    [|discriminate].
  destruct (priority_alert_rules record airport H) as (Hhub & Hcrit & _).
  destruct (Hcrit eq_refl (proj2 Hhub eq_refl)) as (a & Ha & Hl).
  exists airport, a. auto.
Defined.

(** ** C9: the arrival heuristic *)

Lemma ltb_true (x y : R) : Geo.ltb x y = true <-> (x < y)%R.
Proof. unfold Geo.ltb. destruct (Rlt_dec x y); split; intros; auto; discriminate. Qed.

Lemma leb_true (x y : R) : Geo.leb x y = true <-> (x <= y)%R.
Proof. unfold Geo.leb. destruct (Rle_dec x y); split; intros; auto; discriminate. Qed.

Lemma ltb_false (x y : R) : Geo.ltb x y = false <-> (y <= x)%R.
Proof.
  unfold Geo.ltb. destruct (Rlt_dec x y); split; intros;
    try discriminate; try lra; reflexivity.
Qed.

Lemma leb_false (x y : R) : Geo.leb x y = false <-> (y < x)%R.
Proof.
  unfold Geo.leb. destruct (Rle_dec x y); split; intros;
    try discriminate; try lra; reflexivity.
Qed.

Lemma likely_arrival_iff (on_ground : option bool) (altitude velocity : option R)
      (distance_km : R) :
  likely_arrival on_ground altitude velocity distance_km = true <->
  (distance_km < 20)%R /\
  (on_ground = Some true \/
   (exists a, altitude = Some a /\ (a < 3000)%R) /\
   (exists v, velocity = Some v /\ (v < 100)%R)).
Proof.
  unfold likely_arrival. rewrite andb_true_iff, orb_true_iff, andb_true_iff, ltb_true.
  split.
  - intros [[Hg | [Ha Hv]] Hd]; split; try assumption.
    + left. destruct on_ground as [[|]|]; simpl in Hg; congruence.
    + right. split.
      * destruct altitude as [a|]; [|discriminate]. exists a. now rewrite <- ltb_true.
      * destruct velocity as [v|]; [|discriminate]. exists v. now rewrite <- ltb_true.
  - intros [Hd [-> | [[a [-> Ha]] [v [-> Hv]]]]]; split; try assumption.
    + now left.
    + right. now rewrite !ltb_true.
Qed.

(** C9. For a state vector with a position at a monitored airport,
    [process_aircraft] returns a record whose likely-arrival flag is true
    exactly when the distance to the airport is under 20 km and either the
    on-ground flag is true or the altitude is present and under 3000 m and
    the velocity is present and under 100 m/s. At 5 km the flag is true for
    an aircraft on the ground whatever altitude and velocity are, and false
    for an airborne one at 5000 m. *)
Theorem likely_arrival_spec (now : Z) (state : State.t) (airport_icao : string)
        (airport : Airport.t) (lat lon : R) :
  Dict.get CHOKE_POINTS airport_icao = Some airport ->
  State.lat state = Some lat ->
  State.lon state = Some lon ->
  let distance_km :=
    Geo.haversine_km (Airport.lat airport) (Airport.lon airport) lat lon in
  (exists record,
     process_aircraft now state airport_icao = inr record /\
     (Rec.likely_arrival record = true <->
      (distance_km < 20)%R /\
      (State.on_ground state = Some true \/
       (exists a, State.altitude state = Some a /\ (a < 3000)%R) /\
       (exists v, State.velocity state = Some v /\ (v < 100)%R)))) /\
  (forall altitude velocity,
     likely_arrival (Some true) altitude velocity 5 = true) /\
  (forall velocity,
     likely_arrival (Some false) (Some 5000%R) velocity 5 = false).
Proof.
  intros Hap Hlat Hlon distance_km. split; [|split].
  - unfold process_aircraft. rewrite Hap, Hlat, Hlon.
    destruct (classify_aircraft _ _) as [[priority classification] notes].
    eexists. split; [reflexivity|]. simpl. apply likely_arrival_iff.
  - intros altitude velocity. apply likely_arrival_iff. split; [lra | now left].
  - intros velocity.
    destruct (likely_arrival (Some false) (Some 5000%R) velocity 5) eqn:E;
      [|reflexivity].
    apply likely_arrival_iff in E as [_ [H | [[a [[= <-] Ha]] _]]];
      [discriminate | lra].
Qed.

Lemma likely_arrival_spec_witness :
  let state := State.mk "a12345" (Some "N123AB") (Some (-45.40)%R) (Some 61.20%R)
                 (Some 500%R) (Some true) (Some 10%R) in
  exists record, process_aircraft 1700000000000000 state "BGBW" = inr record.
Proof.
  intros state.
  destruct (Dict.get CHOKE_POINTS "BGBW") as [airport|] eqn:H; [|discriminate].
  destruct (likely_arrival_spec 1700000000000000 state "BGBW" airport
              61.20%R (-45.40)%R H eq_refl eq_refl) as [[record [Hr _]] _].
  exists record. exact Hr.
Defined.

(** ** C7: the nearest airport or heliport *)

Section NearestScan.
Variables lat lon : R.

Local Abbreviation step := (Monitor.scan_step lat lon).
Local Abbreviation dist e := (Spec.loc_dist lat lon (snd e)).

Lemma scan_step_eq (m : Geo.ext) (n : option (string * string * R))
      (e : string * Monitor.Loc.t) :
  step (m, n) e =
  if Geo.lt_ext (dist e) m
  then (Geo.Fin (dist e), Some (fst e, Monitor.Loc.name (snd e), dist e))
  else (m, n).
Proof. destruct e as [icao info]. reflexivity. Qed.

(** After a non-empty prefix of the registry the scan holds the first entry
    of least distance. *)
Lemma scan_first_minimum (l : list (string * Monitor.Loc.t)) :
  l <> [] ->
  exists i e,
    nth_error l i = Some e /\
    fold_left step l (Geo.Inf, None)
    = (Geo.Fin (dist e), Some (fst e, Monitor.Loc.name (snd e), dist e)) /\
    (forall j e', nth_error l j = Some e' -> (dist e <= dist e')%R) /\
    (forall j e', (j < i)%nat -> nth_error l j = Some e' -> (dist e < dist e')%R).
Proof.
  induction l as [|x l IH] using rev_ind; [congruence|]. intros _.
  rewrite fold_left_app. cbn [fold_left].
  destruct l as [|y l'].
  - cbn [fold_left]. rewrite scan_step_eq. cbn [Geo.lt_ext].
    exists 0%nat, x. repeat split.
    + intros [|[|j]] e' H; simpl in H; inversion H; subst; lra.
    + intros j e' Hj. lia.
  - destruct IH as (i & e & Hi & Hf & Hmin & Hfirst); [discriminate|].
    rewrite Hf, scan_step_eq. simpl Geo.lt_ext.
    assert (Hlen : (i < List.length (y :: l'))%nat)
      by (apply nth_error_Some; congruence).
    destruct (Geo.ltb (dist x) (dist e)) eqn:E.
    + apply ltb_true in E.
      exists (List.length (y :: l')), x. repeat split.
      * rewrite nth_error_app2, Nat.sub_diag by lia. reflexivity.
      * intros j e' H.
        destruct (Nat.lt_ge_cases j (List.length (y :: l'))) as [Hj|Hj].
        -- rewrite nth_error_app1 in H by assumption.
           specialize (Hmin j e' H). lra.
        -- rewrite nth_error_app2 in H by assumption.
           destruct (j - List.length (y :: l'))%nat as [|[|k]];
             simpl in H; inversion H; subst; lra.
      * intros j e' Hj H. rewrite nth_error_app1 in H by assumption.
        specialize (Hmin j e' H). lra.
    + apply ltb_false in E.
      exists i, e. repeat split.
      * rewrite nth_error_app1 by assumption. exact Hi.
      * intros j e' H.
        destruct (Nat.lt_ge_cases j (List.length (y :: l'))) as [Hj|Hj].
        -- rewrite nth_error_app1 in H by assumption. eauto.
        -- rewrite nth_error_app2 in H by assumption.
           destruct (j - List.length (y :: l'))%nat as [|[|k]];
             simpl in H; inversion H; subst; lra.
      * intros j e' Hj H. rewrite nth_error_app1 in H by lia. eauto.
Qed.
End NearestScan.

Lemma all_locations_union :
  Monitor.all_locations
  = (Monitor.GREENLAND_AIRPORTS ++ Monitor.MINING_HELIPORTS)%list.
Proof. reflexivity. Qed.

(** C7. For every query position [find_nearest_airport] returns an entry of
    the registry (the airports followed by the heliports) whose haversine
    distance to the query is least, together with that distance; every entry
    registered before it is strictly farther, so of several entries at the
    least distance the one registered first is returned. *)
Theorem nearest_airport_first_minimum (lat lon : R) :
  Monitor.all_locations
  = (Monitor.GREENLAND_AIRPORTS ++ Monitor.MINING_HELIPORTS)%list /\
  exists i icao info,
    nth_error Monitor.all_locations i = Some (icao, info) /\
    Monitor.find_nearest_airport lat lon
    = Some (icao, Monitor.Loc.name info, Spec.loc_dist lat lon info) /\
    (forall j icao' info',
       nth_error Monitor.all_locations j = Some (icao', info') ->
       (Spec.loc_dist lat lon info <= Spec.loc_dist lat lon info')%R) /\
    (forall j icao' info',
       (j < i)%nat ->
       nth_error Monitor.all_locations j = Some (icao', info') ->
       (Spec.loc_dist lat lon info < Spec.loc_dist lat lon info')%R).
Proof.
  split; [exact all_locations_union|].
  destruct (scan_first_minimum lat lon Monitor.all_locations)
    as (i & [icao info] & Hi & Hf & Hmin & Hfirst).
  { rewrite all_locations_union. discriminate. }
  exists i, icao, info. repeat split.
  - exact Hi.
  - unfold Monitor.find_nearest_airport. rewrite Hf. reflexivity.
  - intros j icao' info' H. exact (Hmin j (icao', info') H).
  - intros j icao' info' Hj H. exact (Hfirst j (icao', info') Hj H).
Qed.

(** ** Dictionaries *)

Section DictFacts.
Context {V : Type}.
Implicit Types (d : Dict.t V) (k : string) (v : V).

Lemma get_set_same d k v : Dict.get (Dict.set d k v) k = Some v.
Proof.
  induction d as [|[k' v'] d IH]; simpl.
  - now rewrite String.eqb_refl.
  - destruct (String.eqb_spec k k') as [->|N]; simpl.
    + now rewrite String.eqb_refl.
    + destruct (String.eqb_spec k k'); [contradiction | exact IH].
Qed.

Lemma get_set_other d k k' v :
  k' <> k -> Dict.get (Dict.set d k v) k' = Dict.get d k'.
Proof.
  intros N. induction d as [|[k0 v0] d IH]; simpl.
  - destruct (String.eqb_spec k' k); [contradiction | reflexivity].
  - destruct (String.eqb_spec k k0) as [->|N0]; simpl.
    + destruct (String.eqb_spec k' k0); [contradiction | reflexivity].
    + destruct (String.eqb_spec k' k0); [reflexivity | exact IH].
Qed.

Lemma in_set d k v k' v' :
  In (k', v') (Dict.set d k v) -> (k', v') = (k, v) \/ In (k', v') d.
Proof.
  induction d as [|[k0 v0] d IH]; simpl.
  - intros [H|[]]; auto.
  - destruct (String.eqb_spec k k0) as [->|N]; simpl.
    + intros [H|H]; auto.
    + intros [H|H]; auto. destruct (IH H); auto.
Qed.

Lemma get_in d k v : Dict.get d k = Some v -> In (k, v) d.
Proof.
  induction d as [|[k0 v0] d IH]; simpl; [discriminate|].
  destruct (String.eqb_spec k k0) as [->|N].
  - intros [= ->]. now left.
  - intros H. right. auto.
Qed.

Lemma get_none_not_in d k : Dict.get d k = None <-> ~ In k (Dict.keys d).
Proof.
  induction d as [|[k0 v0] d IH]; simpl; [tauto|].
  destruct (String.eqb_spec k k0) as [->|N].
  - split; [discriminate | intros H; exfalso; auto].
  - rewrite IH. split; intros H; [intros [E|E]; [congruence | auto] | auto].
Qed.

Lemma in_get d k v : NoDup (Dict.keys d) -> In (k, v) d -> Dict.get d k = Some v.
Proof.
  induction d as [|[k0 v0] d IH]; simpl; [intros _ []|].
  intros Hnd [H|H].
  - inversion H; subst. now rewrite String.eqb_refl.
  - inversion Hnd as [|? ? Hnotin Hnd']; subst.
    destruct (String.eqb_spec k k0) as [->|N].
    + exfalso. apply Hnotin. change k0 with (fst (k0, v)). now apply in_map.
    + auto.
Qed.

Lemma set_absent d k v : Dict.get d k = None -> Dict.set d k v = (d ++ [(k, v)])%list.
Proof.
  induction d as [|[k0 v0] d IH]; simpl; [reflexivity|].
  destruct (String.eqb_spec k k0); [discriminate|]. intros H. now rewrite IH.
Qed.

Lemma keys_set_present d k v v0 :
  Dict.get d k = Some v0 -> Dict.keys (Dict.set d k v) = Dict.keys d.
Proof.
  induction d as [|[k0 v1] d IH]; simpl; [discriminate|].
  destruct (String.eqb_spec k k0) as [->|N]; simpl; [reflexivity|].
  intros H. f_equal. auto.
Qed.

Lemma nodup_set d k v : NoDup (Dict.keys d) -> NoDup (Dict.keys (Dict.set d k v)).
Proof.
  intros Hnd. destruct (Dict.get d k) as [v0|] eqn:E.
  - now rewrite (keys_set_present _ _ _ _ E).
  - rewrite (set_absent _ _ _ E). unfold Dict.keys. rewrite map_app. simpl.
    apply NoDup_app; [assumption | repeat constructor; intros [] |].
    intros x Hx Hx'. destruct Hx' as [<-|[]]. now apply get_none_not_in in E.
Qed.
Lemma keys_map_values (f : V -> V) d : Dict.keys (Dict.map_values f d) = Dict.keys d.
Proof.
  unfold Dict.keys, Dict.map_values. rewrite map_map. now apply map_ext.
Qed.

Lemma keys_filter_values (p : V -> bool) d k :
  In k (Dict.keys (Dict.filter_values p d)) -> In k (Dict.keys d).
Proof.
  unfold Dict.keys, Dict.filter_values. rewrite !in_map_iff.
  intros [kv [E H]]. apply filter_In in H as [H _]. eauto.
Qed.

Lemma nodup_filter_values (p : V -> bool) d :
  NoDup (Dict.keys d) -> NoDup (Dict.keys (Dict.filter_values p d)).
Proof.
  induction d as [|[k v] d IH]; simpl; [auto|].
  intros Hnd. inversion Hnd as [|? ? Hnotin Hnd']; subst.
  destruct (p v); simpl; [|auto].
  constructor; [|auto]. intros H. apply Hnotin. exact (keys_filter_values p d k H).
Qed.
End DictFacts.

(** ** The first loop of the dwell tracker *)

Lemma qualifying_iff (r : Rec.t) :
  Spec.qualifying r <->
  negb (truthy_flag (Rec.on_ground r)) = false /\ (Rec.priority r >? 2) = false.
Proof.
  unfold Spec.qualifying. rewrite negb_false_iff, Z.gtb_ltb, Z.ltb_ge.
  destruct (Rec.on_ground r) as [[|]|]; simpl; intuition congruence.
Qed.

Lemma qualifying_dec (r : Rec.t) : {Spec.qualifying r} + {~ Spec.qualifying r}.
Proof.
  destruct (negb (truthy_flag (Rec.on_ground r))) eqn:E1.
  - right. rewrite qualifying_iff. intros [H _]. congruence.
  - destruct (Rec.priority r >? 2) eqn:E2.
    + right. rewrite qualifying_iff. intros [_ H]. congruence.
    + left. rewrite qualifying_iff. auto.
Qed.

Lemma observe_skip (d : Dict.t Dwell.t) (r : Rec.t) :
  ~ Spec.qualifying r -> observe d r = d.
Proof.
  rewrite qualifying_iff. unfold observe.
  destruct (negb (truthy_flag (Rec.on_ground r))); [reflexivity|].
  destruct (Rec.priority r >? 2); [reflexivity|]. intros H. exfalso. auto.
Qed.

Lemma observe_new (d : Dict.t Dwell.t) (r : Rec.t) :
  Spec.qualifying r -> Dict.get d (dwell_key r) = None ->
  observe d r = Dict.set d (dwell_key r) (Spec.created r).
Proof.
  intros Hq Hg. apply qualifying_iff in Hq as [H1 H2].
  unfold observe. now rewrite H1, H2, Hg.
Qed.

Lemma observe_update (d : Dict.t Dwell.t) (r : Rec.t) (v : Dwell.t) :
  Spec.qualifying r -> Dict.get d (dwell_key r) = Some v ->
  observe d r =
  Dict.set d (dwell_key r)
    (Dwell.mk (Dwell.icao24 v)
       (if Py.truthy (Rec.callsign r) then Rec.callsign r else Dwell.callsign v)
       (Dwell.airport v) (Dwell.airport_icao v) (Dwell.first_seen v)
       (Rec.timestamp r) (Dwell.classification v) (Dwell.dwell_hours v)).
Proof.
  intros Hq Hg. apply qualifying_iff in Hq as [H1 H2].
  unfold observe. rewrite H1, H2, Hg. f_equal.
  destruct (Py.truthy (Rec.callsign r)); reflexivity.
Qed.

(** A key that gets a record got it from a qualifying observation. *)
Lemma observe_creates (d : Dict.t Dwell.t) (r : Rec.t) (k : string) (v' : Dwell.t) :
  Dict.get d k = None -> Dict.get (observe d r) k = Some v' ->
  Spec.qualifying r /\ k = dwell_key r /\ v' = Spec.created r.
Proof.
  intros Hnone Hsome.
  destruct (qualifying_dec r) as [Hq|Hq].
  - destruct (Dict.get d (dwell_key r)) as [v|] eqn:Hg.
    + rewrite (observe_update _ _ _ Hq Hg) in Hsome.
      rewrite get_set_other in Hsome by congruence. congruence.
    + rewrite (observe_new _ _ Hq Hg) in Hsome.
      destruct (string_dec k (dwell_key r)) as [->|N].
      * rewrite get_set_same in Hsome. intuition congruence.
      * rewrite get_set_other in Hsome by assumption. congruence.
  - rewrite (observe_skip _ _ Hq) in Hsome. congruence.
Qed.

(** A record that exists is kept, with its first-seen and identity; only a
    qualifying observation for its key changes it. *)
Lemma observe_keeps (d : Dict.t Dwell.t) (r : Rec.t) (k : string) (v : Dwell.t) :
  Dict.get d k = Some v ->
  exists v',
    Dict.get (observe d r) k = Some v' /\
    Dwell.first_seen v' = Dwell.first_seen v /\
    Dwell.icao24 v' = Dwell.icao24 v /\
    Dwell.airport v' = Dwell.airport v /\
    Dwell.airport_icao v' = Dwell.airport_icao v /\
    Dwell.classification v' = Dwell.classification v /\
    (Spec.qualifying r /\ k = dwell_key r ->
     Dwell.last_seen v' = Rec.timestamp r /\
     Dwell.callsign v' =
     if Py.truthy (Rec.callsign r) then Rec.callsign r else Dwell.callsign v) /\
    (~ (Spec.qualifying r /\ k = dwell_key r) -> v' = v).
Proof.
  intros Hg.
  destruct (qualifying_dec r) as [Hq|Hq].
  - destruct (string_dec k (dwell_key r)) as [->|N].
    + rewrite (observe_update _ _ _ Hq Hg), get_set_same.
      eexists. split; [reflexivity|]. simpl. repeat split; tauto.
    + exists v. repeat split; try tauto.
      destruct (Dict.get d (dwell_key r)) as [v0|] eqn:Hg0.
      * rewrite (observe_update _ _ _ Hq Hg0). now rewrite get_set_other.
      * rewrite (observe_new _ _ Hq Hg0). now rewrite get_set_other.
  - exists v. rewrite (observe_skip _ _ Hq). repeat split; tauto.
Qed.

Lemma tracked_keeps_first_seen (records : list Rec.t) (d : Dict.t Dwell.t)
      (k : string) (v : Dwell.t) :
  Dict.get d k = Some v ->
  exists v', Dict.get (fold_left observe records d) k = Some v' /\
             Dwell.first_seen v' = Dwell.first_seen v.
Proof.
  revert d v. induction records as [|r records IH]; intros d v Hg; simpl.
  - eauto.
  - destruct (observe_keeps d r k v Hg) as (v1 & Hg1 & Hf1 & _).
    destruct (IH _ _ Hg1) as (v' & Hg' & Hf'). exists v'. split; congruence.
Qed.

Lemma in_observe (d : Dict.t Dwell.t) (r : Rec.t) (k : string) (v' : Dwell.t) :
  In (k, v') (observe d r) ->
  In (k, v') d \/
  (Spec.qualifying r /\ k = dwell_key r /\
   (v' = Spec.created r \/
    exists v, In (k, v) d /\ Dwell.first_seen v' = Dwell.first_seen v /\
              Dwell.last_seen v' = Rec.timestamp r /\
              Dwell.icao24 v' = Dwell.icao24 v /\
              Dwell.airport_icao v' = Dwell.airport_icao v)).
Proof.
  intros Hin. destruct (qualifying_dec r) as [Hq|Hq].
  - destruct (Dict.get d (dwell_key r)) as [v|] eqn:Hg.
    + rewrite (observe_update _ _ _ Hq Hg) in Hin.
      apply in_set in Hin as [E|Hin]; [|now left].
      inversion E; subst. right. split; [exact Hq|]. split; [reflexivity|].
      right. exists v. simpl. repeat split. now apply get_in.
    + rewrite (observe_new _ _ Hq Hg) in Hin.
      apply in_set in Hin as [E|Hin]; [|now left].
      inversion E; subst. right. auto.
  - rewrite (observe_skip _ _ Hq) in Hin. now left.
Qed.

Lemma observe_well_keyed (d : Dict.t Dwell.t) (r : Rec.t) :
  Spec.well_keyed d -> Spec.well_keyed (observe d r).
Proof.
  intros [Hnd Hk]. split.
  - destruct (qualifying_dec r) as [Hq|Hq].
    + destruct (Dict.get d (dwell_key r)) as [v|] eqn:Hg.
      * rewrite (observe_update _ _ _ Hq Hg). now apply nodup_set.
      * rewrite (observe_new _ _ Hq Hg). now apply nodup_set.
    + now rewrite (observe_skip _ _ Hq).
  - intros k v' Hin.
    apply in_observe in Hin as [Hin | (Hq & -> & [-> | (v & Hin & _ & _ & Hi & Ha)])].
    + auto.
    + reflexivity.
    + unfold Spec.key_of. rewrite Hi, Ha. exact (Hk _ _ Hin).
Qed.

Lemma tracked_well_keyed (records : list Rec.t) (d : Dict.t Dwell.t) :
  Spec.well_keyed d -> Spec.well_keyed (fold_left observe records d).
Proof.
  revert d. induction records as [|r records IH]; intros d H; simpl; [assumption|].
  apply IH. now apply observe_well_keyed.
Qed.

(** ** The second loop and the eviction *)

(** Four hours as a float comparison and as a count of seconds. *)
Lemma four_hours (v : Dwell.t) :
  Geo.leb 4 (dwell_hours_of v) = (4 * 3600 <=? Spec.dwell_seconds v).
Proof.
  unfold dwell_hours_of, Spec.dwell_seconds.
  set (s := Dwell.last_seen v - Dwell.first_seen v).
  destruct (Z.leb_spec (4 * 3600) s) as [H|H].
  - apply leb_true. apply IZR_le in H. change (4 * 3600) with 14400 in H. lra.
  - apply leb_false. apply IZR_lt in H. change (4 * 3600) with 14400 in H. lra.
Qed.

Lemma long_stay_eq (v : Dwell.t) :
  Spec.long_stay v =
  Geo.leb 4 (dwell_hours_of v) && (Dwell.airport_icao v =? "BGBW")%string.
Proof. unfold Spec.long_stay. now rewrite four_hours. Qed.

Lemma flag_long_stays_fst (d : Dict.t Dwell.t) :
  fst (flag_long_stays d) = Dict.map_values Spec.with_hours d.
Proof.
  induction d as [|[k v] d IH]; simpl; [reflexivity|].
  destruct (flag_long_stays d) as [rest' alerts]. simpl in IH. subst rest'.
  destruct (_ && _); reflexivity.
Qed.

Lemma flag_long_stays_snd (d : Dict.t Dwell.t) :
  snd (flag_long_stays d) =
  map (fun v => extended_dwell_alert (dwell_hours_of v) (Spec.with_hours v))
      (filter Spec.long_stay (Dict.values d)).
Proof.
  induction d as [|[k v] d IH]; [reflexivity|].
  cbn [flag_long_stays]. destruct (flag_long_stays d) as [rest' alerts].
  cbn [snd] in IH. subst alerts.
  cbn [Dict.values map snd filter]. rewrite long_stay_eq.
  change (Dwell.airport_icao
            (Dwell.set_dwell_hours (Geo.round1 (dwell_hours_of v)) v))
    with (Dwell.airport_icao v).
  destruct (Geo.leb 4 (dwell_hours_of v) && _); reflexivity.
Qed.

Lemma update_fst (now : Z) (records : list Rec.t) (file : option (Dict.t Dwell.t)) :
  fst (update_dwell_tracking now records file) =
  Dict.filter_values (fresh now)
    (Dict.map_values Spec.with_hours (Spec.tracked records file)).
Proof.
  unfold update_dwell_tracking, Spec.tracked.
  replace (match file with Some d => d | None => [] end) with (or_nil file)
    by (destruct file; reflexivity).
  rewrite <- flag_long_stays_fst.
  destruct (flag_long_stays _); reflexivity.
Qed.

Lemma update_snd (now : Z) (records : list Rec.t) (file : option (Dict.t Dwell.t)) :
  snd (update_dwell_tracking now records file) =
  map (fun v => extended_dwell_alert (dwell_hours_of v) (Spec.with_hours v))
      (filter Spec.long_stay (Dict.values (Spec.tracked records file))).
Proof.
  unfold update_dwell_tracking, Spec.tracked.
  replace (match file with Some d => d | None => [] end) with (or_nil file)
    by (destruct file; reflexivity).
  rewrite <- flag_long_stays_snd.
  destruct (flag_long_stays _); reflexivity.
Qed.

(** What an invocation writes back: for each key, the tracked record with
    its hours if it is fresh, nothing otherwise. *)
Lemma in_update_fst (now : Z) (records : list Rec.t)
      (file : option (Dict.t Dwell.t)) (k : string) (v' : Dwell.t) :
  In (k, v') (fst (update_dwell_tracking now records file)) <->
  exists v, In (k, v) (Spec.tracked records file) /\
            v' = Spec.with_hours v /\ fresh now v = true.
Proof.
  rewrite update_fst. unfold Dict.filter_values, Dict.map_values.
  rewrite filter_In, in_map_iff. simpl. split.
  - intros [[[k0 v0] [E Hin]] Hf]. simpl in E. inversion E; subst.
    exists v0. auto.
  - intros (v & Hin & -> & Hf). split; [|exact Hf].
    exists (k, v). auto.
Qed.

Lemma update_well_keyed (now : Z) (records : list Rec.t)
      (file : option (Dict.t Dwell.t)) :
  Spec.well_keyed (or_nil file) ->
  Spec.well_keyed (fst (update_dwell_tracking now records file)).
Proof.
  intros H. apply (tracked_well_keyed records) in H. fold (Spec.tracked records file) in H.
  destruct H as [Hnd Hk]. split.
  - rewrite update_fst. apply nodup_filter_values. now rewrite keys_map_values.
  - intros k v' Hin. apply in_update_fst in Hin as (v & Hin & -> & _).
    exact (Hk _ _ Hin).
Qed.

(** ** C8: first-seen never exceeds last-seen *)

Lemma observe_ordered_before (t : Z) (future : list Z) (d : Dict.t Dwell.t)
      (r : Rec.t) :
  Rec.timestamp r = t ->
  StronglySorted Z.le (t :: future) ->
  Spec.ordered_before (t :: future) d ->
  Spec.ordered_before future (observe d r).
Proof.
  intros Ht Hs Hd k v' Hin. inversion Hs as [|? ? Hs' Hall]; subst.
  apply in_observe in Hin
    as [Hin | (Hq & -> & [-> | (v & Hin & Hf & Hl & _)])].
  - destruct (Hd _ _ Hin) as [Ho Hfut]. split; [exact Ho|].
    now inversion Hfut.
  - simpl. split; [lia | exact Hall].
  - destruct (Hd _ _ Hin) as [Ho Hfut]. inversion Hfut; subst.
    rewrite Hf, Hl. split; [lia | exact Hall].
Qed.

Lemma tracked_ordered_before (records : list Rec.t) (future : list Z)
      (d : Dict.t Dwell.t) :
  StronglySorted Z.le (map Rec.timestamp records ++ future) ->
  Spec.ordered_before (map Rec.timestamp records ++ future) d ->
  Spec.ordered_before future (fold_left observe records d).
Proof.
  revert d. induction records as [|r records IH]; intros d Hs Hd; simpl in *.
  - exact Hd.
  - apply IH.
    + now inversion Hs.
    + now apply (observe_ordered_before (Rec.timestamp r)).
Qed.

Lemma run_dwell_ordered_before (invs : list (Z * list Rec.t))
      (file : option (Dict.t Dwell.t)) :
  StronglySorted Z.le (Spec.timestamps invs) ->
  Spec.ordered_before (Spec.timestamps invs) (or_nil file) ->
  Spec.ordered_before [] (or_nil (Spec.run_dwell invs file)).
Proof.
  revert file. induction invs as [|[now records] invs IH]; intros file Hs Hd.
  - exact Hd.
  - unfold Spec.run_dwell. cbn [fold_left fst snd].
    apply (IH (Some (fst (update_dwell_tracking now records file)))).
    + unfold Spec.timestamps in Hs. cbn [map List.concat snd] in Hs.
      clear - Hs. induction (map Rec.timestamp records) as [|t ts IHts]; simpl in Hs.
      * exact Hs.
      * apply IHts. now inversion Hs.
    + intros k v' Hin. cbn [or_nil] in Hin.
      apply in_update_fst in Hin as (v & Hin & -> & _).
      exact (tracked_ordered_before records (Spec.timestamps invs) _ Hs Hd k v Hin).
Qed.

(** C8. Over any succession of invocations whose observation timestamps do
    not decrease, from a store whose records are ordered and not newer than
    those timestamps (the empty store for one), every record of the
    persisted store has first-seen no later than last-seen. A key gets a
    record only from an observation on the ground of priority at most 2, and
    the record starts with first-seen and last-seen both at that
    observation's timestamp. A later qualifying observation for the key sets
    last-seen, replaces the callsign only by a non-empty one, and leaves
    first-seen as it is; any other observation leaves the record alone; the
    record written back at the end of the invocation still has the
    first-seen it had at the start. *)
Theorem dwell_first_seen_le_last_seen :
  (forall file invs,
     Spec.ordered_before (Spec.timestamps invs) (or_nil file) ->
     Sorted Z.le (Spec.timestamps invs) ->
     Spec.ordered (or_nil (Spec.run_dwell invs file))) /\
  (forall d r k v',
     Dict.get d k = None -> Dict.get (observe d r) k = Some v' ->
     Rec.on_ground r = Some true /\ Rec.priority r <= 2 /\ k = dwell_key r /\
     Dwell.first_seen v' = Rec.timestamp r /\
     Dwell.last_seen v' = Rec.timestamp r) /\
  (forall d r k v,
     Dict.get d k = Some v ->
     exists v',
       Dict.get (observe d r) k = Some v' /\
       Dwell.first_seen v' = Dwell.first_seen v /\
       (Spec.qualifying r /\ k = dwell_key r ->
        Dwell.last_seen v' = Rec.timestamp r /\
        Dwell.callsign v' =
        if Py.truthy (Rec.callsign r) then Rec.callsign r else Dwell.callsign v) /\
       (~ (Spec.qualifying r /\ k = dwell_key r) -> v' = v)) /\
  (forall now records file k v v',
     Spec.well_keyed (or_nil file) ->
     Dict.get (or_nil file) k = Some v ->
     Dict.get (fst (update_dwell_tracking now records file)) k = Some v' ->
     Dwell.first_seen v' = Dwell.first_seen v).
Proof.
  split; [|split; [|split]].
  - intros file invs Hd Hs k v Hin.
    apply Sorted_StronglySorted in Hs; [|intros x y z; apply Z.le_trans].
    exact (proj1 (run_dwell_ordered_before invs file Hs Hd k v Hin)).
  - intros d r k v' Hnone Hsome.
    destruct (observe_creates d r k v' Hnone Hsome) as ([Hg Hp] & -> & ->).
    simpl. auto.
  - intros d r k v Hg.
    destruct (observe_keeps d r k v Hg) as (v' & Hg' & Hf & _ & _ & _ & _ & Hq & Hn).
    exists v'. auto.
  - intros now records file k v v' Hwk Hg Hg'.
    apply get_in, in_update_fst in Hg' as (v0 & Hin & -> & _).
    destruct (tracked_keeps_first_seen records _ k v Hg) as (v1 & Hg1 & Hf1).
    pose proof (tracked_well_keyed records _ Hwk) as [Hnd _].
    apply (in_get _ _ _ Hnd) in Hin.
    unfold Spec.tracked in Hin. rewrite Hg1 in Hin. inversion Hin; subst.
    exact Hf1.
Qed.

Lemma dwell_first_seen_le_last_seen_witness :
  let obs (t : Z) :=
    Rec.mk t "BGBW" "Narsarsuaq" "RED" "a12345" "N123AB" 61.16%R (-45.43)%R
           (Some 0%R) (Some 0%R) (Some true) 0.1%R true 1 "private_us"
           "US N-number - PRIORITY TARGET" in
  Spec.ordered
    (or_nil (Spec.run_dwell
               [(1000000, [obs 0]); (7201000000, [obs 7200]);
                (18001000000, [obs 18000])] None)).
Proof.
  intros obs.
  apply (proj1 dwell_first_seen_le_last_seen None).
  - intros k v [].
  - unfold Spec.timestamps. simpl. repeat constructor; lia.
Defined.

(** ** C1: eviction *)

Lemma get_filter_map_values {V : Type} (p : V -> bool) (f : V -> V)
      (d : Dict.t V) (k : string) :
  NoDup (Dict.keys d) ->
  Dict.get (Dict.filter_values p (Dict.map_values f d)) k =
  match Dict.get d k with
  | Some v => if p (f v) then Some (f v) else None
  | None => None
  end.
Proof.
  induction d as [|[k0 v0] d IH]; simpl; [reflexivity|].
  intros Hnd. inversion Hnd as [|? ? Hnotin Hnd']; subst.
  destruct (String.eqb_spec k k0) as [->|N].
  - destruct (p (f v0)); simpl.
    + now rewrite String.eqb_refl.
    + apply get_none_not_in. intros H. apply keys_filter_values in H.
      rewrite keys_map_values in H. contradiction.
  - destruct (p (f v0)); simpl.
    + destruct (String.eqb_spec k k0); [contradiction | auto].
    + auto.
Qed.

Lemma get_update_fst (now : Z) (records : list Rec.t)
      (file : option (Dict.t Dwell.t)) (k : string) :
  Spec.well_keyed (or_nil file) ->
  Dict.get (fst (update_dwell_tracking now records file)) k =
  match Dict.get (Spec.tracked records file) k with
  | Some v => if fresh now v then Some (Spec.with_hours v) else None
  | None => None
  end.
Proof.
  intros Hwk. rewrite update_fst.
  apply (get_filter_map_values (fresh now) Spec.with_hours).
  exact (proj1 (tracked_well_keyed records _ Hwk)).
Qed.

(** C1, as the code has it. The observations of an invocation are processed
    first, the dwell alerts are computed next, and the stale records are
    deleted last: what is written back is, key by key, the tracked record if
    its last-seen is less than 48 hours before the invocation time, and
    nothing otherwise. So a qualifying observation for a key that has a
    record, however stale, extends it: the record keeps its first-seen and
    gets the observation's timestamp as last-seen, and it is written back if
    that timestamp is within the 48 hours. A record whose first-seen is the
    observation's timestamp is created when the key has no record. The
    alerts are those of the long stays among all tracked records, whatever
    the invocation time: a long stay at BGBW that the invocation deletes as
    stale still gives its alert in that invocation. *)
Theorem eviction_follows_update (now : Z) (file : option (Dict.t Dwell.t)) :
  Spec.well_keyed (or_nil file) ->
  (forall records k,
     Dict.get (fst (update_dwell_tracking now records file)) k =
     match Dict.get (Spec.tracked records file) k with
     | Some v =>
         if now - 48 * 3600 * 1000000 <? Dwell.last_seen v * 1000000
         then Some (Spec.with_hours v) else None
     | None => None
     end) /\
  (forall r old,
     Spec.qualifying r ->
     Dict.get (or_nil file) (dwell_key r) = Some old ->
     now - 48 * 3600 * 1000000 < Rec.timestamp r * 1000000 ->
     exists v,
       Dict.get (fst (update_dwell_tracking now [r] file)) (dwell_key r) = Some v /\
       Dwell.first_seen v = Dwell.first_seen old /\
       Dwell.last_seen v = Rec.timestamp r) /\
  (forall r,
     Spec.qualifying r ->
     Dict.get (or_nil file) (dwell_key r) = None ->
     now - 48 * 3600 * 1000000 < Rec.timestamp r * 1000000 ->
     exists v,
       Dict.get (fst (update_dwell_tracking now [r] file)) (dwell_key r) = Some v /\
       Dwell.first_seen v = Rec.timestamp r /\
       Dwell.last_seen v = Rec.timestamp r) /\
  (forall records,
     snd (update_dwell_tracking now records file) =
     map (fun v => extended_dwell_alert (dwell_hours_of v) (Spec.with_hours v))
         (filter Spec.long_stay (Dict.values (Spec.tracked records file)))) /\
  (forall records k v,
     Dict.get (Spec.tracked records file) k = Some v ->
     Dwell.airport_icao v = "BGBW" ->
     4 * 3600 <= Dwell.last_seen v - Dwell.first_seen v ->
     Dwell.last_seen v * 1000000 <= now - 48 * 3600 * 1000000 ->
     Dict.get (fst (update_dwell_tracking now records file)) k = None /\
     In (extended_dwell_alert (dwell_hours_of v) (Spec.with_hours v))
        (snd (update_dwell_tracking now records file))).
Proof.
  intros Hwk. split; [|split; [|split; [|split]]].
  - intros records k. rewrite (get_update_fst _ _ _ _ Hwk).
    destruct (Dict.get (Spec.tracked records file) k) as [v|]; [|reflexivity].
    unfold fresh, RETENTION_US. now rewrite Z.gtb_ltb.
  - intros r old Hq Hg Hrecent. rewrite (get_update_fst _ _ _ _ Hwk).
    unfold Spec.tracked. cbn [fold_left].
    rewrite (observe_update _ _ _ Hq Hg), get_set_same.
    unfold fresh, RETENTION_US. cbn [Dwell.last_seen].
    rewrite Z.gtb_ltb. destruct (Z.ltb_spec (now - 48 * 3600 * 1000000)
                                   (Rec.timestamp r * 1000000)); [|lia].
    eexists. split; [reflexivity|]. split; reflexivity.
  - intros r Hq Hg Hrecent. rewrite (get_update_fst _ _ _ _ Hwk).
    unfold Spec.tracked. cbn [fold_left].
    rewrite (observe_new _ _ Hq Hg), get_set_same.
    unfold fresh, RETENTION_US, Spec.created. cbn [Dwell.last_seen].
    rewrite Z.gtb_ltb. destruct (Z.ltb_spec (now - 48 * 3600 * 1000000)
                                   (Rec.timestamp r * 1000000)); [|lia].
    eexists. split; [reflexivity|]. split; reflexivity.
  - intros records. apply update_snd.
  - intros records k v Hg Hair Hlong Hstale. split.
    + rewrite (get_update_fst _ _ _ _ Hwk), Hg.
      unfold fresh, RETENTION_US. rewrite Z.gtb_ltb.
      destruct (Z.ltb_spec (now - 48 * 3600 * 1000000)
                  (Dwell.last_seen v * 1000000)); [lia | reflexivity].
    + rewrite update_snd.
      apply (in_map (fun v0 => extended_dwell_alert (dwell_hours_of v0)
                                 (Spec.with_hours v0))).
      apply filter_In. split.
      * unfold Dict.values. apply in_map_iff. exists (k, v).
        split; [reflexivity | now apply get_in].
      * unfold Spec.long_stay, Spec.dwell_seconds.
        apply andb_true_iff. split; [now apply Z.leb_le | now apply String.eqb_eq].
Qed.

Lemma eviction_follows_update_witness :
  let old := Dwell.mk "a12345" "N123AB" "Narsarsuaq" "BGBW" 0 18000
               "private_us" (Some 5%R) in
  let obs := Rec.mk 194400 "BGBW" "Narsarsuaq" "RED" "a12345" "N123AB"
               61.16%R (-45.43)%R (Some 0%R) (Some 0%R) (Some true) 0.1%R true
               1 "private_us" "US N-number - PRIORITY TARGET" in
  (exists v,
     Dict.get (fst (update_dwell_tracking 194400250000 [obs]
                      (Some [("a12345_BGBW", old)]))) (dwell_key obs) = Some v /\
     Dwell.first_seen v = Dwell.first_seen old /\
     Dwell.last_seen v = Rec.timestamp obs) /\
  Dict.get (fst (update_dwell_tracking 194400250000 []
                   (Some [("a12345_BGBW", old)]))) "a12345_BGBW" = None /\
  In (extended_dwell_alert (dwell_hours_of old) (Spec.with_hours old))
     (snd (update_dwell_tracking 194400250000 []
             (Some [("a12345_BGBW", old)]))).
Proof.
  intros old obs.
  assert (Hwk : Spec.well_keyed (or_nil (Some [("a12345_BGBW", old)]))).
  { split.
    - repeat constructor. intros [].
    - intros k v [E|[]]. now inversion E. }
  split.
  - refine (proj1 (proj2 (eviction_follows_update 194400250000 _ Hwk)) obs old _ _ _).
    + split; [reflexivity | simpl; lia].
    + reflexivity.
    + simpl. lia.
  - refine (proj2 (proj2 (proj2 (proj2
              (eviction_follows_update 194400250000 _ Hwk))))
              [] "a12345_BGBW" old _ _ _ _).
    + reflexivity.
    + reflexivity.
    + simpl. lia.
    + simpl. lia.
Defined.

(** C1, refuted as stated. A record last seen at 18000 s is more than
    48 hours stale when the script runs at 194400.25 s; the qualifying
    observation of that run, stamped 194400 s, does not start a fresh record:
    the record written back still has first-seen 0, not 194400. *)
Lemma stale_record_extended_not_replaced :
  let old := Dwell.mk "a12345" "N123AB" "Narsarsuaq" "BGBW" 0 18000
               "private_us" (Some 5%R) in
  let obs := Rec.mk 194400 "BGBW" "Narsarsuaq" "RED" "a12345" "N123AB"
               61.16%R (-45.43)%R (Some 0%R) (Some 0%R) (Some true) 0.1%R true
               1 "private_us" "US N-number - PRIORITY TARGET" in
  let now := 194400250000 in
  Dwell.last_seen old * 1000000 < now - 48 * 3600 * 1000000 /\
  Spec.qualifying obs /\
  dwell_key obs = "a12345_BGBW" /\
  exists v,
    Dict.get (fst (update_dwell_tracking now [obs] (Some [("a12345_BGBW", old)])))
             "a12345_BGBW" = Some v /\
    Dwell.first_seen v = 0 /\
    Dwell.last_seen v = 194400 /\
    Dwell.first_seen v <> Rec.timestamp obs.
Proof.
  intros old obs now.
  assert (Hq : Spec.qualifying obs) by (split; [reflexivity | simpl; lia]).
  split; [simpl; lia|]. split; [exact Hq|]. split; [reflexivity|].
  assert (Hwk : Spec.well_keyed (or_nil (Some [("a12345_BGBW", old)]))).
  { split.
    - repeat constructor. intros [].
    - intros k v [E|[]]. now inversion E. }
  pose proof (get_update_fst now [obs] (Some [("a12345_BGBW", old)])
                (dwell_key obs) Hwk) as H.
  unfold Spec.tracked in H. cbn [fold_left or_nil] in H.
  assert (Hg : Dict.get [("a12345_BGBW", old)] (dwell_key obs) = Some old)
    by reflexivity.
  rewrite (observe_update _ obs old Hq Hg), get_set_same in H.
  change (dwell_key obs) with "a12345_BGBW" in H.
  eexists. split; [exact H|]. simpl. repeat split; lia.
Qed.

(** ** C3: extended-dwell alerts *)

Lemma filter_key_absent (d : Dict.t Dwell.t) (key : string) :
  (forall k v, In (k, v) d -> k = Spec.key_of v) ->
  ~ In key (Dict.keys d) ->
  filter (fun v => (Spec.key_of v =? key)%string) (Dict.values d) = [].
Proof.
  induction d as [|[k0 v0] d IH]; simpl; [reflexivity|].
  intros Hk Hnotin.
  destruct (String.eqb_spec (Spec.key_of v0) key) as [E|N].
  - exfalso. apply Hnotin. left. rewrite <- E. apply Hk. now left.
  - apply IH; [intros k v H; apply Hk; now right | tauto].
Qed.

Lemma filter_key_present (d : Dict.t Dwell.t) (key : string) (data : Dwell.t) :
  Spec.well_keyed d -> Dict.get d key = Some data ->
  filter (fun v => (Spec.key_of v =? key)%string) (Dict.values d) = [data].
Proof.
  intros [Hnd Hk]. induction d as [|[k0 v0] d IH]; simpl; [discriminate|].
  inversion Hnd as [|? ? Hnotin Hnd']; subst.
  assert (Hk0 : k0 = Spec.key_of v0) by (apply Hk; now left).
  assert (Hk' : forall k v, In (k, v) d -> k = Spec.key_of v)
    by (intros k v H; apply Hk; now right).
  destruct (String.eqb_spec key k0) as [->|N].
  - intros [= ->]. rewrite <- Hk0, String.eqb_refl.
    now rewrite (filter_key_absent d k0 Hk' Hnotin).
  - intros Hg. destruct (String.eqb_spec (Spec.key_of v0) key) as [E|_];
      [congruence | auto].
Qed.

Lemma filter_comm {A : Type} (p q : A -> bool) (l : list A) :
  filter p (filter q l) = filter q (filter p l).
Proof.
  induction l as [|x l IH]; simpl; [reflexivity|].
  destruct (p x) eqn:Ep, (q x) eqn:Eq; simpl; rewrite ?Ep, ?Eq, IH; reflexivity.
Qed.

Lemma filter_map_comm {A B : Type} (p : B -> bool) (f : A -> B) (l : list A) :
  filter p (map f l) = map f (filter (fun x => p (f x)) l).
Proof.
  induction l as [|x l IH]; simpl; [reflexivity|].
  destruct (p (f x)); simpl; now rewrite IH.
Qed.

Lemma long_stay_iff (v : Dwell.t) :
  Spec.long_stay v = true <->
  4 * 3600 <= Dwell.last_seen v - Dwell.first_seen v /\
  Dwell.airport_icao v = "BGBW".
Proof.
  unfold Spec.long_stay, Spec.dwell_seconds.
  rewrite andb_true_iff, Z.leb_le, String.eqb_eq. reflexivity.
Qed.

(** The alerts of the second loop about one key: one for a long stay, none
    otherwise. *)
Lemma alerts_about_key (d : Dict.t Dwell.t) (key : string) (data : Dwell.t) :
  Spec.well_keyed d -> Dict.get d key = Some data ->
  filter (Spec.alert_about key) (snd (flag_long_stays d)) =
  if Spec.long_stay data
  then [extended_dwell_alert (dwell_hours_of data) (Spec.with_hours data)]
  else [].
Proof.
  intros Hwk Hg. rewrite flag_long_stays_snd, filter_map_comm.
  replace (filter _ (filter Spec.long_stay (Dict.values d)))
    with (filter Spec.long_stay
            (filter (fun v => (Spec.key_of v =? key)%string) (Dict.values d))).
  - rewrite (filter_key_present d key data Hwk Hg). simpl.
    destruct (Spec.long_stay data); reflexivity.
  - rewrite filter_comm. reflexivity.
Qed.

(** C3. In every invocation, each tracked record at Narsarsuaq (BGBW) whose
    last-seen is at least 4 hours after its first-seen yields exactly one
    alert of that invocation, of type EXTENDED_DWELL and of level HIGH, and
    every alert the tracker returns is such a one. Nothing of an earlier
    invocation suppresses it: a record the invocation writes back that
    satisfies the condition yields the alert again in the next invocation,
    also when that invocation brings no observation. *)
Theorem extended_dwell_alert_each_invocation
        (now : Z) (records : list Rec.t) (file : option (Dict.t Dwell.t)) :
  Spec.well_keyed (or_nil file) ->
  let alerts := snd (update_dwell_tracking now records file) in
  let store := fst (update_dwell_tracking now records file) in
  (forall key data,
     Dict.get (Spec.tracked records file) key = Some data ->
     Dwell.airport_icao data = "BGBW" ->
     4 * 3600 <= Dwell.last_seen data - Dwell.first_seen data ->
     exists a,
       filter (Spec.alert_about key) alerts = [a] /\
       Dict.get a "type" = Some (VStr "EXTENDED_DWELL") /\
       Dict.get a "priority" = Some (VStr "HIGH") /\
       Dict.get a "data" = Some (VDwell (Spec.with_hours data))) /\
  (forall a,
     In a alerts ->
     exists data,
       In data (Dict.values (Spec.tracked records file)) /\
       Dwell.airport_icao data = "BGBW" /\
       4 * 3600 <= Dwell.last_seen data - Dwell.first_seen data /\
       a = extended_dwell_alert (dwell_hours_of data) (Spec.with_hours data)) /\
  (forall now' key data,
     Dict.get store key = Some data ->
     Dwell.airport_icao data = "BGBW" ->
     4 * 3600 <= Dwell.last_seen data - Dwell.first_seen data ->
     exists a,
       filter (Spec.alert_about key)
              (snd (update_dwell_tracking now' [] (Some store))) = [a] /\
       Dict.get a "type" = Some (VStr "EXTENDED_DWELL") /\
       Dict.get a "priority" = Some (VStr "HIGH")).
Proof.
  intros Hwk alerts store.
  assert (Hone : forall now0 records0 file0 key data,
             Spec.well_keyed (or_nil file0) ->
             Dict.get (Spec.tracked records0 file0) key = Some data ->
             Dwell.airport_icao data = "BGBW" ->
             4 * 3600 <= Dwell.last_seen data - Dwell.first_seen data ->
             filter (Spec.alert_about key)
                    (snd (update_dwell_tracking now0 records0 file0))
             = [extended_dwell_alert (dwell_hours_of data) (Spec.with_hours data)]).
  { intros now0 records0 file0 key data Hwk0 Hg Ha Hd.
    assert (Hl : Spec.long_stay data = true) by (apply long_stay_iff; auto).
    rewrite update_snd, <- flag_long_stays_snd. unfold Spec.tracked in *.
    rewrite (alerts_about_key _ key data (tracked_well_keyed records0 _ Hwk0) Hg).
    now rewrite Hl. }
  split; [|split].
  - intros key data Hg Ha Hd. eexists. split; [exact (Hone _ _ _ _ _ Hwk Hg Ha Hd)|].
    repeat split; reflexivity.
  - intros a Hin. subst alerts. rewrite update_snd in Hin.
    apply in_map_iff in Hin as (data & <- & Hin).
    apply filter_In in Hin as [Hin Hl]. apply long_stay_iff in Hl as [Hd Ha].
    exists data. auto.
  - intros now' key data Hg Ha Hd. eexists. split.
    + apply (Hone now' [] (Some store) key data).
      * exact (update_well_keyed now records file Hwk).
      * exact Hg.
      * exact Ha.
      * exact Hd.
    + split; reflexivity.
Qed.

Lemma extended_dwell_alert_each_invocation_witness :
  let old := Dwell.mk "a12345" "N123AB" "Narsarsuaq" "BGBW" 0 18000
               "private_us" (Some 5%R) in
  exists a,
    filter (Spec.alert_about "a12345_BGBW")
           (snd (update_dwell_tracking 18900000000 []
                   (Some [("a12345_BGBW", old)]))) = [a] /\
    Dict.get a "priority" = Some (VStr "HIGH").
Proof.
  intros old.
  assert (Hwk : Spec.well_keyed (or_nil (Some [("a12345_BGBW", old)]))).
  { split.
    - repeat constructor. intros [].
    - intros k v [E|[]]. now inversion E. }
  destruct (proj1 (extended_dwell_alert_each_invocation 18900000000 []
                     (Some [("a12345_BGBW", old)]) Hwk) "a12345_BGBW" old)
    as (a & Ha & _ & Hp & _).
  - reflexivity.
  - reflexivity.
  - simpl. lia.
  - exists a. auto.
Defined.

(** ** The invocation: what leaves the alert file alone *)

Lemma frame_refl (w : World.t) : Spec.frame w w.
Proof. split; [reflexivity|]. exists []. now rewrite app_nil_r. Qed.

Lemma frame_trans (w1 w2 w3 : World.t) :
  Spec.frame w1 w2 -> Spec.frame w2 w3 -> Spec.frame w1 w3.
Proof.
  intros [Ha (e1 & Ht1 & Hq1)] [Hb (e2 & Ht2 & Hq2)]. split; [congruence|].
  exists (e1 ++ e2)%list. split.
  - now rewrite Ht2, Ht1, app_assoc.
  - now apply Forall_app.
Qed.

Lemma runs_ret {A : Type} (a : A) (P : A -> Prop) : P a -> Spec.runs (ret a) P.
Proof. intros H w. exists a, w. split; [reflexivity|]. split; [apply frame_refl | exact H]. Qed.

Lemma runs_bind {A B : Type} (m : M A) (f : A -> M B) (P : A -> Prop)
      (Q : B -> Prop) :
  Spec.runs m P -> (forall a, P a -> Spec.runs (f a) Q) -> Spec.runs (bind m f) Q.
Proof.
  intros Hm Hf w. destruct (Hm w) as (a & w1 & E1 & F1 & Pa).
  destruct (Hf a Pa w1) as (b & w2 & E2 & F2 & Qb).
  exists b, w2. unfold bind. rewrite E1, E2.
  split; [reflexivity|]. split; [exact (frame_trans _ _ _ F1 F2) | exact Qb].
Qed.

Lemma runs_weaken {A : Type} (m : M A) (P Q : A -> Prop) :
  Spec.runs m P -> (forall a, P a -> Q a) -> Spec.runs m Q.
Proof.
  intros Hm HPQ w. destruct (Hm w) as (a & w1 & E1 & F1 & Pa). exists a, w1. auto.
Qed.

Lemma runs_emit (e : io) : Spec.quiet e -> Spec.runs (emit e) (fun _ => True).
Proof.
  intros Hq w. eexists tt, _. split; [reflexivity|]. split; [|exact I].
  split; [reflexivity|]. exists [e]. split; [reflexivity|]. now constructor.
Qed.

Lemma runs_utcnow : Spec.runs utcnow (fun _ => True).
Proof.
  intros w. eexists _, _. split; [reflexivity|]. split; [|exact I].
  split; [reflexivity|]. exists []. simpl. now rewrite app_nil_r.
Qed.

Lemma runs_pure {A : Type} (g : World.t -> A) :
  Spec.runs (fun w => (w, inr (g w))) (fun _ => True).
Proof.
  intros w. exists (g w), w. split; [reflexivity|]. split; [apply frame_refl | exact I].
Qed.

Lemma runs_exists_arrivals : Spec.runs exists_arrivals (fun _ => True).
Proof.
  apply (runs_bind _ _ (fun _ => True)); [apply runs_emit; discriminate|].
  intros _ _. apply runs_pure.
Qed.

Lemma runs_exists_dwell : Spec.runs exists_dwell (fun _ => True).
Proof.
  apply (runs_bind _ _ (fun _ => True)); [apply runs_emit; discriminate|].
  intros _ _. apply runs_pure.
Qed.

Lemma runs_read_dwell : Spec.runs read_dwell (fun _ => True).
Proof.
  apply (runs_bind _ _ (fun _ => True)); [apply runs_emit; discriminate|].
  intros _ _. apply runs_pure.
Qed.

Lemma runs_write_dwell (d : Dict.t Dwell.t) : Spec.runs (write_dwell d) (fun _ => True).
Proof.
  apply (runs_bind _ _ (fun _ => True)); [apply runs_emit; discriminate|].
  intros _ _ w. eexists tt, _. split; [reflexivity|]. split; [|exact I].
  split; [reflexivity|]. exists []. simpl. now rewrite app_nil_r.
Qed.

Lemma runs_append_arrivals (rs : list Rec.t) :
  Spec.runs (append_arrivals rs) (fun _ => True).
Proof.
  apply (runs_bind _ _ (fun _ => True)); [apply runs_emit; discriminate|].
  intros _ _ w. eexists tt, _. split; [reflexivity|]. split; [|exact I].
  split; [reflexivity|]. exists []. simpl. now rewrite app_nil_r.
Qed.

Lemma runs_save_records (records : list Rec.t) :
  Spec.runs (save_records records) (fun _ => True).
Proof.
  destruct records as [|r rs]; simpl; [now apply runs_ret|].
  apply (runs_bind _ _ (fun _ => True)); [apply runs_exists_arrivals|].
  intros _ _. apply runs_append_arrivals.
Qed.

Lemma runs_update_dwell_tracking_io (records : list Rec.t) :
  Spec.runs (update_dwell_tracking_io records) (fun _ => True).
Proof.
  unfold update_dwell_tracking_io.
  apply (runs_bind _ _ (fun _ => True)); [apply runs_exists_dwell|].
  intros present _.
  apply (runs_bind _ _ (fun _ => True)).
  { destruct present; [|now apply runs_ret].
    apply (runs_bind _ _ (fun _ => True)); [apply runs_read_dwell|].
    intros; now apply runs_ret. }
  intros file _.
  apply (runs_bind _ _ (fun _ => True)); [apply runs_utcnow|].
  intros current_time _.
  destruct (update_dwell_tracking current_time records file) as [dwell_data alerts].
  apply (runs_bind _ _ (fun _ => True)); [apply runs_write_dwell|].
  intros; now apply runs_ret.
Qed.

Lemma runs_generate_map : Spec.runs generate_map (fun _ => True).
Proof.
  unfold generate_map.
  apply (runs_bind _ _ (fun _ => True)); [apply runs_exists_arrivals|].
  intros has_arrivals _.
  apply (runs_bind _ _ (fun _ => True)).
  { destruct has_arrivals; [|now apply runs_ret].
    apply (runs_bind _ _ (fun _ => True)); [apply runs_emit; discriminate|].
    intros _ _. apply (runs_bind _ _ (fun _ => True)); [apply runs_utcnow|].
    intros; now apply runs_ret. }
  intros _ _.
  apply (runs_bind _ _ (fun _ => True)); [apply runs_exists_dwell|].
  intros has_dwell _.
  apply (runs_bind _ _ (fun _ => True)).
  { destruct has_dwell; [|now apply runs_ret].
    apply (runs_bind _ _ (fun _ => True)); [apply runs_read_dwell|].
    intros; now apply runs_ret. }
  intros _ _.
  apply (runs_bind _ _ (fun _ => True)); [apply runs_utcnow|].
  intros _ _. apply runs_emit. discriminate.
Qed.

(** The polling loops never raise: the vectors they process passed the
    filter of [fetch_airport_traffic], and the airports polled are
    registered. *)
Lemma process_aircraft_returns (now : Z) (state : State.t) (icao : string)
      (airport : Airport.t) :
  Dict.get CHOKE_POINTS icao = Some airport -> Spec.has_position state ->
  exists record, process_aircraft now state icao = inr record /\
                 Rec.airport_icao record = icao.
Proof.
  intros Ha [Hlat Hlon]. unfold process_aircraft. rewrite Ha.
  destruct (State.lat state) as [lat|]; [|congruence].
  destruct (State.lon state) as [lon|]; [|congruence].
  destruct (classify_aircraft _ _) as [[priority classification] notes].
  eexists. split; reflexivity.
Qed.

Lemma generate_priority_alert_returns (record : Rec.t) (airport : Airport.t) :
  Dict.get CHOKE_POINTS (Rec.airport_icao record) = Some airport ->
  exists alert, generate_priority_alert record = inr alert.
Proof.
  intros Ha. unfold generate_priority_alert. rewrite Ha.
  destruct (_ && _); [eauto|]. destruct (_ =? 1); [eauto|].
  destruct (_ && _); eauto.
Qed.

Lemma runs_process_states (icao : string) (airport : Airport.t)
      (states : list State.t) (acc : list Rec.t * list Alert) :
  Dict.get CHOKE_POINTS icao = Some airport ->
  Forall Spec.has_position states ->
  Spec.runs (process_states icao states acc) (fun _ => True).
Proof.
  intros Ha Hs. revert acc.
  induction Hs as [|state rest Hpos Hrest IH]; intros acc; simpl.
  - now apply runs_ret.
  - apply (runs_bind _ _ (fun _ => True)); [apply runs_utcnow|].
    intros now _.
    destruct (process_aircraft_returns now state icao airport Ha Hpos)
      as (record & -> & Hicao).
    apply (runs_bind _ _ (fun r => r = record)); [now apply runs_ret|].
    intros ? ->.
    destruct (generate_priority_alert_returns record airport) as (alert & ->);
      [now rewrite Hicao|].
    apply (runs_bind _ _ (fun _ => True)); [now apply runs_ret|].
    intros alert' _. destruct acc as [all_records all_alerts]. apply IH.
Qed.

Lemma fetch_has_position (response : option (list State.t)) (icao : string)
      (radius_km : R) (states : list State.t) :
  fetch_airport_traffic response icao radius_km = Some states ->
  Forall Spec.has_position states.
Proof.
  unfold fetch_airport_traffic.
  destruct (Dict.get CHOKE_POINTS icao) as [airport|]; [|intros [= <-]; constructor].
  destruct response as [raw|]; [|discriminate]. intros [= <-].
  apply Forall_forall. intros state Hin. apply filter_In in Hin as [_ H].
  unfold Spec.has_position.
  destruct (State.lon state), (State.lat state); try discriminate.
  split; discriminate.
Qed.

Lemma runs_poll (responses : string -> option (list State.t))
      (icaos : list string) (acc : list Rec.t * list Alert) :
  Forall (fun icao => Dict.get CHOKE_POINTS icao <> None) icaos ->
  Spec.runs (poll responses icaos acc) (fun _ => True).
Proof.
  intros H. revert acc.
  induction H as [|icao rest Hicao Hrest IH]; intros acc; cbn [poll].
  - now apply runs_ret.
  - destruct (Dict.get CHOKE_POINTS icao) as [airport|] eqn:Ha; [|congruence].
    destruct (fetch_airport_traffic (responses icao) icao
                (Airport.monitoring_radius_km airport))
      as [[|state states]|] eqn:Hf; try apply IH.
    apply (runs_bind _ _ (fun _ => True)).
    + apply (runs_process_states icao airport); [exact Ha|].
      exact (fetch_has_position _ _ _ _ Hf).
    + intros acc' _. apply IH.
Qed.

Lemma runs_collect_alerts (responses : string -> option (list State.t)) :
  Spec.runs (collect_alerts responses) (fun _ => True).
Proof.
  unfold collect_alerts.
  apply (runs_bind _ _ (fun _ => True)); [apply runs_utcnow|]. intros _ _.
  apply (runs_bind _ _ (fun _ => True)).
  { apply runs_poll. repeat constructor; discriminate. }
  intros [all_records all_alerts] _.
  apply (runs_bind _ _ (fun _ => True)); [apply runs_save_records|]. intros _ _.
  apply (runs_bind _ _ (fun _ => True)); [apply runs_update_dwell_tracking_io|].
  intros dwell_alerts _. now apply runs_ret.
Qed.

(** ** C5 and C10: the alert store *)

Lemma last_n_length {A : Type} (n : nat) (l : list A) :
  (List.length (last_n n l) <= n)%nat.
Proof. unfold last_n. rewrite length_skipn. lia. Qed.

Lemma last_n_short {A : Type} (n : nat) (l : list A) :
  (List.length l <= n)%nat -> last_n n l = l.
Proof.
  intros H. unfold last_n. replace (List.length l - n)%nat with 0%nat by lia.
  reflexivity.
Qed.

Lemma last_n_suffix {A : Type} (n : nat) (l : list A) :
  l = (firstn (List.length l - n) l ++ last_n n l)%list.
Proof. unfold last_n. now rewrite firstn_skipn. Qed.

(** The block that saves the alerts, when there is one to save: the file
    then holds the last 100 of the old entries followed by the new ones,
    whether or not the summary that follows raises. *)
Lemma save_alerts_store (all_alerts : list Alert) (w : World.t) :
  all_alerts <> [] ->
  World.alerts (fst (save_alerts all_alerts w)) =
  Some (last_n 100 (alert_store w ++ map alert_clean all_alerts)%list).
Proof.
  intros Hne. destruct all_alerts as [|a rest]; [congruence|].
  unfold save_alerts, alert_store.
  destruct w as [arrivals alerts dwell clock trace].
  destruct alerts as [existing|]; cbn; destruct (print_alerts (a :: rest));
    reflexivity.
Qed.

(** The summary printed after the file is written subscripts [emoji] and
    [level], which an extended-dwell alert does not have: a run that reaches
    it with such an alert ends there with a [KeyError]. *)
Lemma print_alerts_extended_dwell (dwell_hours : R) (data : Dwell.t)
      (rest : list Alert) :
  print_alerts (extended_dwell_alert dwell_hours data :: rest)
  = inl (KeyError "emoji").
Proof. reflexivity. Qed.

(** What one invocation does to the alert store. *)
Lemma invoke_alert_store (responses : string -> option (list State.t))
      (w : World.t) :
  exists all_alerts w1,
    collect_alerts responses w = (w1, inr all_alerts) /\
    match all_alerts with
    | [] => Spec.frame w (invoke responses w)
    | _ => alert_store (invoke responses w) =
           last_n 100 (alert_store w ++ map alert_clean all_alerts)%list
    end.
Proof.
  destruct (runs_collect_alerts responses w) as (all_alerts & w1 & E1 & F1 & _).
  exists all_alerts, w1. split; [exact E1|].
  unfold invoke, main, bind. rewrite E1.
  destruct all_alerts as [|a rest].
  - cbn [save_alerts ret].
    destruct (runs_generate_map w1) as ([] & w2 & E2 & F2 & _). rewrite E2.
    exact (frame_trans _ _ _ F1 F2).
  - pose proof (save_alerts_store (a :: rest) w1) as Hs.
    assert (Hw1 : alert_store w1 = alert_store w)
      by (unfold alert_store; now rewrite (proj1 F1)).
    rewrite Hw1 in Hs.
    destruct (save_alerts (a :: rest) w1) as [w2 [e|[]]]; cbn [fst] in *.
    + unfold alert_store. rewrite Hs; [reflexivity | discriminate].
    + destruct (runs_generate_map w2) as ([] & w3 & E3 & F3 & _). rewrite E3.
      cbn [fst]. unfold alert_store at 1. rewrite (proj1 F3), Hs;
        [reflexivity | discriminate].
Qed.

Lemma invocations_snoc (inputs : list (string -> option (list State.t)))
      (responses : string -> option (list State.t)) (w : World.t) :
  invocations (inputs ++ [responses]) w = invoke responses (invocations inputs w).
Proof. unfold invocations. now rewrite fold_left_app. Qed.

Lemma invoke_keeps_cap (responses : string -> option (list State.t))
      (w : World.t) :
  (List.length (alert_store w) <= 100)%nat ->
  (List.length (alert_store (invoke responses w)) <= 100)%nat.
Proof.
  intros H. destruct (invoke_alert_store responses w) as ([|a rest] & w1 & _ & Hs).
  - unfold alert_store. now rewrite (proj1 Hs).
  - rewrite Hs. apply last_n_length.
Qed.

Lemma invocations_keep_cap (inputs : list (string -> option (list State.t)))
      (w : World.t) :
  (List.length (alert_store w) <= 100)%nat ->
  (List.length (alert_store (invocations inputs w)) <= 100)%nat.
Proof.
  revert w. induction inputs as [|responses inputs IH]; intros w H; simpl.
  - exact H.
  - apply IH. now apply invoke_keeps_cap.
Qed.

(** C5. Starting from an empty alert store, after any number of invocations
    the persisted alert list has at most 100 entries; the next invocation
    leaves the last 100 entries of the old list followed by its new alerts
    (with their [record] field removed). What is kept is the end of that
    sequence and has 100 entries, or all of them when there are fewer, so
    what is dropped is its leading part, the oldest entries, and no more
    than needed; when the invocation has at most 100 new alerts all of them
    are kept, after the entries kept of the old list. *)
Theorem alert_store_capped (w0 : World.t)
        (inputs : list (string -> option (list State.t))) :
  alert_store w0 = [] ->
  let w := invocations inputs w0 in
  (List.length (alert_store w) <= 100)%nat /\
  forall responses,
  exists all_alerts w1 dropped,
    collect_alerts responses w = (w1, inr all_alerts) /\
    alert_store (invoke responses w) =
    last_n 100 (alert_store w ++ map alert_clean all_alerts)%list /\
    (alert_store w ++ map alert_clean all_alerts)%list =
    (dropped ++ alert_store (invoke responses w))%list /\
    (List.length (alert_store (invoke responses w)) <= 100)%nat /\
    List.length (alert_store (invoke responses w)) =
    Nat.min 100 (List.length (alert_store w) + List.length all_alerts) /\
    ((List.length all_alerts <= 100)%nat ->
     exists kept,
       alert_store w = (dropped ++ kept)%list /\
       alert_store (invoke responses w) =
       (kept ++ map alert_clean all_alerts)%list).
Proof.
  intros Hempty w.
  assert (Hcap : (List.length (alert_store w) <= 100)%nat).
  { apply invocations_keep_cap. rewrite Hempty. simpl. lia. }
  split; [exact Hcap|]. intros responses.
  destruct (invoke_alert_store responses w) as (all_alerts & w1 & E1 & Hs).
  assert (Hstore : alert_store (invoke responses w) =
                   last_n 100 (alert_store w ++ map alert_clean all_alerts)%list).
  { destruct all_alerts as [|a rest]; [|exact Hs].
    simpl. rewrite app_nil_r, (last_n_short _ _ Hcap).
    unfold alert_store. now rewrite (proj1 Hs). }
  exists all_alerts, w1,
    (firstn (List.length (alert_store w ++ map alert_clean all_alerts)%list - 100)
            (alert_store w ++ map alert_clean all_alerts)%list).
  split; [exact E1|]. split; [exact Hstore|]. split; [|split; [|split]].
  - rewrite Hstore. apply last_n_suffix.
  - rewrite Hstore. apply last_n_length.
  - rewrite Hstore. unfold last_n.
    rewrite length_skipn, length_app, length_map. lia.
  - intros Hnew. rewrite Hstore. unfold last_n.
    set (n := (List.length (alert_store w ++ map alert_clean all_alerts)%list
               - 100)%nat).
    assert (Hn : (n <= List.length (alert_store w))%nat).
    { unfold n. rewrite length_app, length_map. lia. }
    exists (skipn n (alert_store w)).
    rewrite firstn_app, skipn_app.
    replace (n - List.length (alert_store w))%nat with 0%nat by lia.
    cbn [firstn skipn]. rewrite app_nil_r. split; [|reflexivity].
    symmetry. apply firstn_skipn.
Qed.

(** C10. An invocation that generates no alert leaves the alert file as it
    was and performs no operation on it, neither an existence test nor a
    read nor a write; a list longer than 100 entries therefore stays longer
    than 100. *)
Theorem no_alert_no_access (responses : string -> option (list State.t))
        (w : World.t) :
  snd (collect_alerts responses w) = inr [] ->
  World.alerts (invoke responses w) = World.alerts w /\
  (exists evs,
     World.trace (invoke responses w) = (World.trace w ++ evs)%list /\
     Forall (fun e => io_path e <> ALERTS_FILE) evs) /\
  ((100 < List.length (alert_store w))%nat ->
   (100 < List.length (alert_store (invoke responses w)))%nat).
Proof.
  intros Hnone.
  destruct (invoke_alert_store responses w) as (all_alerts & w1 & E1 & Hs).
  rewrite E1 in Hnone. cbn [snd] in Hnone. inversion Hnone; subst.
  destruct Hs as [Ha Ht]. split; [exact Ha|]. split; [exact Ht|].
  unfold alert_store. now rewrite Ha.
Qed.

Lemma no_alert_no_access_witness :
  let a : Alert := [("level", VStr "HIGH"); ("message", VStr "old entry")] in
  let w := World.mk None (Some (repeat a 101)) None
                    (fun n => Z.of_nat n * 1000000) [] in
  World.alerts (invoke (fun _ => None) w) = Some (repeat a 101) /\
  (100 < List.length (alert_store (invoke (fun _ => None) w)))%nat.
Proof.
  intros a w.
  destruct (no_alert_no_access (fun _ => None) w eq_refl) as (H1 & _ & H3).
  split; [exact H1|]. apply H3. unfold alert_store, w, or_nil, World.alerts.
  rewrite repeat_length. lia.
Defined.

(** ** C2: the mining project reported for a position *)

Section HaversineBounds.
Local Open Scope R_scope.

Lemma sin_lower (y : R) : 0 <= y -> y <= PI -> y - y ^ 3 / 6 <= sin y.
Proof.
  intros H0 H1. destruct (sin_bound y 0 H0 H1) as [H _].
  unfold sin_approx, sin_term in H. simpl in H. lra.
Qed.

Lemma atan_small (t y0 : R) :
  0 < y0 -> y0 < 1 -> 0 <= t -> t <= y0 - y0 ^ 3 / 6 -> atan t <= y0.
Proof.
  intros Hy0 Hy1 Ht Htc.
  destruct (Rle_lt_dec (atan t) y0) as [H|H]; [exact H | exfalso].
  pose proof (atan_bound t) as [_ Hub]. pose proof PI2_1 as Hpi.
  assert (Htan : tan y0 < tan (atan t)) by (apply tan_increasing; lra).
  rewrite tan_atan in Htan.
  assert (Hsin : y0 - y0 ^ 3 / 6 <= sin y0) by (apply sin_lower; lra).
  assert (Hcos : 0 < cos y0) by (apply cos_gt_0; lra).
  assert (Hcos1 : cos y0 <= 1) by apply COS_bound.
  assert (Hsin0 : 0 < sin y0) by (apply sin_gt_0; lra).
  assert (sin y0 <= tan y0).
  { unfold tan. apply (Rmult_le_reg_r (cos y0)); [exact Hcos|].
    unfold Rdiv. rewrite Rmult_assoc, Rinv_l by lra. nra. }
  lra.
Qed.

Lemma atan2_pos_x (y x : R) : 0 < x -> Geo.atan2 y x = atan (y / x).
Proof.
  intros H. unfold Geo.atan2. destruct (Rlt_dec 0 x); [reflexivity | contradiction].
Qed.

Lemma sqrt_le_bound (x c : R) : 0 <= c -> x <= c * c -> sqrt x <= c.
Proof. intros Hc Hx. rewrite <- (sqrt_square c Hc). now apply sqrt_le_1_alt. Qed.

Lemma sqrt_ge_bound (x c : R) : 0 <= c -> c * c <= x -> c <= sqrt x.
Proof. intros Hc Hx. rewrite <- (sqrt_square c Hc). now apply sqrt_le_1_alt. Qed.

(** The distance for a small haversine term [a]: at most 50 km, and positive
    when [a] is. *)
Lemma central_angle_small (a : R) :
  0 <= a -> a <= 1 / 100000 ->
  0 <= 6371 * 2 * Geo.atan2 (sqrt a) (sqrt (1 - a)) <= 50 /\
  (0 < a -> 0 < 6371 * 2 * Geo.atan2 (sqrt a) (sqrt (1 - a))).
Proof.
  intros Ha0 Ha1.
  assert (Hden : 9 / 10 <= sqrt (1 - a)) by (apply sqrt_ge_bound; lra).
  assert (Hnum : sqrt a <= 35 / 10000) by (apply sqrt_le_bound; lra).
  assert (Hnum0 : 0 <= sqrt a) by apply sqrt_pos.
  rewrite atan2_pos_x by lra.
  set (t := sqrt a / sqrt (1 - a)).
  assert (Ht0 : 0 <= t).
  { unfold t. apply Rmult_le_pos; [exact Hnum0|].
    apply Rlt_le, Rinv_0_lt_compat. lra. }
  assert (Ht1 : t <= 35 / 9000).
  { unfold t. apply (Rmult_le_reg_r (sqrt (1 - a))); [lra|].
    unfold Rdiv at 1. rewrite Rmult_assoc, Rinv_l by lra. nra. }
  assert (Hat0 : 0 <= atan t).
  { destruct Ht0 as [Hlt|<-]; [|rewrite atan_0; lra].
    apply Rlt_le. rewrite <- atan_0. now apply atan_increasing. }
  assert (Hat1 : atan t <= 25 / 6371) by (apply atan_small; lra).
  split; [lra|]. intros Hpos.
  assert (0 < sqrt a) by now apply sqrt_lt_R0.
  assert (0 < t).
  { unfold t. apply Rmult_lt_0_compat; [assumption|].
    apply Rinv_0_lt_compat. lra. }
  assert (0 < atan t) by (rewrite <- atan_0; now apply atan_increasing).
  lra.
Qed.

Lemma haversine_same (lat lon : R) : Geo.haversine_km lat lon lat lon = 0.
Proof.
  unfold Geo.haversine_km, Geo.radians.
  replace ((lat - lat) * (PI / 180) / 2) with 0 by lra.
  replace ((lon - lon) * (PI / 180) / 2) with 0 by lra.
  rewrite sin_0.
  replace (0 ^ 2 + cos (lat * (PI / 180)) * cos (lat * (PI / 180)) * 0 ^ 2)
    with 0 by lra.
  rewrite Rminus_0_r, sqrt_0, sqrt_1, atan2_pos_x by lra.
  replace (0 / 1) with 0 by lra. rewrite atan_0. lra.
Qed.

Lemma sin_sqr_le (x : R) : -1 <= x <= 1 -> (sin x) ^ 2 <= x ^ 2.
Proof.
  intros Hx. pose proof PI2_1.
  destruct (Rtotal_order x 0) as [Hneg|[->|Hpos]].
  - assert (0 < sin (- x)) by (apply sin_gt_0; lra).
    assert (sin (- x) < - x) by (apply sin_lt_x; lra).
    rewrite sin_neg in *. nra.
  - rewrite sin_0. lra.
  - assert (0 < sin x) by (apply sin_gt_0; lra).
    assert (sin x < x) by (apply sin_lt_x; lra).
    nra.
Qed.

Lemma sin_sqr_pos (x : R) : -1 <= x <= 1 -> x <> 0 -> 0 < (sin x) ^ 2.
Proof.
  intros Hx Hne. pose proof PI2_1.
  destruct (Rtotal_order x 0) as [Hneg|[->|Hpos]]; [| contradiction |].
  - assert (0 < sin (- x)) by (apply sin_gt_0; lra).
    rewrite sin_neg in *. nra.
  - assert (0 < sin x) by (apply sin_gt_0; lra). nra.
Qed.

(** From the site of Kvanefjeld, Tanbreez is a few kilometres away. *)
Lemma tanbreez_from_kvanefjeld :
  0 < Geo.haversine_km 60.98 (-45.90) 60.95 (-45.95) <= 50.
Proof.
  unfold Geo.haversine_km, Geo.radians.
  pose proof PI_RGT_0 as Hpi0. pose proof PI_4 as Hpi4.
  set (x := (60.95 - 60.98) * (PI / 180) / 2).
  set (y := (-45.95 - -45.90) * (PI / 180) / 2).
  set (c1 := cos (60.98 * (PI / 180))).
  set (c2 := cos (60.95 * (PI / 180))).
  assert (Hx : -1 / 3000 <= x < 0) by (unfold x; lra).
  assert (Hy : -1 / 1800 <= y < 0) by (unfold y; lra).
  assert (Hc1 : 0 < c1 <= 1).
  { split; [apply cos_gt_0; lra | apply COS_bound]. }
  assert (Hc2 : 0 < c2 <= 1).
  { split; [apply cos_gt_0; lra | apply COS_bound]. }
  assert (Hsx : 0 < (sin x) ^ 2 <= x ^ 2).
  { split; [apply sin_sqr_pos; lra | apply sin_sqr_le; lra]. }
  assert (Hsy : 0 <= (sin y) ^ 2 <= y ^ 2).
  { split; [apply pow2_ge_0 | apply sin_sqr_le; lra]. }
  set (a := sin x ^ 2 + c1 * c2 * sin y ^ 2).
  assert (Hcc : 0 <= c1 * c2 <= 1) by nra.
  assert (Ha : 0 < a <= 1 / 100000).
  { unfold a. split; [nra|].
    assert (c1 * c2 * sin y ^ 2 <= sin y ^ 2) by nra.
    assert (x ^ 2 <= 1 / 9000000) by nra.
    assert (y ^ 2 <= 1 / 3240000) by nra.
    lra. }
  destruct (central_angle_small a) as [[_ Hub] Hlb]; [lra | lra |].
  split; [apply Hlb; lra | exact Hub].
Qed.
End HaversineBounds.

(** [find_nearest_mine] reports the first project of the table within the
    threshold, and nothing when no project is within it. *)
Lemma find_mine_in_first (projects : Dict.t Monitor.Project.t)
      (lat lon threshold_km : R) :
  match Monitor.find_mine_in projects lat lon threshold_km with
  | Some (project_id, name, company, dist_km) =>
      exists i info,
        nth_error projects i = Some (project_id, info) /\
        name = Monitor.Project.name info /\
        company = Monitor.Project.company info /\
        dist_km = Spec.project_dist lat lon info /\
        (dist_km <= threshold_km)%R /\
        forall j e, (j < i)%nat -> nth_error projects j = Some e ->
                    (threshold_km < Spec.project_dist lat lon (snd e))%R
  | None =>
      forall e, In e projects ->
                (threshold_km < Spec.project_dist lat lon (snd e))%R
  end.
Proof.
  induction projects as [|[project_id info] rest IH]; simpl.
  - intros e [].
  - fold (Spec.project_dist lat lon info).
    destruct (Geo.leb (Spec.project_dist lat lon info) threshold_km) eqn:E.
    + apply leb_true in E. exists 0%nat, info. repeat split; auto.
      intros j e Hj. lia.
    + apply leb_false in E.
      destruct (Monitor.find_mine_in rest lat lon threshold_km)
        as [[[[pid name] company] d]|].
      * destruct IH as (i & info' & Hi & Hn & Hc & Hd & Hle & Hfirst).
        exists (S i), info'. repeat split; auto.
        intros [|j] e Hj He; simpl in He.
        -- inversion He; subst. exact E.
        -- apply (Hfirst j); [lia | exact He].
      * intros e [<-|Hin]; [exact E | auto].
Qed.

(** C2, where the code departs from it. For a state vector at the site of
    Kvanefjeld (60.98 N, 45.90 W), the record names Tanbreez, the first
    project of the table, and its company as the nearby mine, although
    Kvanefjeld is at distance 0 and Tanbreez strictly farther: the scan stops
    at the first project within 50 km instead of keeping the nearest. *)
Theorem near_mine_is_first_in_range_not_nearest :
  let state := State.mk "a12345" (Some "N123AB") (Some (-45.90)%R)
                 (Some 60.98%R) (Some 300%R) (Some false) (Some 60%R) in
  exists record tanbreez kvanefjeld,
    Monitor.process_state 1700000000 state = Some record /\
    Dict.get Monitor.MINING_PROJECTS "tanbreez" = Some tanbreez /\
    Dict.get Monitor.MINING_PROJECTS "kvanefjeld" = Some kvanefjeld /\
    Monitor.find_nearest_mine 60.98 (-45.90) Monitor.default_threshold_km =
      Some ("tanbreez", "Tanbreez/Kringlerne", "Critical Metals Corp",
            Spec.project_dist 60.98 (-45.90) tanbreez) /\
    Monitor.Rec.near_mine record = Some "Tanbreez/Kringlerne" /\
    Monitor.Rec.near_mine_company record = Some "Critical Metals Corp" /\
    Spec.project_dist 60.98 (-45.90) kvanefjeld = 0%R /\
    (Spec.project_dist 60.98 (-45.90) kvanefjeld
     < Spec.project_dist 60.98 (-45.90) tanbreez)%R.
Proof.
  intros state.
  pose proof tanbreez_from_kvanefjeld as [Hpos Hle].
  assert (Hfind :
    Monitor.find_nearest_mine 60.98 (-45.90) Monitor.default_threshold_km =
    Some ("tanbreez", "Tanbreez/Kringlerne", "Critical Metals Corp",
          Geo.haversine_km 60.98 (-45.90) 60.95 (-45.95))).
  { unfold Monitor.find_nearest_mine, Monitor.MINING_PROJECTS,
      Monitor.default_threshold_km.
    cbn [Monitor.find_mine_in Monitor.Project.lat Monitor.Project.lon
         Monitor.Project.name Monitor.Project.company].
    apply leb_true in Hle. now rewrite Hle. }
  unfold Monitor.process_state. cbn [State.lat State.lon state].
  destruct (Monitor.classify_aircraft _ _) as [classification operator].
  rewrite Hfind.
  eexists _, _, _. split; [reflexivity|].
  split; [reflexivity|]. split; [reflexivity|].
  split; [reflexivity|]. split; [reflexivity|]. split; [reflexivity|].
  unfold Spec.project_dist. cbn [Monitor.Project.lat Monitor.Project.lon].
  rewrite haversine_same. split; [reflexivity | exact Hpos].
Qed.

(** * Further properties of the code *)

(** ** The great-circle distance *)

Section HaversineFacts.
Local Open Scope R_scope.

Lemma haversine_unfold (lat1 lon1 lat2 lon2 : R) :
  Geo.haversine_km lat1 lon1 lat2 lon2 =
  6371 * 2 * Geo.atan2 (sqrt (More.haversine_a lat1 lon1 lat2 lon2))
                       (sqrt (1 - More.haversine_a lat1 lon1 lat2 lon2)).
Proof. reflexivity. Qed.

Lemma sin_half_sqr (x : R) : sin (x / 2) ^ 2 = (1 - cos x) / 2.
Proof.
  replace x with (2 * (x / 2)) at 2 by lra. rewrite cos_2a_sin. lra.
Qed.

Lemma radians_minus (x y : R) :
  Geo.radians (x - y) = Geo.radians x - Geo.radians y.
Proof. unfold Geo.radians. lra. Qed.

(** The haversine term written with the spherical law of cosines. *)
Lemma haversine_a_cosines (lat1 lon1 lat2 lon2 : R) :
  More.haversine_a lat1 lon1 lat2 lon2 =
  (1 - sin (Geo.radians lat1) * sin (Geo.radians lat2)
     - cos (Geo.radians lat1) * cos (Geo.radians lat2)
       * cos (Geo.radians (lon2 - lon1))) / 2.
Proof.
  unfold More.haversine_a. rewrite !sin_half_sqr, radians_minus, cos_minus. lra.
Qed.

Lemma haversine_a_range (lat1 lon1 lat2 lon2 : R) :
  0 <= More.haversine_a lat1 lon1 lat2 lon2 <= 1.
Proof.
  rewrite haversine_a_cosines.
  set (s1 := sin (Geo.radians lat1)). set (s2 := sin (Geo.radians lat2)).
  set (c1 := cos (Geo.radians lat1)). set (c2 := cos (Geo.radians lat2)).
  set (k := cos (Geo.radians (lon2 - lon1))).
  assert (H1 : s1 * s1 + c1 * c1 = 1).
  { unfold s1, c1. pose proof (sin2_cos2 (Geo.radians lat1)) as H.
    unfold Rsqr in H. lra. }
  assert (H2 : s2 * s2 + c2 * c2 = 1).
  { unfold s2, c2. pose proof (sin2_cos2 (Geo.radians lat2)) as H.
    unfold Rsqr in H. lra. }
  assert (Hk : -1 <= k <= 1) by apply COS_bound.
  assert (Hk2 : 0 <= c2 * c2 * ((1 - k) * (1 + k))).
  { apply Rmult_le_pos; [exact (Rle_0_sqr c2) | apply Rmult_le_pos; lra]. }
  pose proof (Rle_0_sqr (s1 - s2)) as Ha.
  pose proof (Rle_0_sqr (c1 - c2 * k)) as Hb.
  pose proof (Rle_0_sqr (s1 + s2)) as Hc.
  pose proof (Rle_0_sqr (c1 + c2 * k)) as Hd.
  unfold Rsqr in Ha, Hb, Hc, Hd.
  split; lra.
Qed.

Lemma haversine_a_sym (lat1 lon1 lat2 lon2 : R) :
  More.haversine_a lat1 lon1 lat2 lon2 = More.haversine_a lat2 lon2 lat1 lon1.
Proof.
  rewrite !haversine_a_cosines.
  replace (Geo.radians (lon1 - lon2)) with (- Geo.radians (lon2 - lon1))
    by (unfold Geo.radians; lra).
  rewrite cos_neg. lra.
Qed.

Lemma atan2_quadrant (y x : R) :
  0 <= y -> 0 <= x -> 0 <= Geo.atan2 y x <= PI / 2.
Proof.
  intros Hy Hx. pose proof PI_RGT_0 as Hpi. unfold Geo.atan2.
  destruct (Rlt_dec 0 x) as [Hpos|Hnpos].
  - assert (Hq : 0 <= y / x).
    { apply Rmult_le_pos; [exact Hy|]. apply Rlt_le, Rinv_0_lt_compat, Hpos. }
    pose proof (atan_bound (y / x)) as [_ Hub]. split; [|lra].
    destruct Hq as [Hq|<-]; [|rewrite atan_0; lra].
    rewrite <- atan_0. apply Rlt_le. now apply atan_increasing.
  - destruct (Rlt_dec x 0); [lra|].
    destruct (Rlt_dec 0 y); [lra|]. destruct (Rlt_dec y 0); lra.
Qed.
End HaversineFacts.

(** X1. The great-circle distance that [haversine_km] returns is the same
    in both directions, is zero from a point to itself, and is never
    negative. (The formula is read over the real numbers; nothing is said
    here of the range of the haversine term, which in floating point can
    exceed 1 for antipodal points.) *)
Theorem haversine_metric_facts (lat1 lon1 lat2 lon2 : R) :
  Geo.haversine_km lat1 lon1 lat2 lon2 = Geo.haversine_km lat2 lon2 lat1 lon1 /\
  Geo.haversine_km lat1 lon1 lat1 lon1 = 0%R /\
  (0 <= Geo.haversine_km lat1 lon1 lat2 lon2)%R.
Proof.
  split; [|split].
  - rewrite !haversine_unfold. now rewrite haversine_a_sym.
  - apply haversine_same.
  - rewrite haversine_unfold.
    pose proof (atan2_quadrant
                  (sqrt (More.haversine_a lat1 lon1 lat2 lon2))
                  (sqrt (1 - More.haversine_a lat1 lon1 lat2 lon2))
                  (sqrt_pos _) (sqrt_pos _)) as [Hlo Hhi].
    apply Rmult_le_pos; [lra | exact Hlo].
Qed.

(** ** Normalisation of callsigns and hex codes *)

Lemma upper_char_idem (c : ascii) : Py.upper_char (Py.upper_char c) = Py.upper_char c.
Proof. destruct c as [[] [] [] [] [] [] [] []]; reflexivity. Qed.

Lemma lower_char_idem (c : ascii) : Py.lower_char (Py.lower_char c) = Py.lower_char c.
Proof. destruct c as [[] [] [] [] [] [] [] []]; reflexivity. Qed.

Lemma upper_lower_char (c : ascii) : Py.upper_char (Py.lower_char c) = Py.upper_char c.
Proof. destruct c as [[] [] [] [] [] [] [] []]; reflexivity. Qed.

Lemma lower_upper_char (c : ascii) : Py.lower_char (Py.upper_char c) = Py.lower_char c.
Proof. destruct c as [[] [] [] [] [] [] [] []]; reflexivity. Qed.

Lemma isspace_upper_char (c : ascii) : Py.isspace (Py.upper_char c) = Py.isspace c.
Proof. destruct c as [[] [] [] [] [] [] [] []]; reflexivity. Qed.

Lemma isspace_lower_char (c : ascii) : Py.isspace (Py.lower_char c) = Py.isspace c.
Proof. destruct c as [[] [] [] [] [] [] [] []]; reflexivity. Qed.

Lemma map_string_compose (f g : ascii -> ascii) (h : ascii -> ascii) (s : string) :
  (forall c, f (g c) = h c) ->
  Py.map_string f (Py.map_string g s) = Py.map_string h s.
Proof. intros H. induction s as [|c s IH]; simpl; [reflexivity|]. now rewrite H, IH. Qed.

Lemma lstrip_map (f : ascii -> ascii) (s : string) :
  (forall c, Py.isspace (f c) = Py.isspace c) ->
  Py.lstrip (Py.map_string f s) = Py.map_string f (Py.lstrip s).
Proof.
  intros H. induction s as [|c s IH]; simpl; [reflexivity|].
  rewrite H. destruct (Py.isspace c); [exact IH | reflexivity].
Qed.

Lemma rstrip_map (f : ascii -> ascii) (s : string) :
  (forall c, Py.isspace (f c) = Py.isspace c) ->
  Py.rstrip (Py.map_string f s) = Py.map_string f (Py.rstrip s).
Proof.
  intros H. induction s as [|c s IH]; simpl; [reflexivity|].
  rewrite IH, H. destruct (Py.rstrip s); simpl; [|reflexivity].
  destruct (Py.isspace c); reflexivity.
Qed.

Lemma strip_map (f : ascii -> ascii) (s : string) :
  (forall c, Py.isspace (f c) = Py.isspace c) ->
  Py.strip (Py.map_string f s) = Py.map_string f (Py.strip s).
Proof. intros H. unfold Py.strip. now rewrite lstrip_map, rstrip_map. Qed.

Lemma rstrip_cons (c : ascii) (s : string) :
  Py.rstrip (String c s) =
  match Py.rstrip s with
  | EmptyString => if Py.isspace c then EmptyString else String c EmptyString
  | t => String c t
  end.
Proof. reflexivity. Qed.

Lemma rstrip_idem (s : string) : Py.rstrip (Py.rstrip s) = Py.rstrip s.
Proof.
  induction s as [|c s IH]; [reflexivity|].
  rewrite (rstrip_cons c s).
  destruct (Py.rstrip s) as [|d t] eqn:E.
  - destruct (Py.isspace c) eqn:Ec; [reflexivity|].
    rewrite (rstrip_cons c EmptyString). simpl. now rewrite Ec.
  - rewrite (rstrip_cons c (String d t)), IH. reflexivity.
Qed.

Lemma lstrip_head (s : string) :
  match Py.lstrip s with
  | String c _ => Py.isspace c = false
  | EmptyString => True
  end.
Proof.
  induction s as [|c s IH]; simpl; [exact I|].
  destruct (Py.isspace c) eqn:E; [exact IH | exact E].
Qed.

Lemma rstrip_head (c : ascii) (s : string) :
  Py.isspace c = false -> exists t, Py.rstrip (String c s) = String c t.
Proof.
  intros H. simpl. destruct (Py.rstrip s); [rewrite H|]; eauto.
Qed.

Lemma strip_idem (s : string) : Py.strip (Py.strip s) = Py.strip s.
Proof.
  unfold Py.strip. pose proof (lstrip_head s) as H.
  destruct (Py.lstrip s) as [|c u]; [reflexivity|].
  destruct (rstrip_head c u H) as [t Ht]. rewrite Ht.
  cbn [Py.lstrip]. rewrite H, <- Ht. apply rstrip_idem.
Qed.

(** The normal form of a callsign is its own normal form; so is that of a
    hex code. *)
Lemma norm_callsign_idem (s : string) :
  Spec.norm_callsign (Some (Spec.norm_callsign (Some s))) = Spec.norm_callsign (Some s).
Proof.
  unfold Spec.norm_callsign, Py.or_empty, Py.upper.
  rewrite (strip_map Py.upper_char) by apply isspace_upper_char.
  rewrite strip_idem. apply map_string_compose, upper_char_idem.
Qed.

Lemma norm_callsign_strip (s : string) :
  Spec.norm_callsign (Some (Py.strip s)) = Spec.norm_callsign (Some s).
Proof. unfold Spec.norm_callsign, Py.or_empty. now rewrite strip_idem. Qed.

Lemma norm_callsign_lower (s : string) :
  Spec.norm_callsign (Some (Py.lower s)) = Spec.norm_callsign (Some s).
Proof.
  unfold Spec.norm_callsign, Py.or_empty, Py.upper, Py.lower.
  rewrite (strip_map Py.lower_char) by apply isspace_lower_char.
  apply map_string_compose, upper_lower_char.
Qed.

Lemma norm_hex_idem (s : string) :
  Spec.norm_hex (Some (Spec.norm_hex (Some s))) = Spec.norm_hex (Some s).
Proof.
  unfold Spec.norm_hex, Py.or_empty, Py.lower.
  apply map_string_compose, lower_char_idem.
Qed.

Lemma norm_hex_upper (s : string) :
  Spec.norm_hex (Some (Py.upper s)) = Spec.norm_hex (Some s).
Proof.
  unfold Spec.norm_hex, Py.or_empty, Py.lower, Py.upper.
  apply map_string_compose, lower_upper_char.
Qed.

Lemma classify_by_norm (c1 c2 h1 h2 : option string) :
  Spec.norm_callsign c1 = Spec.norm_callsign c2 ->
  Spec.norm_hex h1 = Spec.norm_hex h2 ->
  classify_aircraft c1 h1 = classify_aircraft c2 h2 /\
  Monitor.classify_aircraft c1 h1 = Monitor.classify_aircraft c2 h2.
Proof.
  unfold classify_aircraft, Monitor.classify_aircraft.
  fold (Spec.norm_callsign c1) (Spec.norm_callsign c2)
       (Spec.norm_hex h1) (Spec.norm_hex h2).
  intros -> ->. split; reflexivity.
Qed.

(** X2. On ASCII text both classifiers are insensitive to the case of the
    callsign and of the hex code and to blanks around the callsign: for a
    callsign and a hex code made of 7-bit characters, the callsign as
    [process_aircraft] strips it, its lower-case form, its normalised form,
    and an upper-case or normalised hex code all give the classification of
    the original; a missing callsign or hex code counts as the empty
    string. (Outside ASCII the case mappings of Python are not those of the
    embedding, and the property is not claimed.) *)
Theorem classification_ignores_case_and_padding (callsign icao24 : string) :
  More.isascii callsign = true ->
  More.isascii icao24 = true ->
  let c := classify_aircraft (Some callsign) (Some icao24) in
  let m := Monitor.classify_aircraft (Some callsign) (Some icao24) in
  (classify_aircraft (Some (Py.strip callsign)) (Some icao24) = c /\
   classify_aircraft (Some (Py.lower callsign)) (Some (Py.upper icao24)) = c /\
   classify_aircraft (Some (Py.upper (Py.strip callsign)))
                     (Some (Py.lower icao24)) = c /\
   classify_aircraft None None = classify_aircraft (Some "") (Some "")) /\
  (Monitor.classify_aircraft (Some (Py.strip callsign)) (Some icao24) = m /\
   Monitor.classify_aircraft (Some (Py.lower callsign)) (Some (Py.upper icao24)) = m /\
   Monitor.classify_aircraft (Some (Py.upper (Py.strip callsign)))
                             (Some (Py.lower icao24)) = m /\
   Monitor.classify_aircraft None None
   = Monitor.classify_aircraft (Some "") (Some "")).
Proof.
  intros _ _ c m. subst c m.
  pose proof (classify_by_norm (Some (Py.strip callsign)) (Some callsign)
                (Some icao24) (Some icao24) (norm_callsign_strip callsign) eq_refl)
    as [A1 B1].
  pose proof (classify_by_norm (Some (Py.lower callsign)) (Some callsign)
                (Some (Py.upper icao24)) (Some icao24)
                (norm_callsign_lower callsign) (norm_hex_upper icao24))
    as [A2 B2].
  pose proof (classify_by_norm (Some (Py.upper (Py.strip callsign))) (Some callsign)
                (Some (Py.lower icao24)) (Some icao24)
                (norm_callsign_idem callsign) (norm_hex_idem icao24))
    as [A3 B3].
  repeat split; assumption || reflexivity.
Qed.

Lemma classification_ignores_case_and_padding_witness :
  classify_aircraft (Some (Py.strip "  n123ab ")) (Some "A12345")
  = classify_aircraft (Some "  n123ab ") (Some "A12345") /\
  classify_aircraft (Some (Py.lower "  n123ab ")) (Some (Py.upper "A12345"))
  = classify_aircraft (Some "  n123ab ") (Some "A12345") /\
  Monitor.classify_aircraft (Some (Py.upper (Py.strip " fli4 "))) (Some (Py.lower "4B1A2C"))
  = Monitor.classify_aircraft (Some " fli4 ") (Some "4B1A2C").
Proof.
  destruct (classification_ignores_case_and_padding "  n123ab " "A12345"
              eq_refl eq_refl) as [(H1 & H2 & _) _].
  destruct (classification_ignores_case_and_padding " fli4 " "4B1A2C"
              eq_refl eq_refl) as [_ (_ & _ & H3 & _)].
  split; [exact H1|]. split; [exact H2 | exact H3].
Defined.

(** ** The monitor's classifier *)

Lemma first_operator_none (cs : string) (ops : list (string * list string)) :
  Monitor.first_operator cs ops = None <->
  Py.startswith_any cs (List.concat (map snd ops)) = false.
Proof.
  induction ops as [|[operator codes] ops IH]; simpl; [tauto|].
  rewrite startswith_any_app.
  destruct (Py.startswith_any cs codes); simpl; [split; discriminate | exact IH].
Qed.

(** X3. In [greenland_monitor.py] the two-letter operator code RC is tested
    before the military prefixes, so a callsign that starts with RCH, the
    first of the US military prefixes, is classified as scheduled traffic of
    Atlantic Airways, whatever its hex code; the choke-point classifier gives
    the same callsign priority 4, military_us. *)
Theorem monitor_rch_is_scheduled (callsign icao24 : option string) :
  Spec.starts_with_one_of (Spec.norm_callsign callsign) ["RCH"] ->
  Monitor.classify_aircraft callsign icao24 = ("scheduled", "Atlantic_Airways") /\
  classify_aircraft callsign icao24 = (4, "military_us", "US Military").
Proof.
  intros (p & rest & [<-|[]] & H).
  unfold Monitor.classify_aircraft, classify_aircraft.
  fold (Spec.norm_callsign callsign). rewrite H.
  split; [reflexivity | destruct rest; reflexivity].
Qed.

Lemma monitor_rch_is_scheduled_witness :
  Monitor.classify_aircraft (Some "rch871 ") (Some "ae1234")
  = ("scheduled", "Atlantic_Airways") /\
  classify_aircraft (Some "rch871 ") (Some "ae1234")
  = (4, "military_us", "US Military").
Proof.
  apply monitor_rch_is_scheduled.
  exists "RCH", "871". split; [now left | reflexivity].
Defined.

(** X4. The monitor's classifier decides by the first rule that matches: an
    operator code (GRL, GL, ICE, FI, FLI, RC) gives "scheduled"; failing
    that a military prefix gives "military"; failing that a hex code
    starting with a gives "private_us", one starting with c0, c1, c2 or c3
    "private_ca", one starting with 4 "private_eu"; anything else is
    "unknown". *)
Theorem monitor_classify_first_match (callsign icao24 : option string) :
  let cs := Spec.norm_callsign callsign in
  let hex := Spec.norm_hex icao24 in
  let scheduled := Spec.starts_with_one_of cs More.MONITOR_SCHEDULED_CODES in
  let military := Spec.starts_with_one_of cs More.MONITOR_MILITARY_PREFIXES in
  let us := Spec.starts_with_one_of hex ["a"] in
  let ca := Spec.starts_with_one_of hex ["c0"; "c1"; "c2"; "c3"] in
  let eu := Spec.starts_with_one_of hex ["4"] in
  let label := fst (Monitor.classify_aircraft callsign icao24) in
  (scheduled -> label = "scheduled") /\
  (~ scheduled -> military -> label = "military") /\
  (~ scheduled -> ~ military -> us -> label = "private_us") /\
  (~ scheduled -> ~ military -> ~ us -> ca -> label = "private_ca") /\
  (~ scheduled -> ~ military -> ~ us -> ~ ca -> eu -> label = "private_eu") /\
  (~ scheduled -> ~ military -> ~ us -> ~ ca -> ~ eu -> label = "unknown").
Proof.
  intros cs hex scheduled military us ca eu label.
  subst label scheduled military us ca eu. unfold Monitor.classify_aircraft.
  fold (Spec.norm_callsign callsign) (Spec.norm_hex icao24). fold cs hex.
  rewrite <- !startswith_any_iff.
  change More.MONITOR_SCHEDULED_CODES
    with (List.concat (map snd Monitor.SCHEDULED_OPERATORS)).
  change More.MONITOR_MILITARY_PREFIXES with
    (["RCH"; "RRR"; "CNV"; "DUKE"; "REACH"] ++ ["DAF"; "DNK"]
       ++ ["CFC"; "CFF"; "CANFORCE"])%list.
  rewrite !startswith_any_app.
  replace (Py.startswith_any hex ["a"]) with (Py.startswith hex "a")
    by (unfold Py.startswith_any; simpl; now rewrite orb_false_r).
  replace (Py.startswith_any hex ["4"]) with (Py.startswith hex "4")
    by (unfold Py.startswith_any; simpl; now rewrite orb_false_r).
  replace (Py.startswith_any hex ["c0"; "c1"; "c2"; "c3"])
    with (Py.startswith hex "c0" || Py.startswith hex "c1"
          || Py.startswith hex "c2" || Py.startswith hex "c3")
    by (unfold Py.startswith_any; simpl; now rewrite orb_false_r, !orb_assoc).
  destruct (Monitor.first_operator cs Monitor.SCHEDULED_OPERATORS) as [op|] eqn:Hs.
  - assert (Py.startswith_any cs
              (List.concat (map snd Monitor.SCHEDULED_OPERATORS)) = true) as ->.
    { destruct (Py.startswith_any cs _) eqn:E; [reflexivity|].
      apply first_operator_none in E. congruence. }
    repeat split; intros; try reflexivity; exfalso; auto.
  - apply first_operator_none in Hs. rewrite Hs.
    destruct (Py.startswith_any cs ["RCH"; "RRR"; "CNV"; "DUKE"; "REACH"]);
    destruct (Py.startswith_any cs ["DAF"; "DNK"]);
    destruct (Py.startswith_any cs ["CFC"; "CFF"; "CANFORCE"]);
    destruct (Py.startswith hex "a");
    destruct (Py.startswith hex "c0"); destruct (Py.startswith hex "c1");
    destruct (Py.startswith hex "c2"); destruct (Py.startswith hex "c3");
    destruct (Py.startswith hex "4"); simpl;
    repeat split; intros; try reflexivity; try discriminate;
    exfalso; auto.
Qed.

Lemma monitor_classify_first_match_witness :
  fst (Monitor.classify_aircraft (Some "GL123") (Some "a12345")) = "scheduled".
Proof.
  apply (proj1 (monitor_classify_first_match (Some "GL123") (Some "a12345"))).
  exists "GL", "123". split; [simpl; auto | reflexivity].
Defined.

(** ** [analyze.py] *)

(** X5. [identify_hex_registration] answers exactly for the hex codes whose
    first character is a lower-case a, and names the code in its answer; a
    missing or empty code gives [None]. Every code it answers for is one
    both classifiers put in the US block: whatever the callsign, the label
    is scheduled, military or private_us, and it is private_us when the
    callsign has neither a scheduled nor a military prefix. The converse
    fails, since the classifiers lower-case the code first and this function
    does not. *)
Theorem identify_hex_is_case_sensitive (icao24 : string) :
  (Analyze.identify_hex_registration (Some icao24) <> None <->
   exists rest, icao24 = ("a" ++ rest)%string) /\
  (forall answer,
     Analyze.identify_hex_registration (Some icao24) = Some answer ->
     answer = ("US-registered (lookup " ++ icao24 ++ " at hexdb.io)")%string /\
     forall callsign,
       let cs := Spec.norm_callsign callsign in
       In (Spec.label_of (classify_aircraft callsign (Some icao24)))
          ["scheduled"; "military_us"; "military_dk"; "military_ca";
           "private_us"] /\
       In (fst (Monitor.classify_aircraft callsign (Some icao24)))
          ["scheduled"; "military"; "private_us"] /\
       (~ Spec.starts_with_one_of cs SCHEDULED_CALLSIGN_PREFIXES ->
        ~ Spec.starts_with_one_of cs Spec.MILITARY_PREFIXES ->
        classify_aircraft callsign (Some icao24)
        = (1, "private_us", "US N-number - PRIORITY TARGET")) /\
       (~ Spec.starts_with_one_of cs More.MONITOR_SCHEDULED_CODES ->
        ~ Spec.starts_with_one_of cs More.MONITOR_MILITARY_PREFIXES ->
        Monitor.classify_aircraft callsign (Some icao24)
        = ("private_us", "US-registered (N-number)"))) /\
  Analyze.identify_hex_registration None = None /\
  Analyze.identify_hex_registration (Some "") = None /\
  (Analyze.identify_hex_registration (Some "A12345") = None /\
   classify_aircraft None (Some "A12345")
   = (1, "private_us", "US N-number - PRIORITY TARGET")).
Proof.
  assert (Hiff : forall h, Analyze.identify_hex_registration (Some h) <> None <->
                           exists rest, h = ("a" ++ rest)%string).
  { intros h. unfold Analyze.identify_hex_registration, Py.startswith.
    destruct (String.prefix "a" h) eqn:E.
    - apply prefix_iff_append in E as [rest ->]. simpl. split; [eauto | discriminate].
    - rewrite orb_true_r. split; [congruence|].
      intros Hex. apply prefix_iff_append in Hex. congruence. }
  split; [apply Hiff|]. split; [|repeat split; reflexivity].
  intros answer Ha.
  assert (Hsome : Analyze.identify_hex_registration (Some icao24) <> None)
    by congruence.
  apply Hiff in Hsome as [rest Hrest].
  unfold Analyze.identify_hex_registration in Ha.
  destruct (negb (Py.truthy icao24) || negb (Py.startswith icao24 "a"));
    [discriminate|].
  inversion Ha; subst answer. split; [reflexivity|].
  intros callsign cs.
  assert (Hhex : Py.startswith (Spec.norm_hex (Some icao24)) "a" = true)
    by (subst icao24; destruct rest; reflexivity).
  clear Ha Hrest.
  split; [|split; [|split]].
  - unfold classify_aircraft.
    fold (Spec.norm_callsign callsign) (Spec.norm_hex (Some icao24)). fold cs.
    rewrite Hhex. unfold Spec.label_of.
    destruct (first_prefix cs SCHEDULED_CALLSIGN_PREFIXES); [simpl; tauto|].
    destruct (Py.startswith_any cs ["RCH"; "RRR"; "REACH"; "CNV"; "DUKE"]);
      [simpl; tauto|].
    destruct (Py.startswith_any cs ["DAF"; "DNK"; "DANSUP"]); [simpl; tauto|].
    destruct (Py.startswith_any cs ["CFC"; "CFF"; "CANFORCE"]); simpl; tauto.
  - unfold Monitor.classify_aircraft.
    fold (Spec.norm_callsign callsign) (Spec.norm_hex (Some icao24)). fold cs.
    rewrite Hhex.
    destruct (Monitor.first_operator cs Monitor.SCHEDULED_OPERATORS);
      [simpl; tauto|].
    destruct (Py.startswith_any cs ["RCH"; "RRR"; "CNV"; "DUKE"; "REACH"]);
      [simpl; tauto|].
    destruct (Py.startswith_any cs ["DAF"; "DNK"]); [simpl; tauto|].
    destruct (Py.startswith_any cs ["CFC"; "CFF"; "CANFORCE"]); simpl; tauto.
  - intros Hs Hm. apply startswith_any_false in Hs, Hm.
    apply first_prefix_none in Hs.
    change Spec.MILITARY_PREFIXES with
      (["RCH"; "RRR"; "REACH"; "CNV"; "DUKE"] ++ ["DAF"; "DNK"; "DANSUP"]
         ++ ["CFC"; "CFF"; "CANFORCE"])%list in Hm.
    rewrite !startswith_any_app in Hm.
    apply orb_false_iff in Hm as [Hm1 Hm]. apply orb_false_iff in Hm as [Hm2 Hm3].
    unfold classify_aircraft.
    fold (Spec.norm_callsign callsign) (Spec.norm_hex (Some icao24)). fold cs.
    now rewrite Hs, Hm1, Hm2, Hm3, Hhex.
  - intros Hs Hm. apply startswith_any_false in Hs, Hm.
    change More.MONITOR_SCHEDULED_CODES
      with (List.concat (map snd Monitor.SCHEDULED_OPERATORS)) in Hs.
    apply first_operator_none in Hs.
    change More.MONITOR_MILITARY_PREFIXES with
      (["RCH"; "RRR"; "CNV"; "DUKE"; "REACH"] ++ ["DAF"; "DNK"]
         ++ ["CFC"; "CFF"; "CANFORCE"])%list in Hm.
    rewrite !startswith_any_app in Hm.
    apply orb_false_iff in Hm as [Hm1 Hm]. apply orb_false_iff in Hm as [Hm2 Hm3].
    unfold Monitor.classify_aircraft.
    fold (Spec.norm_callsign callsign) (Spec.norm_hex (Some icao24)). fold cs.
    now rewrite Hs, Hm1, Hm2, Hm3, Hhex.
Qed.

Lemma identify_hex_is_case_sensitive_witness :
  classify_aircraft (Some "N123AB") (Some "a12345")
  = (1, "private_us", "US N-number - PRIORITY TARGET") /\
  In (Spec.label_of (classify_aircraft (Some "GRL1") (Some "a12345")))
     ["scheduled"; "military_us"; "military_dk"; "military_ca"; "private_us"] /\
  Monitor.classify_aircraft (Some "N123AB") (Some "a12345")
  = ("private_us", "US-registered (N-number)").
Proof.
  destruct (proj1 (proj2 (identify_hex_is_case_sensitive "a12345")) _ eq_refl)
    as [_ H].
  destruct (H (Some "N123AB")) as (_ & _ & Hc & Hm).
  destruct (H (Some "GRL1")) as (Hl & _).
  split; [|split; [exact Hl|]].
  - apply Hc; apply startswith_any_false; reflexivity.
  - apply Hm; apply startswith_any_false; reflexivity.
Defined.

Lemma filter_filter_andb {A : Type} (p q : A -> bool) (l : list A) :
  filter q (filter p l) = filter (fun x => p x && q x) l.
Proof.
  induction l as [|x l IH]; simpl; [reflexivity|].
  destruct (p x); simpl; [|exact IH]. destruct (q x); now rewrite IH.
Qed.

Lemma filter_idem {A : Type} (p : A -> bool) (l : list A) :
  filter p (filter p l) = filter p l.
Proof.
  induction l as [|x l IH]; simpl; [reflexivity|].
  destruct (p x) eqn:E; simpl; [rewrite E|]; now rewrite IH.
Qed.

(** X6. [find_unusual_airports] keeps, in the order of the data frame,
    exactly the rows labelled private_us, private_eu or unknown whose
    nearest airport is one of the six listed; a row labelled private_ca is
    never kept, nor one without a nearest airport; filtering the result
    again changes nothing; and each of the six airports is in the registry
    the nearest-airport scan runs over. *)
Theorem unusual_airports_rows (df : list Monitor.Rec.t) :
  (forall row,
     In row (Analyze.find_unusual_airports df) <->
     In row df /\
     In (Monitor.Rec.classification row) ["private_us"; "private_eu"; "unknown"] /\
     exists icao, Monitor.Rec.nearest_airport_icao row = Some icao /\
                  In icao Analyze.unusual_airports) /\
  Analyze.find_unusual_airports df =
  filter (fun row =>
            Analyze.isin (Monitor.Rec.classification row)
                         ["private_us"; "private_eu"; "unknown"]
            && Analyze.isin_opt (Monitor.Rec.nearest_airport_icao row)
                                Analyze.unusual_airports) df /\
  (forall row, In row (Analyze.find_unusual_airports df) ->
               Monitor.Rec.classification row <> "private_ca") /\
  Analyze.find_unusual_airports (Analyze.find_unusual_airports df)
  = Analyze.find_unusual_airports df /\
  (forall icao, In icao Analyze.unusual_airports ->
                Dict.mem Monitor.GREENLAND_AIRPORTS icao = true).
Proof.
  assert (Hisin : forall x l, Analyze.isin x l = true <-> In x l).
  { intros x l. unfold Analyze.isin. rewrite existsb_exists. split.
    - intros [y [Hy E]]. apply String.eqb_eq in E. now subst.
    - intros H. exists x. split; [exact H | apply String.eqb_refl]. }
  assert (Hmem : forall row,
             In row (Analyze.find_unusual_airports df) <->
             In row df /\
             In (Monitor.Rec.classification row)
                ["private_us"; "private_eu"; "unknown"] /\
             exists icao, Monitor.Rec.nearest_airport_icao row = Some icao /\
                          In icao Analyze.unusual_airports).
  { intros row. unfold Analyze.find_unusual_airports.
    rewrite !filter_In, Hisin. unfold Analyze.isin_opt.
    destruct (Monitor.Rec.nearest_airport_icao row) as [icao|].
    - rewrite Hisin. split.
      + intros [[H1 H2] H3]. eauto.
      + intros (H1 & H2 & icao' & [= <-] & H3). auto.
    - split; [intros [_ H]; discriminate | intros (_ & _ & icao & H & _); discriminate]. }
  assert (Hfilter : forall l,
             Analyze.find_unusual_airports l =
             filter (fun row =>
                       Analyze.isin (Monitor.Rec.classification row)
                                    ["private_us"; "private_eu"; "unknown"]
                       && Analyze.isin_opt (Monitor.Rec.nearest_airport_icao row)
                                           Analyze.unusual_airports) l).
  { intros l. unfold Analyze.find_unusual_airports. apply filter_filter_andb. }
  split; [exact Hmem|]. split; [apply Hfilter|]. split; [|split].
  - intros row Hin E. apply Hmem in Hin as (_ & Hc & _). rewrite E in Hc.
    simpl in Hc. intuition discriminate.
  - rewrite (Hfilter (Analyze.find_unusual_airports df)), (Hfilter df).
    apply filter_idem.
  - intros icao Hin. simpl in Hin.
    repeat (destruct Hin as [<-|Hin]; [reflexivity|]). destruct Hin.
Qed.

(** ** Fetching and processing one airport's traffic *)

Lemma within_iff (airport : Airport.t) (radius_km : R) (state : State.t) :
  match State.lon state, State.lat state with
  | Some lon, Some lat =>
      Geo.leb (Geo.haversine_km (Airport.lat airport) (Airport.lon airport)
                 lat lon) radius_km
  | _, _ => false
  end = true <-> More.within airport radius_km state.
Proof.
  unfold More.within.
  destruct (State.lon state) as [lon|], (State.lat state) as [lat|].
  - rewrite leb_true. split.
    + intros H. exists lat, lon. auto.
    + intros (lat' & lon' & [= <-] & [= <-] & H). exact H.
  - split; [discriminate | intros (? & ? & H & _); discriminate].
  - split; [discriminate | intros (? & ? & _ & H & _); discriminate].
  - split; [discriminate | intros (? & ? & H & _); discriminate].
Qed.

Lemma filter_to_radius_spec (distance : R -> R -> R -> R -> option R)
      (airport : Airport.t) (radius_km : R) (states : list State.t) :
  match More.filter_to_radius distance airport radius_km states with
  | None => exists state, In state states /\ More.raises distance airport state
  | Some filtered =>
      (forall state, In state states -> ~ More.raises distance airport state) /\
      filtered = filter (More.keptb distance airport radius_km) states
  end.
Proof.
  induction states as [|state rest IH]; cbn [More.filter_to_radius].
  - split; [intros state [] | reflexivity].
  - cbn [filter].
    assert (Hskip : (State.lon state = None \/ State.lat state = None) ->
                    ~ More.raises distance airport state).
    { intros [H|H] (lat & lon & Hlat & Hlon & _); congruence. }
    destruct (State.lon state) as [lon|] eqn:Hlon;
      [destruct (State.lat state) as [lat|] eqn:Hlat|].
    + destruct (distance (Airport.lat airport) (Airport.lon airport) lat lon)
        as [dist|] eqn:Hd.
      * destruct (More.filter_to_radius distance airport radius_km rest)
          as [filtered|].
        -- destruct IH as [Hno ->]. split.
           ++ intros st [<-|Hin]; [|now apply Hno].
              intros (lat' & lon' & Hlat' & Hlon' & Hnone). congruence.
           ++ assert (Hk : More.keptb distance airport radius_km state
                           = Geo.leb dist radius_km)
                by (unfold More.keptb; now rewrite Hlon, Hlat, Hd).
              now rewrite Hk.
        -- destruct IH as (st & Hin & Hr). exists st. split; [now right | exact Hr].
      * exists state. split; [now left|]. exists lat, lon. auto.
    + destruct (More.filter_to_radius distance airport radius_km rest)
        as [filtered|].
      * destruct IH as [Hno ->]. split.
        -- intros st [<-|Hin]; [apply Hskip; now right | now apply Hno].
        -- assert (Hk : More.keptb distance airport radius_km state = false)
             by (unfold More.keptb; now rewrite Hlon, Hlat).
           now rewrite Hk.
      * destruct IH as (st & Hin & Hr). exists st. split; [now right | exact Hr].
    + destruct (More.filter_to_radius distance airport radius_km rest)
        as [filtered|].
      * destruct IH as [Hno ->]. split.
        -- intros st [<-|Hin]; [apply Hskip; now left | now apply Hno].
        -- assert (Hk : More.keptb distance airport radius_km state = false)
             by (unfold More.keptb; now rewrite Hlon).
           now rewrite Hk.
      * destruct IH as (st & Hin & Hr). exists st. split; [now right | exact Hr].
Qed.

Lemma keptb_iff (distance : R -> R -> R -> R -> option R)
      (airport : Airport.t) (radius_km : R) (state : State.t) :
  More.keptb distance airport radius_km state = true <->
  More.within_by distance airport radius_km state.
Proof.
  unfold More.keptb, More.within_by.
  destruct (State.lon state) as [lon|], (State.lat state) as [lat|].
  - destruct (distance (Airport.lat airport) (Airport.lon airport) lat lon)
      as [dist|] eqn:Hd.
    + rewrite leb_true. split.
      * intros H. exists lat, lon, dist. auto.
      * intros (lat' & lon' & dist' & [= <-] & [= <-] & Hd' & H). congruence.
    + split; [discriminate|].
      intros (lat' & lon' & dist' & [= <-] & [= <-] & Hd' & _). congruence.
  - split; [discriminate | intros (? & ? & ? & H & _); discriminate].
  - split; [discriminate | intros (? & ? & ? & _ & H & _); discriminate].
  - split; [discriminate | intros (? & ? & ? & H & _); discriminate].
Qed.

Lemma filter_to_radius_kept (distance : R -> R -> R -> R -> option R)
      (airport : Airport.t) (radius_km : R) (states : list State.t) :
  Forall (fun state => More.keptb distance airport radius_km state = true) states ->
  More.filter_to_radius distance airport radius_km states = Some states.
Proof.
  intros H. induction H as [|state rest Hk _ IH]; cbn [More.filter_to_radius];
    [reflexivity|].
  unfold More.keptb in Hk.
  destruct (State.lon state); [|discriminate].
  destruct (State.lat state); [|discriminate].
  destruct (distance _ _ _ _); [|discriminate].
  now rewrite IH, Hk.
Qed.

Lemma filter_to_radius_total (airport : Airport.t) (radius_km : R)
      (states : list State.t) :
  More.filter_to_radius
    (fun lat1 lon1 lat2 lon2 => Some (Geo.haversine_km lat1 lon1 lat2 lon2))
    airport radius_km states
  = Some (filter (fun state =>
            match State.lon state, State.lat state with
            | Some lon, Some lat =>
                Geo.leb (Geo.haversine_km (Airport.lat airport)
                           (Airport.lon airport) lat lon) radius_km
            | _, _ => false
            end) states).
Proof.
  induction states as [|state rest IH]; cbn [More.filter_to_radius filter];
    [reflexivity|].
  rewrite IH. destruct (State.lon state), (State.lat state); reflexivity.
Qed.

(** Ten degrees of latitude north of Narsarsuaq is more than 50 km away. *)
Lemma north_of_narsarsuaq :
  (50 < Geo.haversine_km 61.1605 (-45.4260) 71.1605 (-45.4260))%R.
Proof.
  rewrite haversine_unfold. unfold More.haversine_a, Geo.radians.
  pose proof PI_RGT_0 as Hpi0. pose proof PI_4 as Hpi4. pose proof PI2_1 as Hpi2.
  replace ((71.1605 - 61.1605) * (PI / 180) / 2)%R with (PI / 36)%R by lra.
  replace ((-45.4260 - -45.4260) * (PI / 180) / 2)%R with 0%R by lra.
  rewrite sin_0.
  set (s := sin (PI / 36)).
  replace (s ^ 2 + cos (61.1605 * (PI / 180)) * cos (71.1605 * (PI / 180)) * 0 ^ 2)%R
    with (s * s)%R by ring.
  assert (Hy : (1 / 18 < PI / 36 <= 1 / 9)%R) by lra.
  assert (Hs_lo : (1 / 20 <= s)%R).
  { pose proof (sin_lower (PI / 36) ltac:(lra) ltac:(lra)) as H.
    fold s in H.
    assert (Hc : ((PI / 36) ^ 3 <= 1 / 729)%R).
    { assert (H2 : ((PI / 36) * (PI / 36) <= 1 / 81)%R) by nra.
      simpl. nra. }
    lra. }
  assert (Hs_hi : (s <= 1 / 9)%R).
  { pose proof (sin_lt_x (PI / 36) ltac:(lra)) as H. fold s in H. lra. }
  assert (Ha : (s * s <= 1 / 81)%R) by nra.
  rewrite sqrt_square by lra.
  set (D := sqrt (1 - s * s)).
  assert (HD0 : (0 < D)%R) by (apply sqrt_lt_R0; lra).
  assert (HD1 : (D <= 1)%R).
  { apply sqrt_le_bound; [lra|]. nra. }
  rewrite atan2_pos_x by exact HD0.
  set (t := (s / D)%R).
  assert (Ht : (1 / 20 <= t)%R).
  { assert (Hu : (0 <= t)%R).
    { unfold t. apply Rmult_le_pos; [lra|]. apply Rlt_le, Rinv_0_lt_compat, HD0. }
    assert (Hst : (s = t * D)%R) by (unfold t; field; lra).
    nra. }
  set (y0 := (1 / 250)%R).
  assert (Hsn : (0 < sin y0 < y0)%R).
  { split; [apply sin_gt_0; unfold y0; lra | apply sin_lt_x; unfold y0; lra]. }
  assert (Hc0 : (0 < cos y0)%R) by (apply cos_gt_0; unfold y0; lra).
  assert (Hc : (9 / 10 <= cos y0)%R).
  { pose proof (sin2_cos2 y0) as H. unfold Rsqr in H. unfold y0 in *. nra. }
  assert (Htan : (tan y0 < 1 / 20)%R).
  { unfold tan. apply (Rmult_lt_reg_r (cos y0)); [exact Hc0|].
    unfold Rdiv at 1. rewrite Rmult_assoc, Rinv_l by lra. unfold y0 in *. lra. }
  assert (Hat : (y0 < atan t)%R).
  { rewrite <- (atan_tan y0) by (unfold y0; lra).
    apply atan_increasing. lra. }
  unfold y0 in Hat. lra.
Qed.

(** X7. What [fetch_airport_traffic] makes of the response to its request,
    with the distance computation as a function that may raise. For an
    airport code that is not registered it returns the empty list, for a
    failed request [None]. For a response it returns [None] exactly when the
    distance raises on a vector that has a position, since the exception is
    caught around the whole loop; otherwise it returns, in the order
    received, exactly the vectors that have a position whose distance is
    within the radius. Filtering its own result again changes nothing, and
    a vector kept for one radius is kept for every larger one. With a
    distance that never raises it is the function [main] is modelled
    with. *)
Theorem fetch_keeps_vectors_in_radius
        (distance : R -> R -> R -> R -> option R)
        (response : option (list State.t)) (airport_icao : string)
        (radius_km : R) :
  (Dict.get CHOKE_POINTS airport_icao = None ->
   More.fetch_airport_traffic_try distance response airport_icao radius_km
   = Some []) /\
  (forall airport,
     Dict.get CHOKE_POINTS airport_icao = Some airport ->
     (response = None ->
      More.fetch_airport_traffic_try distance response airport_icao radius_km
      = None) /\
     (forall raw,
        response = Some raw ->
        (More.fetch_airport_traffic_try distance response airport_icao radius_km
         = None <->
         exists state, In state raw /\ More.raises distance airport state) /\
        (forall states,
           More.fetch_airport_traffic_try distance response airport_icao
             radius_km = Some states ->
           (forall state,
              In state states <->
              In state raw /\ More.within_by distance airport radius_km state) /\
           (exists keep, states = filter keep raw) /\
           More.fetch_airport_traffic_try distance (Some states) airport_icao
             radius_km = Some states /\
           (forall radius_km' states' state,
              (radius_km <= radius_km')%R ->
              More.fetch_airport_traffic_try distance response airport_icao
                radius_km' = Some states' ->
              In state states -> In state states')))) /\
  More.fetch_airport_traffic_try
    (fun lat1 lon1 lat2 lon2 => Some (Geo.haversine_km lat1 lon1 lat2 lon2))
    response airport_icao radius_km
  = fetch_airport_traffic response airport_icao radius_km.
Proof.
  split; [|split].
  - intros H. unfold More.fetch_airport_traffic_try. now rewrite H.
  - intros airport Ha. split.
    + intros ->. unfold More.fetch_airport_traffic_try. now rewrite Ha.
    + intros raw ->. unfold More.fetch_airport_traffic_try. rewrite Ha.
      pose proof (filter_to_radius_spec distance airport radius_km raw) as Hspec.
      split.
      * destruct (More.filter_to_radius distance airport radius_km raw)
          as [filtered|].
        -- split; [discriminate|]. intros (state & Hin & Hr).
           exfalso. exact (proj1 Hspec state Hin Hr).
        -- split; [intros _; exact Hspec | reflexivity].
      * intros states Hsome. rewrite Hsome in Hspec. destruct Hspec as [Hno ->].
        split; [|split; [|split]].
        -- intros state. rewrite filter_In, keptb_iff. reflexivity.
        -- eexists. reflexivity.
        -- apply filter_to_radius_kept. apply Forall_forall.
           intros state Hin. now apply filter_In in Hin.
        -- intros radius_km' states' state Hle Hsome' Hin.
           pose proof (filter_to_radius_spec distance airport radius_km' raw)
             as Hspec'.
           rewrite Hsome' in Hspec'. destruct Hspec' as [_ ->].
           apply filter_In in Hin as [Hin Hk]. apply filter_In.
           split; [exact Hin|]. apply keptb_iff. apply keptb_iff in Hk.
           destruct Hk as (lat & lon & dist & Hlat & Hlon & Hd & Hr).
           exists lat, lon, dist. repeat split; try assumption. lra.
  - unfold More.fetch_airport_traffic_try, fetch_airport_traffic.
    destruct (Dict.get CHOKE_POINTS airport_icao) as [airport|]; [|reflexivity].
    destruct response as [raw|]; [|reflexivity].
    apply filter_to_radius_total.
Qed.

Lemma fetch_keeps_vectors_in_radius_witness :
  let near := State.mk "a12345" (Some "N123AB") (Some (-45.4260)%R)
                (Some 61.1605%R) (Some 0%R) (Some true) (Some 0%R) in
  let blind := State.mk "4b1a2c" None None None None None None in
  let far := State.mk "c01234" (Some "CFC1") (Some (-45.4260)%R)
               (Some 71.1605%R) (Some 9000%R) (Some false) (Some 200%R) in
  (exists states,
     fetch_airport_traffic (Some [near; blind; far]) "BGBW" 50%R = Some states /\
     In near states /\ ~ In blind states /\ ~ In far states) /\
  More.fetch_airport_traffic_try (fun _ _ _ _ => None)
    (Some [blind; near]) "BGBW" 50%R = None /\
  More.fetch_airport_traffic_try (fun _ _ _ _ => None)
    (Some [blind; near]) "BGXX" 50%R = Some [].
Proof.
  intros near blind far.
  set (total := fun lat1 lon1 lat2 lon2 : R =>
                  Some (Geo.haversine_km lat1 lon1 lat2 lon2)).
  assert (Hbw : exists airport,
             Dict.get CHOKE_POINTS "BGBW" = Some airport /\
             Airport.lat airport = 61.1605%R /\
             Airport.lon airport = (-45.4260)%R).
  { eexists. split; [reflexivity|]. split; reflexivity. }
  destruct Hbw as (airport & Ha & Hlat & Hlon).
  split; [|split].
  - destruct (fetch_keeps_vectors_in_radius total (Some [near; blind; far])
                "BGBW" 50%R) as (_ & Hreg & Heq).
    destruct (proj2 (Hreg airport Ha) _ eq_refl) as [Hnone Hsome].
    rewrite <- Heq. fold total.
    destruct (More.fetch_airport_traffic_try total (Some [near; blind; far])
                "BGBW" 50%R) as [states|] eqn:E.
    + exists states. split; [reflexivity|].
      destruct (Hsome states eq_refl) as (Hmem & _).
      split; [|split].
      * apply Hmem. split; [now left|].
        exists 61.1605%R, (-45.4260)%R, 0%R.
        split; [reflexivity|]. split; [reflexivity|]. split; [|lra].
        unfold total. rewrite Hlat, Hlon. f_equal. apply haversine_same.
      * intros H. apply Hmem in H as [_ (lat & lon & dist & H & _)].
        discriminate H.
      * intros H. apply Hmem in H as [_ (lat & lon & dist & H1 & H2 & H3 & H4)].
        injection H1 as <-. injection H2 as <-.
        unfold total in H3. rewrite Hlat, Hlon in H3. injection H3 as <-.
        pose proof north_of_narsarsuaq. lra.
    + exfalso. destruct (proj1 Hnone eq_refl) as (state & _ & lat & lon & _ & _ & H).
      discriminate H.
  - destruct (fetch_keeps_vectors_in_radius (fun _ _ _ _ => None)
                (Some [blind; near]) "BGBW" 50%R) as (_ & Hreg & _).
    apply (proj1 (proj2 (Hreg airport Ha) _ eq_refl)).
    exists near. split; [right; now left|].
    exists 61.1605%R, (-45.4260)%R. repeat split.
  - apply (proj1 (fetch_keeps_vectors_in_radius (fun _ _ _ _ => None)
                    (Some [blind; near]) "BGXX" 50%R)).
    reflexivity.
Defined.

Lemma classify_norm_callsign (callsign : option string) (icao24 : option string) :
  classify_aircraft (Some (Py.strip (Py.or_empty callsign))) icao24
  = classify_aircraft callsign icao24.
Proof.
  apply classify_by_norm; [|reflexivity].
  destruct callsign as [s|]; [apply norm_callsign_strip | reflexivity].
Qed.

(** X8. The outcomes of [process_aircraft]. An airport code that is not in
    CHOKE_POINTS raises KeyError, whatever the vector; at a registered
    airport a vector without latitude or longitude raises TypeError; any
    other vector gives a record that carries the airport's code, name and
    signal, the vector's position, altitude, velocity and ground flag, the
    stripped callsign, the clock reading cut to whole seconds, the distance
    from the airport rounded to a tenth, and the classification of the
    vector's own callsign and hex code. *)
Theorem process_aircraft_outcomes (now : Z) (state : State.t)
        (airport_icao : string) :
  (Dict.get CHOKE_POINTS airport_icao = None ->
   process_aircraft now state airport_icao = inl (KeyError airport_icao)) /\
  (forall airport,
     Dict.get CHOKE_POINTS airport_icao = Some airport ->
     (State.lat state = None \/ State.lon state = None ->
      process_aircraft now state airport_icao = inl TypeError) /\
     (forall lat lon,
        State.lat state = Some lat -> State.lon state = Some lon ->
        exists record,
          process_aircraft now state airport_icao = inr record /\
          Rec.timestamp record * 1000000 <= now < (Rec.timestamp record + 1) * 1000000 /\
          Rec.airport_icao record = airport_icao /\
          Rec.airport_name record = Airport.name airport /\
          Rec.airport_signal record = Airport.signal airport /\
          Rec.icao24 record = State.icao24 state /\
          Rec.callsign record = Py.strip (Py.or_empty (State.callsign state)) /\
          Rec.lat record = lat /\ Rec.lon record = lon /\
          Rec.altitude_m record = State.altitude state /\
          Rec.velocity_ms record = State.velocity state /\
          Rec.on_ground record = State.on_ground state /\
          Rec.distance_km record =
          Geo.round1 (Geo.haversine_km (Airport.lat airport)
                        (Airport.lon airport) lat lon) /\
          (Rec.priority record, Rec.classification record,
           Rec.classification_notes record)
          = classify_aircraft (State.callsign state) (Some (State.icao24 state)))).
Proof.
  split.
  - intros H. unfold process_aircraft. now rewrite H.
  - intros airport Ha. split.
    + intros H. unfold process_aircraft. rewrite Ha.
      destruct (State.lat state), (State.lon state); try reflexivity.
      destruct H; discriminate.
    + intros lat lon Hlat Hlon. unfold process_aircraft. rewrite Ha, Hlat, Hlon.
      rewrite classify_norm_callsign.
      destruct (classify_aircraft _ _) as [[priority classification] notes].
      eexists. split; [reflexivity|]. cbn.
      split; [|repeat split; reflexivity].
      pose proof (Z.div_mod now 1000000 ltac:(lia)) as Hdm.
      pose proof (Z.mod_pos_bound now 1000000 ltac:(lia)) as Hb. lia.
Qed.

Lemma process_aircraft_outcomes_witness :
  process_aircraft 1700000000000000
    (State.mk "a12345" (Some "N123AB") None None None None None) "KJFK"
  = inl (KeyError "KJFK").
Proof.
  apply (proj1 (process_aircraft_outcomes 1700000000000000 _ "KJFK")).
  reflexivity.
Defined.

(** ** What the dwell tracker takes in *)

Lemma classify_in_classes (callsign icao24 : option string) :
  In (fst (classify_aircraft callsign icao24)) More.CLASSES.
Proof.
  unfold classify_aircraft, More.CLASSES.
  destruct (first_prefix _ _); [simpl; auto|].
  repeat (match goal with
          | |- context [if ?b then _ else _] => destruct b
          end; [simpl; tauto|]).
  simpl; tauto.
Qed.

(** X9. The priority of a record of [process_aircraft] is between 1 and 5
    and goes with its label as in the classifier's table. The dwell tracker
    takes such a record into account exactly when the vector was on the
    ground and the label is one of private_us, private_ca, private_eu,
    private_is; any other record leaves the dwell dictionary as it is, so
    scheduled, military and unknown traffic is never dwell-tracked. *)
Theorem dwell_tracks_private_traffic_only
        (now : Z) (state : State.t) (airport_icao : string) (record : Rec.t) :
  process_aircraft now state airport_icao = inr record ->
  In (Rec.priority record, Rec.classification record) More.CLASSES /\
  1 <= Rec.priority record <= 5 /\
  (Spec.qualifying record <->
   State.on_ground state = Some true /\
   In (Rec.classification record) More.PRIVATE_LABELS) /\
  (forall dwell_data,
     ~ (State.on_ground state = Some true /\
        In (Rec.classification record) More.PRIVATE_LABELS) ->
     observe dwell_data record = dwell_data).
Proof.
  intros H. unfold process_aircraft in H.
  destruct (Dict.get CHOKE_POINTS airport_icao) as [airport|]; [|discriminate].
  destruct (State.lat state) as [lat|]; [|discriminate].
  destruct (State.lon state) as [lon|]; [|discriminate].
  pose proof (classify_in_classes
                (Some (Py.strip (Py.or_empty (State.callsign state))))
                (Some (State.icao24 state))) as Hc.
  destruct (classify_aircraft _ _) as [[priority classification] notes].
  inversion H; subst record; clear H. cbn [fst] in Hc.
  assert (Hq : Spec.qualifying
                 {| Rec.timestamp := now / 1000000;
                    Rec.airport_icao := airport_icao;
                    Rec.airport_name := Airport.name airport;
                    Rec.airport_signal := Airport.signal airport;
                    Rec.icao24 := State.icao24 state;
                    Rec.callsign := Py.strip (Py.or_empty (State.callsign state));
                    Rec.lat := lat; Rec.lon := lon;
                    Rec.altitude_m := State.altitude state;
                    Rec.velocity_ms := State.velocity state;
                    Rec.on_ground := State.on_ground state;
                    Rec.distance_km :=
                      Geo.round1 (Geo.haversine_km (Airport.lat airport)
                                    (Airport.lon airport) lat lon);
                    Rec.likely_arrival :=
                      likely_arrival (State.on_ground state) (State.altitude state)
                        (State.velocity state)
                        (Geo.haversine_km (Airport.lat airport)
                           (Airport.lon airport) lat lon);
                    Rec.priority := priority;
                    Rec.classification := classification;
                    Rec.classification_notes := notes |} <->
               State.on_ground state = Some true /\
               In classification More.PRIVATE_LABELS).
  { unfold Spec.qualifying, More.PRIVATE_LABELS. cbn.
    unfold More.CLASSES in Hc. simpl in Hc.
    repeat (destruct Hc as [Hc|Hc]; [inversion Hc; subst; split;
      [intros [Hg Hp]; split; [exact Hg | simpl; (lia || tauto)]
      | intros [Hg Hl]; split; [exact Hg |
          simpl in Hl; try lia; intuition discriminate]]|]).
    destruct Hc. }
  split; [exact Hc|]. split.
  - cbn. unfold More.CLASSES in Hc. simpl in Hc.
    repeat (destruct Hc as [Hc|Hc]; [inversion Hc; lia|]). destruct Hc.
  - split; [exact Hq|]. intros dwell_data Hn. apply observe_skip.
    intros Hqual. apply Hn. cbn in Hq. apply Hq. exact Hqual.
Qed.

Lemma dwell_tracks_private_traffic_only_witness :
  let state := State.mk "a12345" (Some "GRL401") (Some (-45.40)%R) (Some 61.20%R)
                 (Some 0%R) (Some true) (Some 0%R) in
  exists record,
    process_aircraft 1700000000000000 state "BGBW" = inr record /\
    observe [] record = [].
Proof.
  intros state.
  destruct (process_aircraft 1700000000000000 state "BGBW") as [e|record] eqn:H;
    [discriminate|].
  exists record. split; [reflexivity|].
  destruct (dwell_tracks_private_traffic_only _ _ _ _ H) as (Hc & _ & _ & Hskip).
  apply Hskip. intros [_ Hl].
  unfold process_aircraft in H. cbn in H. inversion H; subst record.
  cbn in Hl. intuition discriminate.
Defined.

(** ** Dwell keys *)

Lemma string_length_append (s t : string) :
  String.length (s ++ t) = (String.length s + String.length t)%nat.
Proof. induction s as [|c s IH]; simpl; [reflexivity | now rewrite IH]. Qed.

Lemma append_inj_same_tail_length (s1 s2 t1 t2 : string) :
  String.length t1 = String.length t2 ->
  (s1 ++ t1 = s2 ++ t2)%string -> s1 = s2 /\ t1 = t2.
Proof.
  revert s2. induction s1 as [|c s1 IH]; intros [|d s2] Hlen H; simpl in H.
  - auto.
  - exfalso. apply (f_equal String.length) in H. simpl in H.
    rewrite string_length_append in H. lia.
  - exfalso. apply (f_equal String.length) in H. simpl in H.
    rewrite string_length_append in H. lia.
  - inversion H; subst. destruct (IH s2 Hlen) as [-> ->]; auto.
Qed.

Lemma choke_point_code_length (icao : string) :
  In icao (Dict.keys CHOKE_POINTS) -> String.length icao = 4%nat.
Proof.
  simpl. intros [<-|[<-|[<-|[]]]]; reflexivity.
Qed.

(** X10. The dwell key tells the aircraft and the airport apart: two
    records at registered airports have the same key only if they have the
    same hex code and the same airport code, so the observations of two
    aircraft, or of one aircraft at two airports, never share a dwell
    record. *)
Theorem dwell_key_injective (r1 r2 : Rec.t) :
  In (Rec.airport_icao r1) (Dict.keys CHOKE_POINTS) ->
  In (Rec.airport_icao r2) (Dict.keys CHOKE_POINTS) ->
  dwell_key r1 = dwell_key r2 ->
  Rec.icao24 r1 = Rec.icao24 r2 /\ Rec.airport_icao r1 = Rec.airport_icao r2.
Proof.
  intros H1 H2 Hk. unfold dwell_key in Hk.
  apply choke_point_code_length in H1, H2.
  apply append_inj_same_tail_length in Hk.
  - destruct Hk as [Hi Ht]. split; [exact Hi|]. now inversion Ht.
  - simpl. now rewrite H1, H2.
Qed.

Lemma dwell_key_injective_witness :
  let first := Rec.mk 100 "BGBW" "Narsarsuaq" "RED" "a1_b2" "N123AB"
                 61.16%R (-45.43)%R (Some 0%R) (Some 0%R) (Some true) 0.1%R true
                 1 "private_us" "US N-number - PRIORITY TARGET" in
  let again := Rec.mk 7300 "BGBW" "Narsarsuaq" "RED" "a1_b2" ""
                 61.17%R (-45.40)%R None None (Some true) 1.5%R true
                 1 "private_us" "US N-number - PRIORITY TARGET" in
  let other := Rec.mk 7300 "BGBW" "Narsarsuaq" "RED" "a1" "N123AB"
                 61.16%R (-45.43)%R (Some 0%R) (Some 0%R) (Some true) 0.1%R true
                 1 "private_us" "US N-number - PRIORITY TARGET" in
  let elsewhere := Rec.mk 7300 "BGGH" "Nuuk" "YELLOW" "a1_b2" "N123AB"
                     64.19%R (-51.68)%R (Some 0%R) (Some 0%R) (Some true) 0.1%R
                     true 1 "private_us" "US N-number - PRIORITY TARGET" in
  (Rec.icao24 first = Rec.icao24 again /\
   Rec.airport_icao first = Rec.airport_icao again) /\
  dwell_key first <> dwell_key other /\
  dwell_key first <> dwell_key elsewhere.
Proof.
  intros first again other elsewhere.
  assert (Hbw : In "BGBW" (Dict.keys CHOKE_POINTS)) by (simpl; auto).
  assert (Hgh : In "BGGH" (Dict.keys CHOKE_POINTS)) by (simpl; auto).
  split; [|split].
  - apply dwell_key_injective; [exact Hbw | exact Hbw | reflexivity].
  - intros H.
    destruct (dwell_key_injective first other Hbw Hbw H) as [E _].
    discriminate E.
  - intros H.
    destruct (dwell_key_injective first elsewhere Hbw Hgh H) as [_ E].
    discriminate E.
Defined.

(** ** What an invocation of the tracker writes back *)

Lemma with_hours_idem (v : Dwell.t) :
  Spec.with_hours (Spec.with_hours v) = Spec.with_hours v.
Proof. reflexivity. Qed.

Lemma filter_map_values_idem {V : Type} (p : V -> bool) (f : V -> V)
      (d : Dict.t V) :
  (forall v, f (f v) = f v) ->
  Dict.filter_values p (Dict.map_values f (Dict.filter_values p (Dict.map_values f d)))
  = Dict.filter_values p (Dict.map_values f d).
Proof.
  intros Hf. induction d as [|[k v] d IH]; simpl; [reflexivity|].
  destruct (p (f v)) eqn:E; simpl; [|exact IH].
  rewrite Hf, E. f_equal. exact IH.
Qed.

Lemma tracked_skips (records : list Rec.t) (d : Dict.t Dwell.t) :
  Forall (fun r => ~ Spec.qualifying r) records ->
  fold_left observe records d = d.
Proof.
  intros H. induction H as [|r records Hr _ IH]; simpl; [reflexivity|].
  now rewrite (observe_skip _ _ Hr).
Qed.

(** X11. What [update_dwell_tracking] writes back. Every record written was
    last seen less than 48 hours before the reading of the clock, and has a
    [dwell_hours] entry (its value, a rounded float, is not stated here).
    The records written are tracked records under their keys and in their
    order, the same but for [dwell_hours], and no more of them for a later
    reading of the clock. A batch in which no observation is on the ground
    with priority at most 2 changes no record before the eviction; and
    running the tracker again at once, with no observation, writes back the
    same dictionary. *)
Theorem dwell_store_written_back
        (now : Z) (records : list Rec.t) (file : option (Dict.t Dwell.t)) :
  let store := fst (update_dwell_tracking now records file) in
  (forall k v,
     In (k, v) store ->
     now - 48 * 3600 * 1000000 < Dwell.last_seen v * 1000000 /\
     Dwell.dwell_hours v <> None) /\
  (exists keep,
     Forall2 (fun kv kv' => fst kv' = fst kv /\ More.same_stay (snd kv) (snd kv'))
             (filter keep (Spec.tracked records file)) store) /\
  (forall now' k,
     now <= now' ->
     In k (Dict.keys (fst (update_dwell_tracking now' records file))) ->
     In k (Dict.keys store)) /\
  (Forall (fun r => ~ Spec.qualifying r) records ->
   Spec.tracked records file = or_nil file) /\
  fst (update_dwell_tracking now [] (Some store)) = store.
Proof.
  intros store. subst store. split; [|split; [|split; [|split]]].
  - intros k v Hin. apply in_update_fst in Hin as (v0 & _ & -> & Hf).
    unfold fresh, RETENTION_US in Hf. rewrite Z.gtb_ltb, Z.ltb_lt in Hf.
    split; [exact Hf | discriminate].
  - exists (fun kv => fresh now (snd kv)). rewrite update_fst.
    unfold Dict.filter_values, Dict.map_values.
    induction (Spec.tracked records file) as [|[k v] d IH]; simpl; [constructor|].
    change (fresh now (Spec.with_hours v)) with (fresh now v).
    destruct (fresh now v); simpl; [|exact IH].
    constructor; [|exact IH]. split; [reflexivity|]. repeat split.
  - intros now' k Hle Hin. unfold Dict.keys in *.
    apply in_map_iff in Hin as [[k0 v'] [<- Hin]].
    apply in_update_fst in Hin as (v0 & Hin & -> & Hf).
    apply in_map_iff. exists (k0, Spec.with_hours v0). split; [reflexivity|].
    apply in_update_fst. exists v0. repeat split; try assumption.
    unfold fresh, RETENTION_US in *. rewrite Z.gtb_ltb, Z.ltb_lt in *. lia.
  - intros H. unfold Spec.tracked. now apply tracked_skips.
  - rewrite (update_fst now [] (Some _)). unfold Spec.tracked.
    cbn [fold_left or_nil]. rewrite update_fst.
    apply filter_map_values_idem, with_hours_idem.
Qed.

Lemma dwell_store_written_back_witness :
  let old := Dwell.mk "a12345" "N123AB" "Narsarsuaq" "BGBW" 0 18000
               "private_us" None in
  let airborne := Rec.mk 18900 "BGBW" "Narsarsuaq" "RED" "a12345" "N123AB"
                    61.16%R (-45.43)%R (Some 900%R) (Some 80%R) (Some false)
                    0.1%R true 1 "private_us" "US N-number - PRIORITY TARGET" in
  let store := fst (update_dwell_tracking 18900000000 [airborne]
                      (Some [("a12345_BGBW", old)])) in
  Spec.tracked [airborne] (Some [("a12345_BGBW", old)]) = [("a12345_BGBW", old)] /\
  In ("a12345_BGBW", Spec.with_hours old) store /\
  Dwell.dwell_hours (Spec.with_hours old) <> None /\
  fst (update_dwell_tracking 18900000000 [] (Some store)) = store.
Proof.
  intros old airborne store.
  pose proof (dwell_store_written_back 18900000000 [airborne]
                (Some [("a12345_BGBW", old)])) as (Hin & _ & _ & Hskip & Hidem).
  assert (Hstored : In ("a12345_BGBW", Spec.with_hours old) store).
  { apply in_update_fst. exists old. split; [|split; reflexivity].
    rewrite Hskip; [now left|].
    constructor; [|constructor]. intros [H _]. discriminate. }
  split; [|split; [exact Hstored|split; [|exact Hidem]]].
  - apply Hskip. constructor; [|constructor]. intros [H _]. discriminate.
  - exact (proj2 (Hin _ _ Hstored)).
Defined.

(** ** The monitor's scans and records *)

Lemma haversine_nonneg (lat1 lon1 lat2 lon2 : R) :
  (0 <= Geo.haversine_km lat1 lon1 lat2 lon2)%R.
Proof.
  rewrite haversine_unfold.
  pose proof (atan2_quadrant
                (sqrt (More.haversine_a lat1 lon1 lat2 lon2))
                (sqrt (1 - More.haversine_a lat1 lon1 lat2 lon2))
                (sqrt_pos _) (sqrt_pos _)) as [Hlo _].
  apply Rmult_le_pos; [lra | exact Hlo].
Qed.

Lemma find_mine_in_none (projects : Dict.t Monitor.Project.t)
      (lat lon threshold_km : R) :
  Monitor.find_mine_in projects lat lon threshold_km = None <->
  forall project_id info,
    In (project_id, info) projects ->
    (threshold_km < Spec.project_dist lat lon info)%R.
Proof.
  pose proof (find_mine_in_first projects lat lon threshold_km) as H.
  destruct (Monitor.find_mine_in projects lat lon threshold_km)
    as [[[[pid name] company] d]|].
  - split; [discriminate|]. intros Hall.
    destruct H as (i & info & Hi & _ & _ & -> & Hle & _).
    apply nth_error_In in Hi. specialize (Hall _ _ Hi). lra.
  - split; [|reflexivity]. intros _ project_id info Hin. exact (H _ Hin).
Qed.

(** X12. What [find_nearest_mine] reports. It reports nothing exactly when
    every project of the table is farther than the threshold; otherwise it
    reports the identifier, name and company of a project of the table with
    its distance, which is within the threshold, and every project before it
    in the table is farther than the threshold. A threshold below zero gives
    nothing, a position that is the site of a project always gives a
    project, and a larger threshold never turns an answer into none. *)
Theorem nearest_mine_reports_first_within (lat lon threshold_km : R) :
  (Monitor.find_nearest_mine lat lon threshold_km = None <->
   forall project_id info,
     In (project_id, info) Monitor.MINING_PROJECTS ->
     (threshold_km < Spec.project_dist lat lon info)%R) /\
  (forall project_id name company dist_km,
     Monitor.find_nearest_mine lat lon threshold_km
     = Some (project_id, name, company, dist_km) ->
     exists i info,
       nth_error Monitor.MINING_PROJECTS i = Some (project_id, info) /\
       name = Monitor.Project.name info /\
       company = Monitor.Project.company info /\
       dist_km = Spec.project_dist lat lon info /\
       (0 <= dist_km <= threshold_km)%R /\
       forall j e, (j < i)%nat ->
                   nth_error Monitor.MINING_PROJECTS j = Some e ->
                   (threshold_km < Spec.project_dist lat lon (snd e))%R) /\
  ((threshold_km < 0)%R ->
   Monitor.find_nearest_mine lat lon threshold_km = None) /\
  (forall project_id info,
     In (project_id, info) Monitor.MINING_PROJECTS ->
     (0 <= threshold_km)%R ->
     Monitor.find_nearest_mine (Monitor.Project.lat info)
       (Monitor.Project.lon info) threshold_km <> None) /\
  (forall threshold_km',
     (threshold_km <= threshold_km')%R ->
     Monitor.find_nearest_mine lat lon threshold_km <> None ->
     Monitor.find_nearest_mine lat lon threshold_km' <> None).
Proof.
  unfold Monitor.find_nearest_mine.
  split; [apply find_mine_in_none|]. split; [|split; [|split]].
  - intros project_id name company dist_km H.
    pose proof (find_mine_in_first Monitor.MINING_PROJECTS lat lon threshold_km)
      as Hf.
    rewrite H in Hf. destruct Hf as (i & info & Hi & Hn & Hc & Hd & Hle & Hfirst).
    exists i, info. repeat split; try assumption.
    subst dist_km. apply haversine_nonneg.
  - intros Hneg. apply find_mine_in_none. intros project_id info _.
    pose proof (haversine_nonneg lat lon (Monitor.Project.lat info)
                  (Monitor.Project.lon info)).
    unfold Spec.project_dist. lra.
  - intros project_id info Hin Hpos Hnone.
    rewrite find_mine_in_none in Hnone. specialize (Hnone _ _ Hin).
    unfold Spec.project_dist in Hnone. rewrite haversine_same in Hnone. lra.
  - intros threshold_km' Hle Hsome Hnone. apply Hsome.
    rewrite find_mine_in_none in *. intros project_id info Hin.
    specialize (Hnone _ _ Hin). lra.
Qed.




(** ** The invocation, step by step *)

Lemma same_files_refl (w : World.t) : More.same_files w w.
Proof. repeat split. Qed.

Lemma same_files_trans (w1 w2 w3 : World.t) :
  More.same_files w1 w2 -> More.same_files w2 w3 -> More.same_files w1 w3.
Proof. intros (A1 & B1 & C1) (A2 & B2 & C2). repeat split; congruence. Qed.

Lemma data_ops_refl (w : World.t) : More.data_ops_only w w.
Proof. exists []. split; [now rewrite app_nil_r | constructor]. Qed.

Lemma data_ops_trans (w1 w2 w3 : World.t) :
  More.data_ops_only w1 w2 -> More.data_ops_only w2 w3 ->
  More.data_ops_only w1 w3.
Proof.
  intros (e1 & T1 & F1) (e2 & T2 & F2). exists (e1 ++ e2)%list. split.
  - now rewrite T2, T1, app_assoc.
  - now apply Forall_app.
Qed.

Lemma returns_bind {A B : Type} (m : M A) (f : A -> M B)
      (Q1 : World.t -> A -> World.t -> Prop)
      (Q2 : A -> World.t -> B -> World.t -> Prop)
      (Q : World.t -> B -> World.t -> Prop) :
  More.returns m Q1 ->
  (forall a, More.returns (f a) (Q2 a)) ->
  (forall w a w1 b w2, Q1 w a w1 -> Q2 a w1 b w2 -> Q w b w2) ->
  More.returns (bind m f) Q.
Proof.
  intros Hm Hf HQ w. destruct (Hm w) as (a & w1 & E1 & H1).
  destruct (Hf a w1) as (b & w2 & E2 & H2).
  exists b, w2. unfold bind. rewrite E1, E2. split; [reflexivity | eauto].
Qed.

(** The world after a reading of the clock. *)
Lemma bind_utcnow {B : Type} (f : Z -> M B) (w : World.t) :
  bind utcnow f w = f (World.clock w 0%nat) (More.tick w).
Proof. reflexivity. Qed.

Lemma tick_same_files (w : World.t) : More.same_files w (More.tick w).
Proof. repeat split. Qed.

Lemma later_refl (w : World.t) : More.later w w.
Proof. now exists 0%nat. Qed.

Lemma later_trans (w1 w2 w3 : World.t) :
  More.later w1 w2 -> More.later w2 w3 -> More.later w1 w3.
Proof.
  intros [n Hn] [m Hm]. exists (n + m)%nat. intros i.
  now rewrite Hm, Hn, Nat.add_assoc.
Qed.

Lemma tick_later (w : World.t) : More.later w (More.tick w).
Proof. now exists 1%nat. Qed.

Lemma stamped_later (w w' : World.t) (r : Rec.t) :
  More.later w w' -> More.stamped w' r -> More.stamped w r.
Proof. intros [n Hn] [m Hm]. exists (n + m)%nat. now rewrite Hm, Hn. Qed.

Lemma process_aircraft_timestamp (now : Z) (state : State.t) (icao : string)
      (record : Rec.t) :
  process_aircraft now state icao = inr record ->
  Rec.timestamp record = now / 1000000.
Proof.
  unfold process_aircraft.
  destruct (Dict.get CHOKE_POINTS icao); [|discriminate].
  destruct (State.lat state); [|discriminate].
  destruct (State.lon state); [|discriminate].
  destruct (classify_aircraft _ _) as [[priority classification] notes].
  now intros [= <-].
Qed.

Lemma priority_alert_printable (record : Rec.t) (a : Alert) :
  generate_priority_alert record = inr (Some a) ->
  More.printable a /\ Dict.get a "record" = Some (VRec record) /\
  Dict.get a "timestamp" = Some (VTime (Rec.timestamp record)).
Proof.
  unfold generate_priority_alert, More.printable.
  destruct (Dict.get CHOKE_POINTS (Rec.airport_icao record)); [|discriminate].
  destruct (_ && _);
    [intros [= <-]; cbn; repeat split; (discriminate || reflexivity)|].
  destruct (_ =? 1);
    [intros [= <-]; cbn; repeat split; (discriminate || reflexivity)|].
  destruct (_ && _);
    [intros [= <-]; cbn; repeat split; (discriminate || reflexivity)|].
  discriminate.
Qed.

(** The inner loop: one record for each vector, stamped with a reading of
    the clock, at most one alert for each record, every alert printable; no
    file is touched. *)
Lemma returns_process_states (icao : string) (airport : Airport.t)
      (states : list State.t) (acc : list Rec.t * list Alert) :
  Dict.get CHOKE_POINTS icao = Some airport ->
  Forall Spec.has_position states ->
  More.returns (process_states icao states acc)
    (fun w acc' w' =>
       More.same_files w w' /\ World.trace w' = World.trace w /\
       More.later w w' /\
       exists rs als,
         acc' = (fst acc ++ rs, snd acc ++ als)%list /\
         List.length rs = List.length states /\
         Forall (fun r => Rec.airport_icao r = icao /\ More.stamped w r) rs /\
         Forall More.printable als /\
         (List.length als <= List.length rs)%nat).
Proof.
  intros Ha Hs. revert acc.
  induction Hs as [|state rest Hpos Hrest IH]; intros acc w; cbn [process_states].
  - exists acc, w. split; [reflexivity|].
    split; [apply same_files_refl|]. split; [reflexivity|].
    split; [apply later_refl|].
    exists [], []. rewrite !app_nil_r. destruct acc.
    repeat split; constructor.
  - destruct (process_aircraft_returns (World.clock w 0%nat) state icao airport
                Ha Hpos) as (record & Hrec & Hicao).
    destruct (generate_priority_alert_returns record airport) as (alert & Hal);
      [now rewrite Hicao|].
    rewrite bind_utcnow. pose proof (tick_same_files w) as Hs1.
    assert (Ht1 : World.trace (More.tick w) = World.trace w) by reflexivity.
    pose proof (tick_later w) as Hc1.
    pose proof (process_aircraft_timestamp _ _ _ _ Hrec) as Hstamp.
    set (w1 := More.tick w) in *. clearbody w1.
    unfold bind at 1, lift at 1. rewrite Hrec.
    unfold bind at 1, lift at 1. rewrite Hal.
    destruct acc as [all_records all_alerts].
    match goal with
    | |- context [process_states icao rest ?acc1 w1] =>
        destruct (IH acc1 w1)
          as (acc' & w2 & E2 & Hs2 & Ht2 & Hc2 & rs & als & -> & Hl & Hf & Hp & Hlen)
    end.
    eexists _, w2. split; [exact E2|].
    split; [exact (same_files_trans _ _ _ Hs1 Hs2)|]. split; [congruence|].
    split; [exact (later_trans _ _ _ Hc1 Hc2)|].
    cbn [fst snd].
    exists (record :: rs),
           (match alert with Some a => a :: als | None => als end).
    rewrite <- !app_assoc. split.
    { destruct alert; [rewrite <- app_assoc|]; reflexivity. }
    split; [simpl; now rewrite Hl|]. split.
    { constructor.
      - split; [exact Hicao | now exists 0%nat].
      - eapply Forall_impl; [|exact Hf]. intros r [Hr1 Hr2].
        split; [exact Hr1 | exact (stamped_later _ _ _ Hc1 Hr2)]. }
    split.
    + destruct alert as [a|]; [|exact Hp]. constructor; [|exact Hp].
      exact (proj1 (priority_alert_printable record a Hal)).
    + destruct alert; simpl; lia.
Qed.

(** The outer loop, likewise; its records are at the airports polled. *)
Lemma returns_poll (responses : string -> option (list State.t))
      (icaos : list string) (acc : list Rec.t * list Alert) :
  Forall (fun icao => Dict.get CHOKE_POINTS icao <> None) icaos ->
  More.returns (poll responses icaos acc)
    (fun w acc' w' =>
       More.same_files w w' /\ World.trace w' = World.trace w /\
       More.later w w' /\
       exists rs als,
         acc' = (fst acc ++ rs, snd acc ++ als)%list /\
         Forall (fun r => In (Rec.airport_icao r) icaos /\ More.stamped w r) rs /\
         Forall More.printable als /\
         (List.length als <= List.length rs)%nat).
Proof.
  intros H. revert acc.
  induction H as [|icao rest Hicao Hrest IH]; intros acc w; cbn [poll].
  - exists acc, w. split; [reflexivity|].
    split; [apply same_files_refl|]. split; [reflexivity|].
    split; [apply later_refl|].
    exists [], []. rewrite !app_nil_r. destruct acc. repeat split; constructor.
  - assert (Hweak : forall acc0 w0,
               exists acc' w',
                 poll responses rest acc0 w0 = (w', inr acc') /\
                 More.same_files w0 w' /\ World.trace w' = World.trace w0 /\
                 More.later w0 w' /\
                 exists rs als,
                   acc' = (fst acc0 ++ rs, snd acc0 ++ als)%list /\
                   Forall (fun r => In (Rec.airport_icao r) (icao :: rest) /\
                                    More.stamped w0 r) rs /\
                   Forall More.printable als /\
                   (List.length als <= List.length rs)%nat).
    { intros acc0 w0.
      destruct (IH acc0 w0)
        as (acc' & w' & E & Hs & Ht & Hc & rs & als & Ea & Hf & Hp & Hl).
      exists acc', w'. split; [exact E|]. split; [exact Hs|]. split; [exact Ht|].
      split; [exact Hc|].
      exists rs, als. split; [exact Ea|]. split; [|split; assumption].
      eapply Forall_impl; [|exact Hf]. intros r [Hr Hst]. split; [now right | exact Hst]. }
    destruct (Dict.get CHOKE_POINTS icao) as [airport|] eqn:Ha; [|congruence].
    destruct (fetch_airport_traffic (responses icao) icao
                (Airport.monitoring_radius_km airport))
      as [[|state states]|] eqn:Hf; try apply Hweak.
    unfold bind.
    destruct (returns_process_states icao airport (state :: states) acc Ha
                (fetch_has_position _ _ _ _ Hf) w)
      as (acc1 & w1 & E1 & Hs1 & Ht1 & Hc1 & rs1 & als1 & -> & Hl1 & Hf1 & Hp1 & Hlen1).
    rewrite E1.
    destruct (Hweak (fst acc ++ rs1, snd acc ++ als1)%list w1)
      as (acc2 & w2 & E2 & Hs2 & Ht2 & Hc2 & rs2 & als2 & -> & Hf2 & Hp2 & Hlen2).
    eexists _, w2. split; [exact E2|].
    split; [exact (same_files_trans _ _ _ Hs1 Hs2)|]. split; [congruence|].
    split; [exact (later_trans _ _ _ Hc1 Hc2)|].
    exists (rs1 ++ rs2)%list, (als1 ++ als2)%list. cbn [fst snd].
    rewrite <- !app_assoc. split; [reflexivity|]. split; [|split].
    + apply Forall_app. split.
      * eapply Forall_impl; [|exact Hf1]. intros r [-> Hst]. split; [now left | exact Hst].
      * eapply Forall_impl; [|exact Hf2]. intros r [Hr Hst].
        split; [exact Hr | exact (stamped_later _ _ _ Hc1 Hst)].
    + apply Forall_app. auto.
    + rewrite !length_app. lia.
Qed.

Lemma save_records_run (records : list Rec.t) (w : World.t) :
  exists w',
    save_records records w = (w', inr tt) /\
    World.arrivals w' =
      match records with
      | [] => World.arrivals w
      | _ => Some (More.arrivals_rows w ++ records)%list
      end /\
    World.alerts w' = World.alerts w /\
    World.dwell w' = World.dwell w /\
    World.clock w' = World.clock w /\
    More.data_ops_only w w'.
Proof.
  destruct records as [|r rs]; cbn [save_records].
  - exists w. split; [reflexivity|]. repeat split. apply data_ops_refl.
  - eexists. split; [reflexivity|]. cbn. repeat split.
    exists [Exists ARRIVALS_FILE; Append ARRIVALS_FILE].
    split; [now rewrite <- app_assoc|]. repeat constructor.
Qed.

Lemma update_dwell_tracking_io_run (records : list Rec.t) (w : World.t) :
  exists w',
    update_dwell_tracking_io records w =
      (w', inr (snd (update_dwell_tracking (World.clock w 0%nat) records
                       (World.dwell w)))) /\
    World.dwell w' =
      Some (fst (update_dwell_tracking (World.clock w 0%nat) records
                   (World.dwell w))) /\
    World.arrivals w' = World.arrivals w /\
    World.alerts w' = World.alerts w /\
    More.data_ops_only w w'.
Proof.
  destruct w as [arrivals alerts dwell clock trace].
  unfold update_dwell_tracking_io.
  destruct dwell as [d|];
    cbv [bind exists_dwell emit is_some read_dwell ret utcnow or_nil
         World.arrivals World.alerts World.dwell World.clock World.trace];
    destruct (update_dwell_tracking (clock 0%nat) records _)
      as [dwell_data alerts'];
    cbv [bind write_dwell emit ret
         World.arrivals World.alerts World.dwell World.clock World.trace fst snd];
    eexists; (split; [reflexivity|]); repeat split.
  - exists [Exists DWELL_FILE; Read DWELL_FILE; Write DWELL_FILE].
    cbn. split; [now rewrite <- !app_assoc|]. repeat constructor; now right.
  - exists [Exists DWELL_FILE; Write DWELL_FILE].
    cbn. split; [now rewrite <- !app_assoc|]. repeat constructor; now right.
Qed.

(** What the collecting part of [main] returns and leaves behind. *)
Lemma collect_alerts_spec (responses : string -> option (list State.t))
      (w : World.t) :
  exists records priority_alerts now w1,
    collect_alerts responses w =
      (w1, inr (priority_alerts
                ++ snd (update_dwell_tracking now records (World.dwell w)))%list) /\
    Forall More.printable priority_alerts /\
    (List.length priority_alerts <= List.length records)%nat /\
    Forall (fun r => In (Rec.airport_icao r) More.POLLED /\ More.stamped w r)
           records /\
    (exists n, now = World.clock w n) /\
    World.arrivals w1 =
      match records with
      | [] => World.arrivals w
      | _ => Some (More.arrivals_rows w ++ records)%list
      end /\
    World.alerts w1 = World.alerts w /\
    World.dwell w1 =
      Some (fst (update_dwell_tracking now records (World.dwell w))) /\
    More.data_ops_only w w1.
Proof.
  unfold collect_alerts. rewrite bind_utcnow.
  pose proof (tick_same_files w) as (A0 & B0 & C0).
  assert (T0 : World.trace (More.tick w) = World.trace w) by reflexivity.
  pose proof (tick_later w) as L0.
  set (w0 := More.tick w) in *. clearbody w0.
  destruct (returns_poll responses ["BGBW"; "BGGH"; "BGSF"] ([], []) 
              ltac:(repeat constructor; discriminate) w0)
    as (acc & wp & Ep & (Ap & Bp & Cp) & Tp & Lp & rs & als & -> & Hf & Hp & Hl).
  unfold bind at 1. rewrite Ep. cbn [fst snd app].
  destruct (save_records_run rs wp) as (ws & Es & As & Bs & Cs & Ks & Ds).
  unfold bind at 1. rewrite Es.
  destruct (update_dwell_tracking_io_run rs ws) as (wd & Ed & Cd & Ad & Bd & Dd).
  unfold bind at 1. rewrite Ed. unfold ret.
  exists rs, als, (World.clock ws 0%nat), wd.
  split; [now rewrite Cs, Cp, C0|]. split; [exact Hp|]. split; [exact Hl|].
  split.
  { eapply Forall_impl; [|exact Hf]. intros r [Hr Hst].
    split; [exact Hr | exact (stamped_later _ _ _ L0 Hst)]. }
  split.
  { destruct (later_trans _ _ _ L0 Lp) as [n Hn]. exists (n + 0)%nat.
    now rewrite Ks, Hn. }
  split.
  { rewrite Ad, As. unfold More.arrivals_rows. rewrite Ap, A0. reflexivity. }
  split; [congruence|]. split; [now rewrite Cd, Cs, Cp, C0|].
  apply (data_ops_trans w wp wd).
  - exists []. rewrite app_nil_r. split; [congruence | constructor].
  - exact (data_ops_trans _ _ _ Ds Dd).
Qed.

Lemma last_op_snoc (trace : list io) (e : io) :
  More.last_op (trace ++ [e]) = Some e.
Proof. unfold More.last_op. now rewrite rev_unit. Qed.

Lemma save_alerts_run (all_alerts : list Alert) (w : World.t) :
  all_alerts <> [] ->
  exists w' evs,
    save_alerts all_alerts w = (w', print_alerts all_alerts) /\
    World.alerts w' =
      Some (last_n 100 (alert_store w ++ map alert_clean all_alerts)%list) /\
    World.arrivals w' = World.arrivals w /\
    World.dwell w' = World.dwell w /\
    World.trace w' = (World.trace w ++ evs)%list /\
    Forall (fun e => io_path e = ALERTS_FILE) evs /\
    More.last_op (World.trace w') = Some (Write ALERTS_FILE).
Proof.
  intros Hne. destruct all_alerts as [|a rest]; [congruence|].
  destruct w as [arrivals alerts dwell clock trace].
  unfold save_alerts, alert_store.
  destruct alerts as [existing|];
    cbv [bind exists_alerts emit is_some read_alerts ret write_alerts lift or_nil
         World.arrivals World.alerts World.dwell World.clock World.trace].
  - exists (World.mk arrivals
              (Some (last_n 100 (existing ++ map alert_clean (a :: rest))%list))
              dwell clock
              (((trace ++ [Exists ALERTS_FILE]) ++ [Read ALERTS_FILE])
                 ++ [Write ALERTS_FILE])%list),
           [Exists ALERTS_FILE; Read ALERTS_FILE; Write ALERTS_FILE].
    split; [destruct (print_alerts (a :: rest)) as [e|[]]; reflexivity|].
    cbn [World.arrivals World.alerts World.dwell World.trace].
    repeat split.
    + now rewrite <- !app_assoc.
    + repeat constructor.
    + apply last_op_snoc.
  - exists (World.mk arrivals
              (Some (last_n 100 ([] ++ map alert_clean (a :: rest))%list))
              dwell clock
              ((trace ++ [Exists ALERTS_FILE]) ++ [Write ALERTS_FILE])%list),
           [Exists ALERTS_FILE; Write ALERTS_FILE].
    split; [destruct (print_alerts (a :: rest)) as [e|[]]; reflexivity|].
    cbn [World.arrivals World.alerts World.dwell World.trace].
    repeat split.
    + now rewrite <- !app_assoc.
    + repeat constructor.
    + apply last_op_snoc.
Qed.

Lemma generate_map_run (w : World.t) :
  exists w',
    generate_map w = (w', inr tt) /\
    More.same_files w w' /\
    More.last_op (World.trace w') = Some (Write MAP_FILE).
Proof.
  destruct w as [arrivals alerts dwell clock trace].
  destruct arrivals, dwell; eexists; (split; [reflexivity|]);
    (split; [repeat split | apply last_op_snoc]).
Qed.

Lemma print_alerts_printable (printable_alerts rest : list Alert) :
  Forall More.printable printable_alerts ->
  print_alerts (printable_alerts ++ rest) = print_alerts rest.
Proof.
  intros H. induction H as [|a l (He & Hl & Hm) _ IH]; simpl; [reflexivity|].
  destruct (Dict.get a "emoji"); [|congruence].
  destruct (Dict.get a "level"); [|congruence].
  destruct (Dict.get a "message"); [exact IH | congruence].
Qed.

Lemma dwell_alerts_are_dwell_alerts (now : Z) (records : list Rec.t)
      (file : option (Dict.t Dwell.t)) :
  Forall More.is_dwell_alert (snd (update_dwell_tracking now records file)).
Proof.
  rewrite update_snd. apply Forall_forall. intros a Hin.
  apply in_map_iff in Hin as (v & <- & _). unfold More.is_dwell_alert. eauto.
Qed.

Lemma print_alerts_outcome (printable_alerts dwell_alerts : list Alert) :
  Forall More.printable printable_alerts ->
  Forall More.is_dwell_alert dwell_alerts ->
  print_alerts (printable_alerts ++ dwell_alerts) =
  match dwell_alerts with
  | [] => inr tt
  | _ => inl (KeyError "emoji")
  end.
Proof.
  intros Hp Hd. rewrite (print_alerts_printable _ _ Hp).
  destruct Hd as [|a l (h & data & ->) _]; reflexivity.
Qed.

Lemma bind_run {A B} (m : M A) (f : A -> M B) (w w' : World.t) (a : A) :
  m w = (w', inr a) -> bind m f w = f a w'.
Proof. intros E. unfold bind. now rewrite E. Qed.

Lemma bind_raises {A B} (m : M A) (f : A -> M B) (w w' : World.t) (e : exn) :
  m w = (w', inl e) -> bind m f w = (w', inl e).
Proof. intros E. unfold bind. now rewrite E. Qed.

(** One run of [main], as a function of the records it collected, the
    priority alerts it generated and the time read for the dwell tracker. *)
Lemma main_spec (responses : string -> option (list State.t)) (w : World.t) :
  exists records priority_alerts now,
    let dwell_alerts :=
      snd (update_dwell_tracking now records (World.dwell w)) in
    let w' := invoke responses w in
    Forall More.printable priority_alerts /\
    (List.length priority_alerts <= List.length records)%nat /\
    Forall (fun r => In (Rec.airport_icao r) More.POLLED /\ More.stamped w r)
           records /\
    (exists n, now = World.clock w n) /\
    World.arrivals w' =
      match records with
      | [] => World.arrivals w
      | _ => Some (More.arrivals_rows w ++ records)%list
      end /\
    World.dwell w' =
      Some (fst (update_dwell_tracking now records (World.dwell w))) /\
    World.alerts w' =
      match (priority_alerts ++ dwell_alerts)%list with
      | [] => World.alerts w
      | all_alerts =>
          Some (last_n 100 (alert_store w ++ map alert_clean all_alerts)%list)
      end /\
    snd (main responses w) =
      match dwell_alerts with
      | [] => inr tt
      | _ => inl (KeyError "emoji")
      end /\
    match dwell_alerts with
    | [] => More.last_op (World.trace w') = Some (Write MAP_FILE)
    | _ =>
        More.last_op (World.trace w') = Some (Write ALERTS_FILE) /\
        exists evs,
          World.trace w' = (World.trace w ++ evs)%list /\
          Forall (fun e => io_path e <> MAP_FILE) evs
    end.
Proof.
  destruct (collect_alerts_spec responses w)
    as (records & pa & now & w1 & E1 & Hp & Hl & Hf & Hn & A1 & B1 & C1 & evs1 & T1 & F1).
  exists records, pa, now. cbv zeta.
  pose proof (dwell_alerts_are_dwell_alerts now records (World.dwell w)) as Hd.
  pose proof (print_alerts_outcome pa _ Hp Hd) as Hprint.
  set (da := snd (update_dwell_tracking now records (World.dwell w))) in *.
  clearbody da.
  split; [exact Hp|]. split; [exact Hl|]. split; [exact Hf|]. split; [exact Hn|].
  unfold invoke, main. rewrite (bind_run _ _ _ _ _ E1).
  destruct (pa ++ da)%list as [|a all] eqn:Eall.
  - apply app_eq_nil in Eall as [-> ->].
    destruct (generate_map_run w1) as (w3 & E3 & (A3 & B3 & C3) & L3).
    rewrite (bind_run (save_alerts []) _ w1 w1 tt eq_refl), E3. cbn [fst snd].
    repeat split; congruence.
  - destruct (save_alerts_run (a :: all) w1 ltac:(discriminate))
      as (w2 & evs2 & E2 & B2 & A2 & C2 & T2 & F2 & L2).
    rewrite Hprint in E2.
    assert (Hstore : alert_store w1 = alert_store w)
      by (unfold alert_store; now rewrite B1).
    destruct da as [|d da'].
    + destruct (generate_map_run w2) as (w3 & E3 & (A3 & B3 & C3) & L3).
      rewrite (bind_run _ _ _ _ _ E2), E3. cbn [fst snd].
      repeat split; try congruence.
    + rewrite (bind_raises _ _ _ _ _ E2). cbn [fst snd].
      repeat split; try congruence.
      exists (evs1 ++ evs2)%list. split.
      * now rewrite T2, T1, app_assoc.
      * apply Forall_app. split.
        -- eapply Forall_impl; [|exact F1]. intros e [H|H]; rewrite H; discriminate.
        -- eapply Forall_impl; [|exact F2]. intros e H; rewrite H; discriminate.
Qed.

Lemma tracked_last_seen (records : list Rec.t) (d : Dict.t Dwell.t)
      (k : string) (v : Dwell.t) (lo : Z) :
  Dict.get d k = Some v ->
  lo <= Dwell.last_seen v ->
  Forall (fun r => lo <= Rec.timestamp r) records ->
  exists v',
    Dict.get (fold_left observe records d) k = Some v' /\
    Dwell.first_seen v' = Dwell.first_seen v /\
    Dwell.airport_icao v' = Dwell.airport_icao v /\
    lo <= Dwell.last_seen v'.
Proof.
  intros Hg Hlo Hrs. revert d v Hg Hlo.
  induction Hrs as [|r records Hr _ IH]; intros d v Hg Hlo; cbn [fold_left].
  - eauto.
  - destruct (observe_keeps d r k v Hg)
      as (v1 & Hg1 & Hf1 & _ & _ & Ha1 & _ & Hyes & Hno).
    assert (Hlo1 : lo <= Dwell.last_seen v1).
    { destruct (qualifying_dec r) as [Hq|Hq].
      - destruct (string_dec k (dwell_key r)) as [E|N].
        + destruct (Hyes (conj Hq E)) as [-> _]. exact Hr.
        + rewrite (Hno ltac:(tauto)). exact Hlo.
      - rewrite (Hno ltac:(tauto)). exact Hlo. }
    destruct (IH _ _ Hg1 Hlo1) as (v' & Hg' & Hf' & Ha' & Hl').
    exists v'. repeat split; congruence.
Qed.

Lemma alert_clean_get (a : Alert) (k : string) :
  Dict.get (alert_clean a) k =
  if (k =? "record")%string then None else Dict.get a k.
Proof.
  unfold alert_clean. induction a as [|[k0 v0] a IH]; cbn [filter fst].
  - now destruct (k =? "record")%string.
  - destruct (String.eqb_spec k0 "record") as [->|N0]; cbn [negb].
    + rewrite IH. cbn [Dict.get].
      destruct (k =? "record")%string; reflexivity.
    + cbn [Dict.get]. rewrite IH.
      destruct (String.eqb_spec k k0) as [E|N]; [|reflexivity].
      subst k. now destruct (String.eqb_spec k0 "record").
Qed.

Lemma Forall_last_n {A : Type} (P : A -> Prop) (n : nat) (l : list A) :
  Forall P l -> Forall P (last_n n l).
Proof.
  intros H. rewrite (last_n_suffix n l) in H. now apply Forall_app in H.
Qed.

Lemma invocations_cons (responses : string -> option (list State.t))
      (inputs : list (string -> option (list State.t))) (w : World.t) :
  invocations (responses :: inputs) w = invocations inputs (invoke responses w).
Proof. reflexivity. Qed.

Lemma invoke_well_keyed (responses : string -> option (list State.t))
      (w : World.t) :
  Spec.well_keyed (More.dwell_store w) ->
  Spec.well_keyed (More.dwell_store (invoke responses w)).
Proof.
  intros H. destruct (main_spec responses w)
    as (records & pa & now & _ & _ & _ & _ & _ & Hd & _).
  unfold More.dwell_store. rewrite Hd. cbn [or_nil].
  now apply update_well_keyed.
Qed.

Lemma invocations_well_keyed (inputs : list (string -> option (list State.t)))
      (w : World.t) :
  Spec.well_keyed (More.dwell_store w) ->
  Spec.well_keyed (More.dwell_store (invocations inputs w)).
Proof.
  revert w. induction inputs as [|responses inputs IH]; intros w H.
  - exact H.
  - rewrite invocations_cons. apply IH. now apply invoke_well_keyed.
Qed.

(** X14. [main] has two outcomes only. With the records [records] it
    collected at the airports polled, each stamped with a reading of the
    clock, and the time [now] it read for the dwell tracker: the dwell file
    is rewritten with the tracker's result in any case; when the tracker
    returns no alert, [main] returns normally and its last file operation is
    writing the map, whatever priority alerts there are; when the tracker
    returns an alert, [main] ends with [KeyError('emoji')] in its summary
    print, the alert file has been written as the last file operation, and
    the map has not been touched. The lookups in CHOKE_POINTS, the
    subscripts of the records and those of the priority alerts never
    fail. *)
Theorem main_outcome (responses : string -> option (list State.t))
        (w : World.t) :
  let w' := invoke responses w in
  exists now records,
    (exists n, now = World.clock w n) /\
    Forall (fun r => In (Rec.airport_icao r) More.POLLED /\ More.stamped w r)
           records /\
    World.dwell w' =
      Some (fst (update_dwell_tracking now records (World.dwell w))) /\
    match snd (update_dwell_tracking now records (World.dwell w)) with
    | [] =>
        snd (main responses w) = inr tt /\
        More.last_op (World.trace w') = Some (Write MAP_FILE)
    | _ =>
        snd (main responses w) = inl (KeyError "emoji") /\
        More.last_op (World.trace w') = Some (Write ALERTS_FILE) /\
        World.alerts w' <> None /\
        exists evs,
          World.trace w' = (World.trace w ++ evs)%list /\
          Forall (fun e => io_path e <> MAP_FILE) evs
    end.
Proof.
  intros w'. subst w'.
  destruct (main_spec responses w)
    as (records & pa & now & _ & _ & Hf & Hn & _ & Hd & Ha & Hr & Ht).
  exists now, records. split; [exact Hn|]. split; [exact Hf|]. split; [exact Hd|].
  destruct (snd (update_dwell_tracking now records (World.dwell w)))
    as [|d da].
  - split; assumption.
  - destruct Ht as [Hl Hevs]. split; [exact Hr|]. split; [exact Hl|].
    split; [|exact Hevs]. rewrite Ha.
    destruct (pa ++ d :: da)%list eqn:E; [|discriminate].
    now apply app_eq_nil in E as [_ E].
Qed.

(** X15. A stored stay of four hours or more at BGBW breaks every later
    run: if the dwell file holds such a record and the clock readings of
    the run are not before the record's last sighting, [main] ends with
    [KeyError('emoji')] whatever the responses of the API are, after
    writing the alert file and without regenerating the map. *)
Theorem stored_long_stay_breaks_main
        (responses : string -> option (list State.t)) (w : World.t)
        (key : string) (data : Dwell.t) :
  Dict.get (More.dwell_store w) key = Some data ->
  Dwell.airport_icao data = "BGBW" ->
  4 * 3600 <= Dwell.last_seen data - Dwell.first_seen data ->
  (forall n, Dwell.last_seen data <= World.clock w n / 1000000) ->
  snd (main responses w) = inl (KeyError "emoji") /\
  More.last_op (World.trace (invoke responses w)) = Some (Write ALERTS_FILE) /\
  World.alerts (invoke responses w) <> None /\
  exists evs,
    World.trace (invoke responses w) = (World.trace w ++ evs)%list /\
    Forall (fun e => io_path e <> MAP_FILE) evs.
Proof.
  intros Hg Hair Hlong Hclock.
  destruct (main_spec responses w)
    as (records & pa & now & _ & _ & Hf & _ & _ & _ & Ha & Hr & Ht).
  assert (Hne : snd (update_dwell_tracking now records (World.dwell w)) <> []).
  { rewrite update_snd.
    destruct (tracked_last_seen records (More.dwell_store w) key data
                (Dwell.last_seen data) Hg ltac:(lia))
      as (v' & Hg' & Hf' & Ha' & Hl').
    { eapply Forall_impl; [|exact Hf]. intros r [_ [n ->]]. apply Hclock. }
    assert (Hin : In v' (filter Spec.long_stay
                           (Dict.values (Spec.tracked records (World.dwell w))))).
    { apply filter_In. split.
      - unfold Dict.values. apply in_map_iff. exists (key, v').
        split; [reflexivity|]. apply get_in. exact Hg'.
      - apply long_stay_iff. split; [lia | congruence]. }
    intros E. apply map_eq_nil in E. rewrite E in Hin. exact Hin. }
  destruct (snd (update_dwell_tracking now records (World.dwell w)))
    as [|d da]; [congruence|].
  destruct Ht as [Hl Hevs]. split; [exact Hr|]. split; [exact Hl|].
  split; [|exact Hevs]. rewrite Ha.
  destruct (pa ++ d :: da)%list eqn:E; [|discriminate].
  now apply app_eq_nil in E as [_ E].
Qed.

Lemma stored_long_stay_breaks_main_witness :
  let old := Dwell.mk "a12345" "N123AB" "Narsarsuaq" "BGBW" 0 18000
               "private_us" (Some 5%R) in
  let w := World.mk None None (Some [("a12345_BGBW", old)])
             (fun _ => 18900000000) [] in
  snd (main (fun _ => None) w) = inl (KeyError "emoji") /\
  More.last_op (World.trace (invoke (fun _ => None) w)) = Some (Write ALERTS_FILE).
Proof.
  intros old w.
  destruct (stored_long_stay_breaks_main (fun _ => None) w "a12345_BGBW" old)
    as (H1 & H2 & _).
  - reflexivity.
  - reflexivity.
  - simpl. lia.
  - intros n. cbv. discriminate.
  - split; assumption.
Defined.

(** X16. The arrivals file only grows: after any number of invocations it
    holds the rows it held before, in order, followed by rows for the
    airports polled; when no row was added the file is as it was, in
    particular it is not created. *)
Theorem arrivals_file_append_only
        (inputs : list (string -> option (list State.t))) (w : World.t) :
  exists added,
    More.arrivals_rows (invocations inputs w) =
      (More.arrivals_rows w ++ added)%list /\
    Forall (fun r => In (Rec.airport_icao r) More.POLLED) added /\
    (added = [] -> World.arrivals (invocations inputs w) = World.arrivals w).
Proof.
  revert w. induction inputs as [|responses inputs IH]; intros w.
  - exists []. rewrite app_nil_r. repeat split. constructor.
  - rewrite invocations_cons.
    destruct (main_spec responses w)
      as (records & pa & now & _ & _ & Hf & _ & Ha & _).
    destruct (IH (invoke responses w)) as (more & E & Hm & Hsame).
    exists (records ++ more)%list. split; [|split].
    + rewrite E. unfold More.arrivals_rows at 1. rewrite Ha.
      destruct records; cbn [or_nil]; [reflexivity|].
      now rewrite <- app_assoc.
    + apply Forall_app. split; [|exact Hm].
      eapply Forall_impl; [|exact Hf]. now intros r [Hr _].
    + intros Enil. apply app_eq_nil in Enil as [-> ->].
      rewrite (Hsame eq_refl). exact Ha.
Qed.

Lemma invoke_keeps_recent (responses : string -> option (list State.t))
      (w : World.t) (key : string) (data : Dwell.t) :
  Spec.well_keyed (More.dwell_store w) ->
  Dict.get (More.dwell_store w) key = Some data ->
  (forall n, Dwell.last_seen data <= World.clock w n / 1000000) ->
  (forall n, World.clock w n - 48 * 3600 * 1000000
             < Dwell.last_seen data * 1000000) ->
  exists v,
    Dict.get (More.dwell_store (invoke responses w)) key = Some v /\
    Dwell.first_seen v = Dwell.first_seen data /\
    Dwell.last_seen data <= Dwell.last_seen v.
Proof.
  intros Hwk Hg Hclock Hrecent.
  destruct (main_spec responses w)
    as (records & pa & now & _ & _ & Hf & (n & ->) & _ & Hd & _).
  destruct (tracked_last_seen records (More.dwell_store w) key data
              (Dwell.last_seen data) Hg ltac:(lia))
    as (v' & Hg' & Hf' & _ & Hl').
  { eapply Forall_impl; [|exact Hf]. intros r [_ [m ->]]. apply Hclock. }
  exists (Spec.with_hours v'). unfold More.dwell_store at 1. rewrite Hd.
  cbn [or_nil]. rewrite (get_update_fst _ _ _ _ Hwk).
  unfold Spec.tracked. fold (More.dwell_store w). rewrite Hg'.
  assert (Hfresh : fresh (World.clock w n) v' = true).
  { unfold fresh, RETENTION_US. rewrite Z.gtb_ltb. apply Z.ltb_lt.
    specialize (Hrecent n). lia. }
  rewrite Hfresh. split; [reflexivity|]. split; [exact Hf' | exact Hl'].
Qed.

(** X17. The dwell file across runs: after one invocation or more the file
    exists; a dictionary with no key twice and each record under the key
    [icao24_airport] of its own fields stays such; every record of the file
    has a [dwell_hours] entry; and a record of the file that no reading of
    the clock finds stale or ahead of time is still in the file after a
    further invocation, with its first-seen and a last-seen no earlier. *)
Theorem dwell_file_invariants
        (inputs : list (string -> option (list State.t))) (w : World.t) :
  Spec.well_keyed (More.dwell_store w) ->
  inputs <> [] ->
  let w' := invocations inputs w in
  World.dwell w' <> None /\
  Spec.well_keyed (More.dwell_store w') /\
  (forall k v,
     In (k, v) (More.dwell_store w') -> Dwell.dwell_hours v <> None) /\
  (forall responses key data,
     Dict.get (More.dwell_store w') key = Some data ->
     (forall n, Dwell.last_seen data <= World.clock w' n / 1000000) ->
     (forall n, World.clock w' n - 48 * 3600 * 1000000
                < Dwell.last_seen data * 1000000) ->
     exists v,
       Dict.get (More.dwell_store (invoke responses w')) key = Some v /\
       Dwell.first_seen v = Dwell.first_seen data /\
       Dwell.last_seen data <= Dwell.last_seen v).
Proof.
  intros Hwk Hne w'. subst w'.
  split; [|split; [now apply invocations_well_keyed|split]].
  - destruct (exists_last Hne) as (pre & responses & ->).
    rewrite invocations_snoc.
    destruct (main_spec responses (invocations pre w))
      as (records & pa & now & _ & _ & _ & _ & _ & Hd & _).
    rewrite Hd. discriminate.
  - destruct (exists_last Hne) as (pre & responses & ->).
    rewrite invocations_snoc.
    destruct (main_spec responses (invocations pre w))
      as (records & pa & now & _ & _ & _ & _ & _ & Hd & _).
    intros k v. unfold More.dwell_store. rewrite Hd. cbn [or_nil].
    intros Hin. apply in_update_fst in Hin as (v0 & _ & -> & _).
    discriminate.
  - intros responses key data. apply invoke_keeps_recent.
    now apply invocations_well_keyed.
Qed.

Lemma dwell_file_invariants_witness :
  let old := Dwell.mk "a12345" "N123AB" "Narsarsuaq" "BGBW" 0 18000
               "private_us" None in
  let w := World.mk None None (Some [("a12345_BGBW", old)])
             (fun _ => 18900000000) [] in
  let w' := invocations [fun _ => None] w in
  World.dwell w' <> None /\
  Spec.well_keyed (More.dwell_store w') /\
  exists v,
    Dict.get (More.dwell_store w') "a12345_BGBW" = Some v /\
    Dwell.first_seen v = 0 /\
    Dwell.dwell_hours v <> None.
Proof.
  intros old w w'.
  assert (Hwk : Spec.well_keyed (More.dwell_store w)).
  { split.
    - repeat constructor. intros [].
    - intros k v [E|[]]. now inversion E. }
  destruct (dwell_file_invariants [fun _ => None] w Hwk ltac:(discriminate))
    as (H1 & H2 & H3 & _).
  split; [exact H1|]. split; [exact H2|].
  destruct (invoke_keeps_recent (fun _ => None) w "a12345_BGBW" old Hwk eq_refl)
    as (v & Hg & Hf & _).
  - intros n. cbv. discriminate.
  - intros n. cbv. reflexivity.
  - exists v. split; [exact Hg|]. split; [exact Hf|].
    apply (H3 "a12345_BGBW" v). apply get_in. exact Hg.
Defined.

(** X18. What is persisted of an alert: [alert_clean] removes the [record]
    entry and leaves every other entry as it is; and an alert file whose
    alerts have no [record] entry stays such through any number of
    invocations. *)
Theorem persisted_alerts_carry_no_record
        (inputs : list (string -> option (list State.t))) (w : World.t) :
  Forall (fun a => Dict.get a "record" = None) (alert_store w) ->
  Forall (fun a => Dict.get a "record" = None)
         (alert_store (invocations inputs w)) /\
  forall a k,
    Dict.get (alert_clean a) k =
    if (k =? "record")%string then None else Dict.get a k.
Proof.
  intros H. split; [|exact alert_clean_get].
  revert w H. induction inputs as [|responses inputs IH]; intros w H.
  - exact H.
  - rewrite invocations_cons. apply IH.
    destruct (main_spec responses w)
      as (records & pa & now & _ & _ & _ & _ & _ & _ & Ha & _).
    unfold alert_store. rewrite Ha.
    destruct (pa ++ snd (update_dwell_tracking now records (World.dwell w)))%list
      as [|a all]; [exact H|].
    cbn [or_nil]. apply Forall_last_n. apply Forall_app. split; [exact H|].
    apply Forall_forall. intros c Hc. apply in_map_iff in Hc as (a0 & <- & _).
    now rewrite alert_clean_get.
Qed.

Lemma persisted_alerts_carry_no_record_witness :
  let old := Dwell.mk "a12345" "N123AB" "Narsarsuaq" "BGBW" 0 18000
               "private_us" (Some 5%R) in
  let w := World.mk None None (Some [("a12345_BGBW", old)])
             (fun _ => 18900000000) [] in
  Forall (fun a => Dict.get a "record" = None)
         (alert_store (invocations [fun _ => None; fun _ => None] w)).
Proof.
  intros old w.
  apply (persisted_alerts_carry_no_record [fun _ => None; fun _ => None] w).
  constructor.
Defined.

(** ** The alert store on runs that store alerts *)

Lemma long_stay_alert_returned (now : Z) (records : list Rec.t)
      (file : option (Dict.t Dwell.t)) (key : string) (data : Dwell.t) :
  Dict.get (or_nil file) key = Some data ->
  Dwell.airport_icao data = "BGBW" ->
  4 * 3600 <= Dwell.last_seen data - Dwell.first_seen data ->
  Forall (fun r => Dwell.last_seen data <= Rec.timestamp r) records ->
  snd (update_dwell_tracking now records file) <> [].
Proof.
  intros Hg Hair Hlong Hrs. rewrite update_snd.
  destruct (tracked_last_seen records (or_nil file) key data
              (Dwell.last_seen data) Hg ltac:(lia) Hrs)
    as (v' & Hg' & Hf' & Ha' & Hl').
  assert (Hin : In v' (filter Spec.long_stay
                         (Dict.values (Spec.tracked records file)))).
  { apply filter_In. split.
    - unfold Dict.values. apply in_map_iff. exists (key, v').
      split; [reflexivity|]. apply get_in. exact Hg'.
    - apply long_stay_iff. split; [lia | congruence]. }
  intros E. apply map_eq_nil in E. rewrite E in Hin. exact Hin.
Qed.

Lemma alert_store_capped_witness :
  let old := Dwell.mk "a12345" "N123AB" "Narsarsuaq" "BGBW" 0 18000
               "private_us" (Some 5%R) in
  let w0 := World.mk None None (Some [("a12345_BGBW", old)])
              (fun _ => 18900000000) [] in
  (List.length
     (alert_store (invocations [fun _ => None; fun _ => None] w0)) <= 100)%nat /\
  (1 <= List.length (alert_store (invoke (fun _ => None) w0)))%nat.
Proof.
  intros old w0. split.
  - exact (proj1 (alert_store_capped w0 [fun _ => None; fun _ => None] eq_refl)).
  - destruct (proj2 (alert_store_capped w0 [] eq_refl) (fun _ => None))
      as (all_alerts & w1 & dropped & E & _ & _ & _ & Hlen & _).
    change (invocations [] w0) with w0 in E, Hlen.
    destruct (collect_alerts_spec (fun _ => None) w0)
      as (records & pa & now & w1' & E' & _ & _ & Hf & _).
    assert (Hne : snd (update_dwell_tracking now records (World.dwell w0)) <> []).
    { apply (long_stay_alert_returned now records (World.dwell w0)
               "a12345_BGBW" old); [reflexivity | reflexivity | simpl; lia |].
      eapply Forall_impl; [|exact Hf]. intros r [_ [n ->]]. cbv. discriminate. }
    set (dwell_alerts := snd (update_dwell_tracking now records (World.dwell w0)))
      in *.
    rewrite E' in E. injection E as _ <-.
    rewrite Hlen, length_app.
    destruct dwell_alerts; [congruence|].
    change (List.length (alert_store w0)) with 0%nat. cbn [List.length]. lia.
Defined.
